(** * Merf Stock Engine: the RSI analysis pipeline of [stock_service.py]

    A shallow embedding of the analysis service: symbol normalisation,
    period resolution, the staged validation of the provider's chart
    document, Wilder's RSI, the recommendation thresholds and the request
    handler with its authorisation gate.

    Python [float] is IEEE-754 binary64 and is modelled by Rocq's primitive
    [float]; its operations are specified by [SpecFloat] through the
    axioms of [FloatAxioms].  Python [int] is [Z] (or [nat] for lengths),
    [str] is a list of Unicode code points.  A number of the provider's
    document is an [int] or a [float], as the JSON text wrote it, and the
    handler's arithmetic takes each operator at the values it meets. *)

From Stdlib Require Import ZArith NArith String Ascii Bool Lia List.
From Stdlib Require Import Floats.
Import ListNotations.

(* Decimal literals denote the nearest binary64 value, as in Python. *)
Set Warnings "-inexact-float".

(** ** The Python runtime the service relies on *)

Module Py.

(** A [str] is a sequence of code points; [len] counts code points. *)
Definition codepoint := N.
Definition str := list codepoint.

(** An ASCII literal of the source, as a [str]. *)
Definition lit (s : string) : str := map N_of_ascii (list_ascii_of_string s).

Fixpoint str_eqb (a b : str) : bool :=
  match a, b with
  | [], [] => true
  | x :: a', y :: b' => N.eqb x y && str_eqb a' b'
  | _, _ => false
  end.

(** [a.startswith(p)] *)
Fixpoint startswith (a p : str) {struct p} : bool :=
  match p, a with
  | [], _ => true
  | y :: p', x :: a' => N.eqb x y && startswith a' p'
  | _ :: _, [] => false
  end.

(** [a.endswith(p)] *)
Definition endswith (a p : str) : bool := startswith (rev a) (rev p).

(** [p in a] for two strings: [p] occurs as a contiguous slice of [a]. *)
Fixpoint contains (a p : str) : bool :=
  startswith a p ||
  match a with
  | [] => false
  | _ :: a' => contains a' p
  end.

(** The response details raised by the service.  Each constructor stands
    for one literal of the source:
    - [Unauthorized]: "Yetkisiz Erişim!"
    - [YahooApiError]: "Yahoo Finance API error"
    - [NoData s]: "{s} için veri bulunamadı."
    - [NoPriceData s]: "{s} için fiyat verisi bulunamadı."
    - [NoClosingData s]: "{s} için kapanış verisi bulunamadı."
    - [FetchError e]: "Veri çekme hatası: {str(e)}" *)
Inductive builtin_exn :=
| ZeroDivisionError | TypeError | KeyError | IndexError
| AttributeError | ValueError | OverflowError | RequestException.

Inductive detail :=
| Unauthorized
| YahooApiError
| NoData (symbol : str)
| NoPriceData (symbol : str)
| NoClosingData (symbol : str)
| FetchError (e : builtin_exn).

Inductive exn :=
| Builtin (e : builtin_exn)
| HTTPException (status_code : Z) (d : detail).

(** The outcome of a Python expression: a value or a raised exception. *)
Inductive result (A : Type) :=
| Ok (a : A)
| Raise (e : exn).
Arguments Ok {A} a.
Arguments Raise {A} e.

Definition bind {A B} (r : result A) (k : A -> result B) : result B :=
  match r with
  | Ok a => k a
  | Raise e => Raise e
  end.

Fixpoint foldM {A S} (f : S -> A -> result S) (l : list A) (s : S) : result S :=
  match l with
  | [] => Ok s
  | x :: l' => bind (f s x) (foldM f l')
  end.

(** *** Floats *)

(** [float(n)] for a small non-negative [int]. *)
Definition float_of_nat (n : nat) : float :=
  PrimFloat.of_uint63 (Uint63.of_Z (Z.of_nat n)).

(** [x / y]: true division raises on a zero divisor of either sign. *)
Definition truediv (x y : float) : result float :=
  if (y =? 0)%float then Raise (Builtin ZeroDivisionError) else Ok (x / y)%float.

(** [sum(l)]: left-to-right addition starting from [0], the integer 0
    being 0.0 as soon as it meets a float.  (CPython 3.12 and later add a
    compensation term to a sum of floats; it changes low-order bits only
    and is dropped when the sum has overflowed.) *)
Definition sum (l : list float) : float :=
  fold_left PrimFloat.add l 0%float.

(** The integer nearest to [n / d] for [0 < d], ties to the even one. *)
Definition div_half_even (n d : Z) : Z :=
  let q := (n / d)%Z in
  match (2 * (n mod d) ?= d)%Z with
  | Lt => q
  | Gt => (q + 1)%Z
  | Eq => if Z.even q then q else (q + 1)%Z
  end.

(** The number of hundredths nearest to [m * 2^e], ties to even. *)
Definition hundredths (m : positive) (e : Z) : Z :=
  match e with
  | Zneg p => div_half_even (Zpos m * 100) (Z.pow_pos 2 p)
  | _ => (Zpos m * 100 * 2 ^ e)%Z
  end.

(** [round(x, 2)] on the specification side, as CPython computes it (the
    correctly rounded decimal string with two places, read back as a
    float): NaN and infinities round to themselves; a finite [x] is
    rounded, from its exact binary value, to the nearest multiple of 1/100
    (ties to even), and the decimal result is converted back to the
    nearest binary64 number, keeping the sign of [x]. *)
Definition SFround2 (x : spec_float) : spec_float :=
  match x with
  | S754_finite s m e =>
      match hundredths m e with
      | Zpos h => SF64div (S754_finite s h 0) (S754_finite false 100 0)
      | _ => S754_zero s
      end
  | _ => x
  end.

Definition round2 (x : float) : float := SF2Prim (SFround2 (Prim2SF x)).

(** *** Numbers: [int] and [float] together *)

(** A Python number as the service meets it: an exact [int] ([bool]
    included) or a [float]. *)
Inductive num :=
| PyInt (n : Z)
| PyFloat (x : float).

(** An [int] as a binary number of exponent 0, not yet rounded. *)
Definition SF_of_int (n : Z) : spec_float :=
  match n with
  | Z0 => S754_zero false
  | Zpos p => S754_finite false p 0
  | Zneg p => S754_finite true p 0
  end.

(** [float(n)], which is also what an [int] operand undergoes when the
    other operand is a [float]: the nearest binary64 number, ties to
    even; an [int] that rounds beyond the largest one raises
    [OverflowError]. *)
Definition float_of_int (n : Z) : result float :=
  match binary_normalize prec emax n 0 false with
  | S754_infinity _ => Raise (Builtin OverflowError)
  | r => Ok (SF2Prim r)
  end.

Definition to_float (a : num) : result float :=
  match a with
  | PyInt n => float_of_int n
  | PyFloat x => Ok x
  end.

(** [a - b]: exact between two [int]s, in binary64 otherwise. *)
Definition num_sub (a b : num) : result num :=
  match a, b with
  | PyInt m, PyInt n => Ok (PyInt (m - n))
  | _, _ =>
      bind (to_float a) (fun x =>
      bind (to_float b) (fun y =>
      Ok (PyFloat (x - y)%float)))
  end.

(** [a + b] *)
Definition num_add (a b : num) : result num :=
  match a, b with
  | PyInt m, PyInt n => Ok (PyInt (m + n))
  | _, _ =>
      bind (to_float a) (fun x =>
      bind (to_float b) (fun y =>
      Ok (PyFloat (x + y)%float)))
  end.

(** [a / b]: between two [int]s the quotient of the exact values,
    correctly rounded (ties to even), with [OverflowError] when it rounds
    beyond the largest binary64 number; otherwise the division of floats,
    the operands being converted before the divisor is tested. *)
Definition num_truediv (a b : num) : result float :=
  match a, b with
  | PyInt m, PyInt n =>
      if (n =? 0)%Z then Raise (Builtin ZeroDivisionError) else
      match SF64div (SF_of_int m) (SF_of_int n) with
      | S754_infinity _ => Raise (Builtin OverflowError)
      | r => Ok (SF2Prim r)
      end
  | _, _ =>
      bind (to_float a) (fun x =>
      bind (to_float b) (fun y =>
      truediv x y))
  end.

(** [a > 0] *)
Definition num_pos (a : num) : bool :=
  match a with
  | PyInt n => (0 <? n)%Z
  | PyFloat x => (0 <? x)%float
  end.

(** [abs(a)] *)
Definition num_abs (a : num) : num :=
  match a with
  | PyInt n => PyInt (Z.abs n)
  | PyFloat x => PyFloat (PrimFloat.abs x)
  end.

(** [sum(l)] on a list that may mix [int]s and [float]s: left to right
    from the integer 0, exact as long as only [int]s have been met, then
    in binary64 (as for [sum] above, without the compensation term of
    CPython 3.12 and later). *)
Definition num_sum (l : list num) : result num :=
  foldM num_add l (PyInt 0).

End Py.

(** ** Predicates on binary64 values used by the proofs *)

Module Binary64.

Local Open Scope Z_scope.

Abbreviation fexp64 := (fexp prec emax).

(** The least exponent of a binary64 number; [m * 2^(e - L64)] is an
    integer for every number [m * 2^e] of the format. *)
Definition L64 : Z := -1074.

(** No bit has been shifted out of the record. *)
Definition shr_exact (mrs : shr_record) : bool :=
  negb (shr_r mrs) && negb (shr_s mrs).

Definition SF0 : spec_float := S754_zero false.
Definition SF1 : spec_float := S754_finite false 4503599627370496 (-52).
Definition SF100 : spec_float := S754_finite false 7036874417766400 (-46).

(** NaN, or a number whose sign bit is clear. *)
Definition SFnonneg (x : spec_float) : Prop :=
  match x with
  | S754_nan => True
  | S754_zero s | S754_infinity s | S754_finite s _ _ => s = false
  end.

(** NaN, or at least one (possibly infinite). *)
Definition SFge1 (x : spec_float) : Prop :=
  match x with
  | S754_nan => True
  | S754_infinity s => s = false
  | S754_finite s m e =>
      s = false /\ L64 <= e
      /\ 2 ^ 52 * 2 ^ (-52 - L64) <= Zpos m * 2 ^ (e - L64)
  | S754_zero _ => False
  end.

(** NaN, or between zero and one hundred. *)
Definition SFle100 (x : spec_float) : Prop :=
  match x with
  | S754_nan => True
  | S754_zero s => s = false
  | S754_finite s m e =>
      s = false /\ L64 <= e
      /\ Zpos m * 2 ^ (e - L64) <= 7036874417766400 * 2 ^ (-46 - L64)
  | S754_infinity _ => False
  end.

(** The same two shapes for a primitive float. *)
Definition nonneg (x : float) : Prop := SFnonneg (Prim2SF x).

Definition in_range (x : float) : Prop :=
  is_nan x = true \/ ((0 <=? x)%float = true /\ (x <=? 100)%float = true).

(** What [round(x, 2)] returns for [h] hundredths is a binary64 number
    between 0 and 100. *)
Definition hundredth_ok (h : positive) : bool :=
  let v := SF64div (S754_finite false h 0) (S754_finite false 100 0) in
  valid_binary v && SFleb SF0 v && SFleb v SF100.

(** A mantissa and exponent as rounding leaves them: in canonical form,
    or a zero at the least exponent. *)
Definition settled (m e : Z) : Prop :=
  (0 < m /\ fexp64 (Zdigits2 m + e) = e) \/ (m = 0 /\ e = -1074).

(** A number whose sign bit is clear, for a Python number. *)
Definition num_nonneg (a : Py.num) : Prop :=
  match a with
  | Py.PyInt n => 0 <= n
  | Py.PyFloat x => nonneg x
  end.

(** The positive numbers up to [n], largest first. *)
Definition pos_upto (n : positive) : list positive :=
  Pos.peano_rect (fun _ => list positive) [1%positive]
                 (fun p acc => Pos.succ p :: acc) n.

End Binary64.

Import Py Binary64.
Notation "x <- c ;; k" := (Py.bind c (fun x => k))
  (at level 61, c at next level, right associativity).

(** ** RsiEngine: [calculate_rsi] *)

Module Rsi.

(** [[closes[i] - closes[i-1] for i in range(1, len(closes))]] *)
Fixpoint deltas (closes : list float) : list float :=
  match closes with
  | [] => []
  | prev :: rest =>
      match rest with
      | [] => []
      | cur :: _ => (cur - prev)%float :: deltas rest
      end
  end.

(** The two branches of the loop over [deltas]: what is appended to
    [gains] and to [losses].  The appended integer [0] only ever meets
    floats, where it is [0.0]. *)
Definition gain_of (d : float) : float :=
  if (0 <? d)%float then d else 0%float.
Definition loss_of (d : float) : float :=
  if (0 <? d)%float then 0%float else PrimFloat.abs d.

(** One pass of the smoothing loop at index [i >= window]. *)
Definition smooth (window : nat) (avg : float * float) (gl : float * float)
  : result (float * float) :=
  let w := float_of_nat window in
  let w1 := float_of_nat (window - 1) in
  g <- truediv (fst avg * w1 + fst gl)%float w ;;
  l <- truediv (snd avg * w1 + snd gl)%float w ;;
  Ok (g, l).

Definition calculate_rsi (closes : list float) (window : nat) : result float :=
  if length closes <? window + 1 then Ok 50%float else
  let ds := deltas closes in
  let gains := map gain_of ds in
  let losses := map loss_of ds in
  if length gains <? window then Ok 50%float else
  avg_gain <- truediv (sum (firstn window gains)) (float_of_nat window) ;;
  avg_loss <- truediv (sum (firstn window losses)) (float_of_nat window) ;;
  avg <- foldM (smooth window)
               (combine (skipn window gains) (skipn window losses))
               (avg_gain, avg_loss) ;;
  let avg_gain := fst avg in
  let avg_loss := snd avg in
  if (avg_loss =? 0)%float then Ok 100%float else
  rs <- truediv avg_gain avg_loss ;;
  q <- truediv 100%float (1 + rs)%float ;;
  Ok (round2 (100 - q)%float).

(** Every close is above the one before it. *)
Fixpoint strictly_increasing (closes : list float) : bool :=
  match closes with
  | [] => true
  | prev :: rest =>
      match rest with
      | [] => true
      | cur :: _ => (prev <? cur)%float && strictly_increasing rest
      end
  end.

End Rsi.

Import Rsi.


(** ** RecommendationPolicy: the thresholds of [analyze_stock] *)

Module Policy.

(** The three labels of the source: [BUY] is "AL (Aşırı Satım)", [SELL]
    is "SAT (Aşırı Alım)" and [NEUTRAL] is "NÖTR". *)
Inductive recommendation := BUY | SELL | NEUTRAL.

Definition recommend (rsi_val : float) : recommendation :=
  if (rsi_val <? 30)%float then BUY
  else if (70 <? rsi_val)%float then SELL
  else NEUTRAL.

End Policy.

(** ** SymbolNormalizer: the first statements of [analyze_stock] *)

Module Symbol.

Section Upper.

(** [str.upper()] maps every code point through Unicode's full
    uppercase mapping, which may yield several code points.  The table
    itself is a parameter. *)
Variable upper_full : codepoint -> str.

Definition upper (s : str) : str := flat_map upper_full s.

Definition normalize (raw : str) : str :=
  let symbol := upper raw in
  if (length symbol <=? 5)
     && negb (endswith symbol (lit ".IS"))
     && negb (contains symbol (lit "USD"))
  then symbol ++ lit ".IS"
  else symbol.

End Upper.

(** The table on the ASCII range: [a]..[z] go to [A]..[Z], every other
    ASCII character is its own uppercase. *)
Definition ascii_upper (c : codepoint) : codepoint :=
  if (N.leb 97 c && N.leb c 122)%bool then (c - 32)%N else c.

Definition agrees_on_ascii (upper_full : codepoint -> str) : Prop :=
  forall c, (c < 128)%N -> upper_full c = [ascii_upper c].

(** Uppercasing a second time changes nothing (true of Unicode's table). *)
Definition idempotent_table (upper_full : codepoint -> str) : Prop :=
  forall c, upper upper_full (upper_full c) = upper_full c.

(** A table that agrees with Unicode on ASCII and leaves the rest alone. *)
Definition ascii_table (c : codepoint) : str := [ascii_upper c].

End Symbol.

(** ** TimeRangeResolver: [get_period_seconds] *)

Module Period.

(** A naive local [datetime], kept as its year and the microseconds
    elapsed since 1 January 00:00:00 of that year. *)
Record datetime := { year : Z; micros : Z }.

Definition micros_per_day : Z := 86400 * 1000000.

Definition is_leap (y : Z) : bool :=
  ((y mod 4 =? 0) && (negb (y mod 100 =? 0) || (y mod 400 =? 0)))%Z.

Definition days_in_year (y : Z) : Z := if is_leap y then 366 else 365.

(** A reading the clock can produce. *)
Definition well_formed (d : datetime) : Prop :=
  (1 <= year d /\ 0 <= micros d < days_in_year (year d) * micros_per_day)%Z.

(** Days from 1 January of year 1 to 1 January of year [y]. *)
Definition days_before_year (y : Z) : Z :=
  let p := (y - 1)%Z in (p * 365 + p / 4 - p / 100 + p / 400)%Z.

(** [datetime(y, 1, 1)] *)
Definition jan1 (y : Z) : datetime := {| year := y; micros := 0 |}.

(** [a - b], a [timedelta], in microseconds. *)
Definition minus (a b : datetime) : Z :=
  ((days_before_year (year a) - days_before_year (year b)) * micros_per_day
   + (micros a - micros b))%Z.

(** [int(td.total_seconds())]: truncation towards zero of the seconds.
    ([total_seconds] is a float; for spans below a century its integer
    part is that of the exact quotient.) *)
Definition int_total_seconds (td : Z) : Z := Z.quot td 1000000.

(** The dictionary literal.  [now1] and [now2] are the two readings of
    [datetime.now()] in the "ytd" entry, in evaluation order. *)
Definition period_map (now1 now2 : datetime) : list (str * Z) :=
  [ (lit "1d", 86400);
    (lit "5d", 5 * 86400);
    (lit "1mo", 30 * 86400);
    (lit "3mo", 90 * 86400);
    (lit "6mo", 180 * 86400);
    (lit "1y", 365 * 86400);
    (lit "2y", 2 * 365 * 86400);
    (lit "5y", 5 * 365 * 86400);
    (lit "10y", 10 * 365 * 86400);
    (lit "ytd", int_total_seconds (minus now1 (jan1 (year now2))));
    (lit "max", 50 * 365 * 86400) ]%Z.

(** [d.get(key, default)] on a dictionary literal with distinct keys. *)
Fixpoint dict_get {V} (d : list (str * V)) (key : str) (default : V) : V :=
  match d with
  | [] => default
  | (k, v) :: d' => if str_eqb k key then v else dict_get d' key default
  end.

(** [get_period_seconds] given the two clock readings it makes. *)
Definition period_seconds (now1 now2 : datetime) (period : str) : Z :=
  dict_get (period_map now1 now2) period (30 * 86400)%Z.

End Period.

(** ** The provider's document: parsed JSON and Python's dynamic operations *)

Module Json.

(** What [response.json()] yields.  A number written without fraction
    or exponent is an exact [int], any other number carries its binary64
    value ([NaN] and [Infinity] are read too); an object is its list of
    members (each key once). *)
#[local] Unset Elimination Schemes.
Inductive json :=
| JNull
| JBool (b : bool)
| JInt (n : Z)
| JNum (x : float)
| JStr (s : str)
| JArr (items : list json)
| JObj (members : list (str * json)).
#[local] Set Elimination Schemes.

Fixpoint lookup (members : list (str * json)) (key : str) : option json :=
  match members with
  | [] => None
  | (k, v) :: rest => if str_eqb k key then Some v else lookup rest key
  end.

Definition is_str (key : str) (v : json) : bool :=
  match v with
  | JStr s => str_eqb s key
  | _ => false
  end.

(** [key in v] for a string [key] *)
Definition py_in (key : str) (v : json) : result bool :=
  match v with
  | JObj members =>
      Ok match lookup members key with
         | Some _ => true
         | None => false
         end
  | JArr items => Ok (existsb (is_str key) items)
  | JStr s => Ok (contains s key)
  | _ => Raise (Builtin TypeError)
  end.

(** [v[key]] for a string [key] *)
Definition getitem (v : json) (key : str) : result json :=
  match v with
  | JObj members =>
      match lookup members key with
      | Some x => Ok x
      | None => Raise (Builtin KeyError)
      end
  | _ => Raise (Builtin TypeError)
  end.

(** [v[0]] *)
Definition getitem0 (v : json) : result json :=
  match v with
  | JArr (x :: _) => Ok x
  | JArr [] => Raise (Builtin IndexError)
  | JStr (c :: _) => Ok (JStr [c])
  | JStr [] => Raise (Builtin IndexError)
  | JObj _ => Raise (Builtin KeyError)
  | _ => Raise (Builtin TypeError)
  end.

(** [bool(v)] *)
Definition truthy (v : json) : bool :=
  match v with
  | JNull => false
  | JBool b => b
  | JInt n => negb (n =? 0)%Z
  | JNum x => negb (x =? 0)%float
  | JStr s => negb (length s =? 0)
  | JArr items => negb (length items =? 0)
  | JObj members => negb (length members =? 0)
  end.

(** [v.get(key, default)] *)
Definition get (v : json) (key : str) (default : json) : result json :=
  match v with
  | JObj members =>
      Ok match lookup members key with
         | Some x => x
         | None => default
         end
  | _ => Raise (Builtin AttributeError)
  end.

Definition is_not_none (v : json) : bool :=
  match v with
  | JNull => false
  | _ => true
  end.

(** The elements [for c in v] runs over. *)
Definition iterate (v : json) : result (list json) :=
  match v with
  | JArr items => Ok items
  | JStr s => Ok (map (fun c => JStr [c]) s)
  | JObj members => Ok (map (fun kv => JStr (fst kv)) members)
  | _ => Raise (Builtin TypeError)
  end.

(** [[c for c in v if c is not None]] *)
Definition not_none_items (v : json) : result (list json) :=
  items <- iterate v ;;
  Ok (filter is_not_none items).

(** The operand of an arithmetic operator ([bool] is an [int]); anything
    that is not a number makes the operator raise [TypeError]. *)
Definition as_num (v : json) : result num :=
  match v with
  | JInt n => Ok (PyInt n)
  | JNum x => Ok (PyFloat x)
  | JBool true => Ok (PyInt 1)
  | JBool false => Ok (PyInt 0)
  | _ => Raise (Builtin TypeError)
  end.

(** [float(v)] for a value that has been an operand of arithmetic: the
    float itself, or the conversion of the [int]. *)
Definition as_float (v : json) : result float :=
  n <- as_num v ;; to_float n.

(** [a - b] *)
Definition json_sub (a b : json) : result num :=
  x <- as_num a ;;
  y <- as_num b ;;
  num_sub x y.

End Json.

Import Json.

(** ** MarketDataClient and AnalysisOrchestrator *)

Module Service.

Import Period Policy.

(** One GET against the chart endpoint: the symbol in the URL and the
    query parameters that vary. *)
Record remote_call := {
  url_symbol : str;
  period1 : Z;
  period2 : Z;
  interval : str
}.

(** What [requests.get] gives back: it raises (time-out, connection
    failure), or returns a response whose body parses as JSON or not. *)
Inductive reply :=
| NoResponse
| Response (status_code : Z) (body : option json).

(** The surroundings of the process. *)
Record platform := {
  (** the successive readings of [datetime.now()] *)
  clock : nat -> datetime;
  (** [int(d.timestamp())] in the local time zone *)
  epoch_seconds : datetime -> Z;
  (** the market-data provider *)
  provider : remote_call -> reply;
  (** [os.environ.get("SERVICE_SECRET")] *)
  environ_secret : option str;
  (** Unicode's uppercase table *)
  upper_full : codepoint -> str
}.

(** What a run has done so far: how often the clock was read, and the
    remote calls issued, latest first. *)
Record world := {
  ticks : nat;
  calls : list remote_call
}.

Definition M (A : Type) : Type := world -> result A * world.

Definition ret {A} (a : A) : M A := fun w => (Ok a, w).
Definition raise {A} (e : exn) : M A := fun w => (Raise e, w).
Definition lift {A} (r : result A) : M A := fun w => (r, w).
Definition mbind {A B} (c : M A) (k : A -> M B) : M B :=
  fun w =>
    match c w with
    | (Ok a, w') => k a w'
    | (Raise e, w') => (Raise e, w')
    end.

Notation "x <~ c ;; k" := (mbind c (fun x => k))
  (at level 61, c at next level, right associativity).

Section WithPlatform.

Variable P : platform.

(** [datetime.now()] *)
Definition now : M datetime :=
  fun w => (Ok (clock P (ticks w)), {| ticks := S (ticks w); calls := calls w |}).

(** [requests.get(url, params=..., headers=..., timeout=10)]: the
    status code and the body of the response. *)
Definition requests_get (c : remote_call) : M (Z * option json) :=
  fun w =>
    let w' := {| ticks := ticks w; calls := c :: calls w |} in
    match provider P c with
    | NoResponse => (Raise (Builtin RequestException), w')
    | Response status body => (Ok (status, body), w')
    end.

(** [API_SECRET] *)
Definition API_SECRET : str :=
  match environ_secret P with
  | Some s => s
  | None => lit "merf_stock_secret_123"
  end.

Definition get_period_seconds (period : str) : M Z :=
  now1 <~ now ;;
  now2 <~ now ;;
  ret (period_seconds now1 now2 period).

Record yahoo_data := {
  data_symbol : json;
  data_closes : list json;
  data_currency : json;
  data_regularMarketPrice : json
}.

(** [closes[-1]] *)
Definition last_item (closes : list json) : result json :=
  match rev closes with
  | x :: _ => Ok x
  | [] => Raise (Builtin IndexError)
  end.

(** The part of [fetch_yahoo_data] after [data = response.json()]. *)
Definition validate (symbol : str) (data : json) : result yahoo_data :=
  has_chart <- py_in (lit "chart") data ;;
  missing <-
    (if negb has_chart then Ok true else
     chart <- getitem data (lit "chart") ;;
     has_result <- py_in (lit "result") chart ;;
     if negb has_result then Ok true else
     chart' <- getitem data (lit "chart") ;;
     r <- getitem chart' (lit "result") ;;
     Ok (negb (truthy r))) ;;
  if (missing : bool) then Raise (HTTPException 404 (NoData symbol)) else
  chart <- getitem data (lit "chart") ;;
  results <- getitem chart (lit "result") ;;
  result <- getitem0 results ;;
  has_indicators <- py_in (lit "indicators") result ;;
  missing <-
    (if negb has_indicators then Ok true else
     indicators <- getitem result (lit "indicators") ;;
     has_quote <- py_in (lit "quote") indicators ;;
     Ok (negb has_quote)) ;;
  if (missing : bool) then Raise (HTTPException 404 (NoPriceData symbol)) else
  indicators <- getitem result (lit "indicators") ;;
  quotes <- getitem indicators (lit "quote") ;;
  quote <- getitem0 quotes ;;
  closes <- get quote (lit "close") (JArr []) ;;
  closes <- not_none_items closes ;;
  if length closes =? 0 then Raise (HTTPException 404 (NoClosingData symbol)) else
  meta <- getitem result (lit "meta") ;;
  sym <- getitem meta (lit "symbol") ;;
  meta <- getitem result (lit "meta") ;;
  currency <- get meta (lit "currency") (JStr (lit "TRY")) ;;
  meta <- getitem result (lit "meta") ;;
  last <- last_item closes ;;
  price <- get meta (lit "regularMarketPrice") last ;;
  Ok {| data_symbol := sym; data_closes := closes;
        data_currency := currency; data_regularMarketPrice := price |}.

Definition fetch_yahoo_data (symbol period interval : str) : M yahoo_data :=
  period_seconds <~ get_period_seconds period ;;
  t <~ now ;;
  let end_time := epoch_seconds P t in
  let start_time := (end_time - period_seconds)%Z in
  response <~ requests_get {| url_symbol := symbol; period1 := start_time;
                              period2 := end_time; interval := interval |} ;;
  let '(status, body) := response in
  if negb (status =? 200)%Z
  then raise (HTTPException status YahooApiError)
  else
    match body with
    | None => raise (Builtin ValueError)
    | Some data => lift (validate symbol data)
    end.

Record StockRequest := {
  req_symbol : str;
  req_period : str;
  req_interval : str
}.

Record StockResponse := {
  symbol : json;
  price : float;
  change_percent : float;
  rsi : float;
  recommendation : Policy.recommendation;
  period : str;
  data_points : nat
}.

(** [x_api_token != API_SECRET], with [None] for an absent header. *)
Definition token_differs (x_api_token : option str) : bool :=
  match x_api_token with
  | Some t => negb (str_eqb t API_SECRET)
  | None => true
  end.

(** The [try] around the fetch: an [HTTPException] passes through,
    any other exception becomes a 500. *)
Definition guarded {A} (c : M A) : M A :=
  fun w =>
    match c w with
    | (Raise (Builtin e), w') => (Raise (HTTPException 500 (FetchError e)), w')
    | out => out
    end.

(** [calculate_rsi] as the handler calls it.  The annotation of its
    argument is not enforced: the list holds what the provider sent,
    [int]s and [float]s mixed, or values that are not numbers.  The
    statements are those of [Rsi.calculate_rsi], with the operators
    taken at the values they meet; on a list of floats the two agree
    (lemma [calculate_rsi_of_floats]). *)

(** [[closes[i] - closes[i-1] for i in range(1, len(closes))]] *)
Fixpoint json_deltas (closes : list json) : result (list num) :=
  match closes with
  | [] => Ok []
  | prev :: rest =>
      match rest with
      | [] => Ok []
      | cur :: _ =>
          d <- json_sub cur prev ;;
          ds <- json_deltas rest ;;
          Ok (d :: ds)
      end
  end.

Definition gain_of_num (d : num) : num :=
  if num_pos d then d else PyInt 0.
Definition loss_of_num (d : num) : num :=
  if num_pos d then PyInt 0 else num_abs d.

(** One pass of the smoothing loop: the averages are floats by now, the
    gain and the loss may still be [int]s. *)
Definition smooth_num (window : nat) (avg : float * float) (gl : num * num)
  : result (float * float) :=
  let step (a : float) (x : num) : result float :=
    w1 <- float_of_int (Z.of_nat window - 1) ;;
    y <- to_float x ;;
    w <- float_of_int (Z.of_nat window) ;;
    truediv (a * w1 + y)%float w in
  g <- step (fst avg) (fst gl) ;;
  l <- step (snd avg) (snd gl) ;;
  Ok (g, l).

Definition calculate_rsi_of (closes : list json) (window : nat) : result float :=
  if length closes <? window + 1 then Ok 50%float else
  ds <- json_deltas closes ;;
  let gains := map gain_of_num ds in
  let losses := map loss_of_num ds in
  if length gains <? window then Ok 50%float else
  sum_gains <- num_sum (firstn window gains) ;;
  avg_gain <- num_truediv sum_gains (PyInt (Z.of_nat window)) ;;
  sum_losses <- num_sum (firstn window losses) ;;
  avg_loss <- num_truediv sum_losses (PyInt (Z.of_nat window)) ;;
  avg <- foldM (smooth_num window)
               (combine (skipn window gains) (skipn window losses))
               (avg_gain, avg_loss) ;;
  let avg_gain := fst avg in
  let avg_loss := snd avg in
  if (avg_loss =? 0)%float then Ok 100%float else
  rs <- truediv avg_gain avg_loss ;;
  q <- truediv 100%float (1 + rs)%float ;;
  Ok (round2 (100 - q)%float).

Definition analyze_stock (request : StockRequest) (x_api_token : option str)
  : M StockResponse :=
  if token_differs x_api_token
  then raise (HTTPException 401 Unauthorized)
  else
    let symbol := Symbol.normalize (upper_full P) (req_symbol request) in
    data <~ guarded (fetch_yahoo_data symbol (req_period request)
                                      (req_interval request)) ;;
    let closes := data_closes data in
    lift (
      current_price <- last_item closes ;;
      start_price <- getitem0 (JArr closes) ;;
      diff <- json_sub current_price start_price ;;
      start <- as_num start_price ;;
      ratio <- num_truediv diff start ;;
      let change_pct := (ratio * 100)%float in
      rsi_val <- calculate_rsi_of closes 14 ;;
      current <- as_float current_price ;;
      Ok {| symbol := data_symbol data;
            price := round2 current;
            change_percent := round2 change_pct;
            rsi := rsi_val;
            recommendation := recommend rsi_val;
            period := req_period request;
            data_points := length closes |}).

End WithPlatform.

(** The entries of the close array of the first quote of the first result
    of a chart document, before null entries are dropped. *)
Definition close_entries (doc : json) : result (list json) :=
  chart <- getitem doc (lit "chart") ;;
  results <- getitem chart (lit "result") ;;
  result <- getitem0 results ;;
  indicators <- getitem result (lit "indicators") ;;
  quotes <- getitem indicators (lit "quote") ;;
  quote <- getitem0 quotes ;;
  closes <- get quote (lit "close") (JArr []) ;;
  iterate closes.

End Service.

Import Period Policy Service.

(** ** Concrete scenarios *)
Module Scenario.

(** A chart document with one result whose quote carries [close]. *)
Definition chart_doc (quote : json) : json :=
  JObj [(lit "chart",
         JObj [(lit "result",
                JArr [JObj [(lit "meta", JObj [(lit "symbol", JStr (lit "THYAO.IS"))]);
                            (lit "indicators", JObj [(lit "quote", quote)])]])])].

Definition closes_doc (close : list json) : json :=
  chart_doc (JArr [JObj [(lit "close", JArr close)]]).

(** The provider answers 200 with a chart whose quote list is empty. *)
Definition empty_quote_doc : json := chart_doc (JArr []).

(** Noon of 1 July 2024, and half a second into 2025. *)
Definition midyear : datetime := {| year := 2024; micros := 182 * micros_per_day + 43200000000 |}.
Definition new_year : datetime := {| year := 2025; micros := 500000 |}.

Definition platform_of (t : datetime) (doc : json) : platform :=
  {| clock := fun _ => t;
     epoch_seconds := fun d => (days_before_year (year d) - 719162) * 86400 + micros d / 1000000;
     provider := fun _ => Response 200 (Some doc);
     environ_secret := None;
     upper_full := Symbol.ascii_table |}%Z.

Definition start_world : world := {| ticks := 0; calls := [] |}.

Definition thyao (period : string) : StockRequest :=
  {| req_symbol := lit "thyao"; req_period := lit period; req_interval := lit "1d" |}.

Definition secret : option str := Some (lit "merf_stock_secret_123").

(** Fifteen closes alternating between 1.0 and 2^1023. *)
Definition overflowing : list float :=
  [1; 0x1p1023; 1; 0x1p1023; 1; 0x1p1023; 1; 0x1p1023;
   1; 0x1p1023; 1; 0x1p1023; 1; 0x1p1023; 1]%float.

Definition rising : list float :=
  [1; 2; 3; 4; 5; 6; 7; 8; 9; 10; 11; 12; 13; 14; 15]%float.

End Scenario.

Import Scenario.

(** ** More scenarios and trends *)

Module Trend.

(** No close is below the one before it. *)
Fixpoint non_decreasing (closes : list float) : bool :=
  match closes with
  | [] => true
  | prev :: rest =>
      match rest with
      | [] => true
      | cur :: _ => (prev <=? cur)%float && non_decreasing rest
      end
  end.

(** Every close is below the one before it. *)
Fixpoint strictly_decreasing (closes : list float) : bool :=
  match closes with
  | [] => true
  | prev :: rest =>
      match rest with
      | [] => true
      | cur :: _ => (cur <? prev)%float && strictly_decreasing rest
      end
  end.

(** Positive and not NaN: a finite positive number or plus infinity. *)
Definition SFpositive (x : spec_float) : Prop :=
  match x with
  | S754_infinity false | S754_finite false _ _ => True
  | _ => False
  end.

(** Negative and not NaN. *)
Definition SFnegative (x : spec_float) : Prop :=
  match x with
  | S754_infinity true | S754_finite true _ _ => True
  | _ => False
  end.

(** At least [n] times the least positive binary64 number; a zero only
    counts for [n <= 0]. *)
Definition SFat_least (n : Z) (x : spec_float) : Prop :=
  match x with
  | S754_infinity false => True
  | S754_finite false m e => (L64 <= e /\ n <= Zpos m * 2 ^ (e - L64))%Z
  | S754_zero false => (n <= 0)%Z
  | _ => False
  end.

End Trend.

Module Fixture.

(** Seconds since 1970 of a reading taken as UTC. *)
Definition utc_seconds (d : datetime) : Z :=
  ((days_before_year (year d) - 719162) * 86400 + micros d / 1000000)%Z.

(** A platform with a given clock and a provider that always gives the
    same reply. *)
Definition platform_with (clk : nat -> datetime) (r : reply) : platform :=
  {| clock := clk;
     epoch_seconds := utc_seconds;
     provider := fun _ => r;
     environ_secret := None;
     upper_full := Symbol.ascii_table |}.

(** The first reading falls a second and a half before the end of 2024,
    the later ones in 2025. *)
Definition rollover_clock (n : nat) : datetime :=
  match n with
  | O => {| year := 2024; micros := 366 * micros_per_day - 1500000 |}
  | _ => {| year := 2025; micros := 200000 |}
  end%Z.

Definition falling : list float :=
  [15; 14; 13; 12; 11; 10; 9; 8; 7; 6; 5; 4; 3; 2; 1]%float.

Definition flat : list float :=
  [7; 7; 7; 7; 7; 7; 7; 7; 7; 7; 7; 7; 7; 7; 7; 7]%float.

End Fixture.

Import Trend Fixture.

(** The symbol the provider reports for the first result of a chart
    document. *)
Definition meta_symbol (doc : json) : result json :=
  chart <- getitem doc (lit "chart") ;;
  results <- getitem chart (lit "result") ;;
  result <- getitem0 results ;;
  meta <- getitem result (lit "meta") ;;
  getitem meta (lit "symbol").

(** The [meta] object of the first result of a chart document. *)
Definition meta_of (doc : json) : result json :=
  chart <- getitem doc (lit "chart") ;;
  results <- getitem chart (lit "result") ;;
  result <- getitem0 results ;;
  getitem result (lit "meta").

(** The exceptions that leave [analyze_stock]. *)
Inductive analysis_error : exn -> Prop :=
| unauthorized_error :
    analysis_error (HTTPException 401 Unauthorized)
| upstream_error status :
    status <> 200%Z -> analysis_error (HTTPException status YahooApiError)
| no_data_error symbol :
    analysis_error (HTTPException 404 (NoData symbol))
| no_price_data_error symbol :
    analysis_error (HTTPException 404 (NoPriceData symbol))
| no_closing_data_error symbol :
    analysis_error (HTTPException 404 (NoClosingData symbol))
| fetch_error e :
    analysis_error (HTTPException 500 (FetchError e))
| type_error :
    analysis_error (Builtin TypeError)
| zero_division_error :
    analysis_error (Builtin ZeroDivisionError)
| overflow_error :
    analysis_error (Builtin OverflowError).

(** Inversion of a chain of binds that ends in [Ok]. *)
Ltac bind_inv H :=
  repeat match type of H with
         | Py.bind ?c _ = Ok _ =>
             let E := fresh "E" in
             destruct c eqn:E; cbn [Py.bind] in H; [|discriminate H]
         | (if ?b then _ else _) = Ok _ =>
             let E := fresh "E" in
             destruct b eqn:E; [discriminate H|]
         end.

(** * Properties *)

(** ** Binary64 rounding *)

Section Rounding64.

Local Open Scope Z_scope.

Lemma digits2_pos_bounds (m : positive) :
  2 ^ (Zpos (digits2_pos m) - 1) <= Zpos m < 2 ^ Zpos (digits2_pos m).
Proof.
  induction m as [m IH|m IH|]; cbn [digits2_pos].
  - rewrite Pos2Z.inj_succ.
    replace (Z.succ (Zpos (digits2_pos m)) - 1) with (Z.succ (Zpos (digits2_pos m) - 1)) by lia.
    rewrite !Z.pow_succ_r by lia. lia.
  - rewrite Pos2Z.inj_succ.
    replace (Z.succ (Zpos (digits2_pos m)) - 1) with (Z.succ (Zpos (digits2_pos m) - 1)) by lia.
    rewrite !Z.pow_succ_r by lia. lia.
  - cbn. lia.
Qed.

Lemma loc_exact_iff mrs : loc_of_shr_record mrs = loc_Exact <-> shr_exact mrs = true.
Proof. destruct mrs as [m [] []]; cbn; split; congruence. Qed.

Lemma shr_1_spec mrs :
  0 <= shr_m mrs ->
  shr_m (shr_1 mrs) = shr_m mrs / 2
  /\ (shr_exact mrs = true -> shr_m mrs mod 2 = 0 -> shr_exact (shr_1 mrs) = true).
Proof.
  destruct mrs as [m r s]. cbn [shr_m]. intros Hm.
  destruct m as [|[p|p|]|p]; try lia; cbn [shr_1 shr_m shr_exact shr_r shr_s].
  - split; [reflexivity|]. intros H _. unfold shr_exact in H; cbn in H.
    destruct r, s; cbn in *; congruence.
  - split; [rewrite Pos2Z.inj_xI; apply Z.div_unique with 1; lia|].
    intros _ H. rewrite Pos2Z.inj_xI in H.
    rewrite Z.add_comm, Z.mul_comm, Z.mod_add in H by lia. discriminate.
  - split; [rewrite Pos2Z.inj_xO; apply Z.div_unique with 0; lia|].
    intros H _. unfold shr_exact in H; cbn in H. destruct r, s; cbn in *; congruence.
  - split; [reflexivity|]. intros _ H. discriminate.
Qed.

Lemma mod_mul_zero m a b :
  0 < a -> 0 < b -> m mod (a * b) = 0 -> m mod a = 0 /\ (m / a) mod b = 0.
Proof.
  intros Ha Hb H.
  apply Z.mod_divide in H; [|lia]. destruct H as [k Hk]. subst m.
  split.
  - replace (k * (a * b)) with ((k * b) * a) by ring. apply Z.mod_mul. lia.
  - replace (k * (a * b)) with ((k * b) * a) by ring.
    rewrite Z.div_mul by lia. apply Z.mod_mul. lia.
Qed.

Lemma pow2_double n : 0 <= n -> 2 ^ (2 * n) = 2 ^ n * 2 ^ n.
Proof. intros H. replace (2 * n) with (n + n) by lia. now apply Z.pow_add_r. Qed.

Lemma shr_iter_spec p : forall mrs,
  0 <= shr_m mrs ->
  shr_m (iter_pos shr_1 p mrs) = shr_m mrs / 2 ^ Zpos p
  /\ (shr_exact mrs = true -> shr_m mrs mod 2 ^ Zpos p = 0 ->
      shr_exact (iter_pos shr_1 p mrs) = true).
Proof.
  induction p as [p IH|p IH|]; intros mrs Hm; cbn [iter_pos].
  - destruct (shr_1_spec mrs Hm) as [E1 X1].
    assert (H1 : 0 <= shr_m (shr_1 mrs)) by (rewrite E1; apply Z.div_pos; lia).
    destruct (IH _ H1) as [E2 X2].
    assert (H2 : 0 <= shr_m (iter_pos shr_1 p (shr_1 mrs)))
      by (rewrite E2; apply Z.div_pos; lia).
    destruct (IH _ H2) as [E3 X3].
    assert (Hp : 2 ^ Zpos p~1 = 2 * (2 ^ Zpos p * 2 ^ Zpos p)).
    { change (Zpos p~1) with (2 * Zpos p + 1).
      rewrite Z.pow_add_r, Z.pow_1_r, pow2_double by lia. ring. }
    assert (Hpos : 0 < 2 ^ Zpos p) by (apply Z.pow_pos_nonneg; lia).
    split.
    + rewrite E3, E2, E1, Hp, !Z.div_div by lia. reflexivity.
    + intros Hx Hmod. rewrite Hp in Hmod.
      apply mod_mul_zero in Hmod as [Ha Hb]; [|lia|lia].
      apply mod_mul_zero in Hb as [Hb Hc]; [|lia|lia].
      apply X3; [apply X2; [apply X1; assumption | rewrite E1; assumption]|].
      rewrite E2, E1. assumption.
  - destruct (IH _ Hm) as [E2 X2].
    assert (H2 : 0 <= shr_m (iter_pos shr_1 p mrs))
      by (rewrite E2; apply Z.div_pos; [lia | apply Z.pow_pos_nonneg; lia]).
    destruct (IH _ H2) as [E3 X3].
    assert (Hp : 2 ^ Zpos p~0 = 2 ^ Zpos p * 2 ^ Zpos p).
    { change (Zpos p~0) with (2 * Zpos p). apply pow2_double. lia. }
    assert (Hpos : 0 < 2 ^ Zpos p) by (apply Z.pow_pos_nonneg; lia).
    split.
    + rewrite E3, E2, Hp, !Z.div_div by lia. reflexivity.
    + intros Hx Hmod. rewrite Hp in Hmod.
      apply mod_mul_zero in Hmod as [Ha Hb]; [|lia|lia].
      apply X3; [apply X2; assumption|]. rewrite E2. assumption.
  - rewrite Z.pow_1_r. apply shr_1_spec. assumption.
Qed.

Lemma fexp64_eq e : fexp64 e = Z.max (e - 53) (-1074).
Proof. reflexivity. Qed.

Lemma pow2_pos n : 0 <= n -> 0 < 2 ^ n.
Proof. intros. apply Z.pow_pos_nonneg; lia. Qed.

Lemma pow2_split a b c : c <= a -> a <= b -> 2 ^ (b - c) = 2 ^ (b - a) * 2 ^ (a - c).
Proof. intros. rewrite <- Z.pow_add_r by lia. f_equal. lia. Qed.

Lemma loc_of_record_of_loc m l : loc_of_shr_record (shr_record_of_loc m l) = l.
Proof. destruct l as [|[]]; reflexivity. Qed.

Lemma shr_m_record_of_loc m l : shr_m (shr_record_of_loc m l) = m.
Proof. destruct l as [|[]]; reflexivity. Qed.

(** What one call of [shr_fexp] does to a non-negative mantissa. *)
Lemma shr_fexp_spec mx ex lx :
  0 <= mx ->
  let n := fexp64 (Zdigits2 mx + ex) - ex in
  exists mrs e',
    shr_fexp prec emax mx ex lx = (mrs, e')
    /\ ((n <= 0 /\ e' = ex /\ shr_m mrs = mx /\ loc_of_shr_record mrs = lx)
        \/ (0 < n /\ e' = ex + n /\ shr_m mrs = mx / 2 ^ n
            /\ (lx = loc_Exact -> mx mod 2 ^ n = 0 ->
                loc_of_shr_record mrs = loc_Exact))).
Proof.
  intros Hm n. unfold shr_fexp, shr. fold n.
  destruct n as [|p|p] eqn:En.
  - eexists _, _. split; [reflexivity|]. left.
    rewrite shr_m_record_of_loc, loc_of_record_of_loc. repeat split; lia.
  - eexists _, _. split; [reflexivity|]. right.
    destruct (shr_iter_spec p (shr_record_of_loc mx lx)) as [E X].
    { now rewrite shr_m_record_of_loc. }
    rewrite shr_m_record_of_loc in E, X.
    repeat split; try lia; try assumption.
    intros Hl Hmod. apply loc_exact_iff. apply X; [|assumption].
    subst lx. reflexivity.
  - eexists _, _. split; [reflexivity|]. left.
    rewrite shr_m_record_of_loc, loc_of_record_of_loc. repeat split; lia.
Qed.

Lemma round_nearest_even_bounds m l :
  m <= round_nearest_even m l <= m + 1
  /\ (l = loc_Exact -> round_nearest_even m l = m).
Proof.
  destruct l as [|[]]; cbn; try destruct (Z.even m); split; try lia; try congruence; auto.
Qed.

Lemma Zdigits2_bounds m : 0 < m -> 2 ^ (Zdigits2 m - 1) <= m < 2 ^ Zdigits2 m.
Proof.
  destruct m as [|p|p]; try lia. intros _. apply digits2_pos_bounds.
Qed.

Lemma Zdigits2_nonneg m : 0 <= Zdigits2 m.
Proof. destruct m; cbn; lia. Qed.

Section RoundBounds.

(** The bound [K * 2^k] is a binary64 number; [L] is a lower bound of
    every exponent in sight, so that [m * 2^(e - L)] is an integer. *)
Variables (K k L : Z).
Hypothesis HK : 0 < K < 2 ^ 53.
Hypothesis Hk : -1074 <= k.
Hypothesis HLk : L <= k.

Let B := K * 2 ^ (k - L).

Lemma shr_fexp_ge m e l :
  0 < m -> L <= e -> B <= m * 2 ^ (e - L) ->
  exists mrs e',
    shr_fexp prec emax m e l = (mrs, e')
    /\ L <= e' /\ B <= shr_m mrs * 2 ^ (e' - L).
Proof.
  intros Hm He HB.
  destruct (shr_fexp_spec m e l) as (mrs & e' & Eq & H); [lia|].
  exists mrs, e'. split; [exact Eq|].
  destruct H as [(Hn & -> & -> & Hl) | (Hn & -> & Em & _)].
  - repeat split; assumption.
  - set (n := fexp64 (Zdigits2 m + e) - e) in *.
    assert (Hpn : 0 < 2 ^ n) by (apply pow2_pos; lia).
    assert (HpL : 0 < 2 ^ (e - L)) by (apply pow2_pos; lia).
    assert (Hsplit : 2 ^ (e + n - L) = 2 ^ n * 2 ^ (e - L)).
    { rewrite <- Z.pow_add_r by lia. f_equal. lia. }
    split; [lia|].
    rewrite Em, Hsplit.
    destruct (Z_le_gt_dec (e + n) k) as [Hle|Hgt].
    + (* the bound is a multiple of the new unit *)
      assert (HB' : B = K * 2 ^ (k - (e + n)) * (2 ^ n * 2 ^ (e - L))).
      { unfold B. rewrite (pow2_split (e + n) k L) by lia. rewrite Hsplit. ring. }
      assert (0 < 2 ^ (k - (e + n))) by (apply pow2_pos; lia).
      set (Kb := K * 2 ^ (k - (e + n))) in *.
      assert (Kb * 2 ^ n <= m).
      { apply (Z.mul_le_mono_pos_r _ _ (2 ^ (e - L))); [assumption|].
        rewrite <- Z.mul_assoc, <- HB'. exact HB. }
      assert (Kb <= m / 2 ^ n) by (apply Z.div_le_lower_bound; lia).
      rewrite HB'.
      apply Z.mul_le_mono_nonneg_r; [apply Z.mul_nonneg_nonneg; lia | exact H1].
    + (* the mantissa keeps 53 digits, which exceeds the bound *)
      assert (En : n = Zdigits2 m - 53).
      { unfold n in *. rewrite fexp64_eq in *. lia. }
      destruct (Zdigits2_bounds m Hm) as [Hlo _].
      assert (Hd : 2 ^ (Zdigits2 m - 1) = 2 ^ 52 * 2 ^ n).
      { rewrite <- Z.pow_add_r by lia. f_equal. lia. }
      assert (2 ^ 52 <= m / 2 ^ n) by (apply Z.div_le_lower_bound; lia).
      assert (Hk1 : 2 ^ (e + n - L) = 2 ^ (e + n - (k + 1)) * (2 * 2 ^ (k - L))).
      { rewrite <- (Z.pow_succ_r 2) by lia. rewrite <- Z.pow_add_r by lia.
        f_equal. lia. }
      assert (0 < 2 ^ (e + n - (k + 1))) by (apply pow2_pos; lia).
      assert (0 < 2 ^ (k - L)) by (apply pow2_pos; lia).
      rewrite <- Hsplit, Hk1. unfold B.
      change (2 ^ 53) with (2 * 2 ^ 52) in HK.
      nia.
Qed.

(** Rounding never goes below a binary64 number that the exact value
    reaches. *)
Lemma binary_round_aux_ge sx mx ex lx :
  0 < mx -> L <= ex -> B <= mx * 2 ^ (ex - L) ->
  match binary_round_aux prec emax sx mx ex lx with
  | S754_infinity s => s = sx
  | S754_finite s m e => s = sx /\ L <= e /\ B <= Zpos m * 2 ^ (e - L)
  | _ => False
  end.
Proof.
  intros Hm He HB.
  assert (HBpos : 0 < B).
  { unfold B. apply Z.mul_pos_pos; [lia | apply pow2_pos; lia]. }
  unfold binary_round_aux.
  destruct (shr_fexp_ge mx ex lx Hm He HB) as (mrs1 & e1 & -> & He1 & HB1).
  destruct (round_nearest_even_bounds (shr_m mrs1) (loc_of_shr_record mrs1))
    as [[Hr _] _].
  set (m1 := round_nearest_even (shr_m mrs1) (loc_of_shr_record mrs1)) in *.
  assert (Hp1 : 0 < 2 ^ (e1 - L)) by (apply pow2_pos; lia).
  assert (Hm1 : 0 < shr_m mrs1) by nia.
  assert (HB1' : B <= m1 * 2 ^ (e1 - L)) by nia.
  destruct (shr_fexp_ge m1 e1 loc_Exact) as (mrs2 & e2 & -> & He2 & HB2);
    [lia | assumption | assumption |].
  assert (Hp2 : 0 < 2 ^ (e2 - L)) by (apply pow2_pos; lia).
  destruct (shr_m mrs2) as [|m|m] eqn:Em2; try lia.
  destruct (e2 <=? emax - prec); [repeat split; assumption | reflexivity].
Qed.

Hypothesis Hk' : k <= 918.

Lemma binary_round_aux_le sx mx ex lx :
  0 <= mx -> L <= ex ->
  (lx = loc_Exact \/ ex <= k) ->
  mx * 2 ^ (ex - L) <= B ->
  (lx <> loc_Exact -> mx * 2 ^ (ex - L) < B) ->
  match binary_round_aux prec emax sx mx ex lx with
  | S754_zero s => s = sx
  | S754_finite s m e => s = sx /\ L <= e /\ Zpos m * 2 ^ (e - L) <= B
  | _ => False
  end.
Proof.
  intros Hm He Hpre HB HBs.
  assert (HpL : 0 < 2 ^ (ex - L)) by (apply pow2_pos; lia).
  assert (HpK : 0 < 2 ^ (k - L)) by (apply pow2_pos; lia).
  unfold binary_round_aux.
  destruct (shr_fexp_spec mx ex lx Hm) as (mrs1 & e1 & -> & H1).
  set (m1 := round_nearest_even (shr_m mrs1) (loc_of_shr_record mrs1)).
  assert (Hstage1 : 0 <= m1 /\ L <= e1 /\ m1 * 2 ^ (e1 - L) <= B).
  { destruct (round_nearest_even_bounds (shr_m mrs1) (loc_of_shr_record mrs1))
      as [[Hlo Hhi] Hex]. fold m1 in Hlo, Hhi, Hex.
    destruct H1 as [(Hn & -> & Em & El) | (Hn & -> & Em & El)].
    - (* no shift *)
      rewrite Em in *. rewrite El in *.
      split; [lia|]. split; [assumption|].
      destruct lx as [|c] eqn:Elx.
      + rewrite Hex by reflexivity. assumption.
      + destruct Hpre as [Hpre|Hpre]; [discriminate|].
        assert (HBs' : mx * 2 ^ (ex - L) < B) by (apply HBs; discriminate).
        unfold B in *. rewrite (pow2_split ex k L) in * by lia.
        assert (0 < 2 ^ (k - ex)) by (apply pow2_pos; lia).
        assert (mx < K * 2 ^ (k - ex)) by nia.
        nia.
    - (* shift by n bits *)
      set (n := fexp64 (Zdigits2 mx + ex) - ex) in *.
      assert (Hpn : 0 < 2 ^ n) by (apply pow2_pos; lia).
      assert (Hsplit : 2 ^ (ex + n - L) = 2 ^ n * 2 ^ (ex - L)).
      { rewrite <- Z.pow_add_r by lia. f_equal. lia. }
      assert (Hle : ex + n <= k).
      { unfold n in *. rewrite fexp64_eq in *.
        destruct (Z.max_spec (Zdigits2 mx + ex - 53) (-1074)) as [[_ E]|[_ E]];
          rewrite E in *; [lia|].
        destruct (Z.eq_dec mx 0) as [->|Hnz]; [cbn in Hn; lia|].
        destruct (Zdigits2_bounds mx) as [Hd _]; [lia|].
        destruct (Z_le_gt_dec (Zdigits2 mx + ex - 53) k) as [|Hgt]; [lia|exfalso].
        assert (Hpow : 2 ^ (Zdigits2 mx - 1) * 2 ^ (ex - L)
                       = 2 ^ (Zdigits2 mx + ex - 54 - k) * (2 ^ 53 * 2 ^ (k - L))).
        { rewrite <- !Z.pow_add_r by lia. f_equal. lia. }
        assert (0 < 2 ^ (Zdigits2 mx + ex - 54 - k)) by (apply pow2_pos; lia).
        unfold B in HB. nia. }
      assert (0 < 2 ^ (k - (ex + n))) by (apply pow2_pos; lia).
      assert (HB' : B = K * 2 ^ (k - (ex + n)) * (2 ^ n * 2 ^ (ex - L))).
      { unfold B. rewrite (pow2_split (ex + n) k L) by lia. rewrite Hsplit. ring. }
      set (Kb := K * 2 ^ (k - (ex + n))) in *.
      assert (Hdm := Z.div_mod mx (2 ^ n)).
      assert (Hmb := Z.mod_pos_bound mx (2 ^ n) Hpn).
      assert (Hq : 0 <= mx / 2 ^ n) by (apply Z.div_pos; lia).
      assert (HmxKb : mx <= Kb * 2 ^ n).
      { apply (Z.mul_le_mono_pos_r _ _ (2 ^ (ex - L))); [assumption|].
        rewrite <- Z.mul_assoc, <- HB'. exact HB. }
      assert (Hq' : mx / 2 ^ n <= Kb).
      { apply Z.div_le_upper_bound; lia. }
      assert (Hm1 : m1 <= Kb).
      { destruct (Z.eq_dec (mx / 2 ^ n) Kb) as [Heq|Hne]; [|rewrite Em in *; lia].
        (* then the shift is exact, and so is the rounding *)
        assert (Hmod : mx mod 2 ^ n = 0) by nia.
        assert (Hlx : lx = loc_Exact).
        { destruct lx as [|c]; [reflexivity|exfalso].
          assert (HBs' : mx * 2 ^ (ex - L) < B) by (apply HBs; discriminate).
          rewrite HB' in HBs'. nia. }
        rewrite Hex by (apply El; assumption). rewrite Em. lia. }
      rewrite Em in *.
      split; [lia|]. split; [lia|].
      rewrite HB', Hsplit.
      apply Z.mul_le_mono_nonneg_r; [apply Z.mul_nonneg_nonneg; lia | exact Hm1]. }
  destruct Hstage1 as (Hm1 & He1 & HB1).
  destruct (shr_fexp_spec m1 e1 loc_Exact Hm1) as (mrs2 & e2 & -> & H2).
  assert (Hp1 : 0 < 2 ^ (e1 - L)) by (apply pow2_pos; lia).
  assert (Hstage2 : 0 <= shr_m mrs2 /\ L <= e2 /\ shr_m mrs2 * 2 ^ (e2 - L) <= B).
  { destruct H2 as [(Hn & -> & Em & _) | (Hn & -> & Em & _)].
    - rewrite Em. repeat split; assumption.
    - set (n := fexp64 (Zdigits2 m1 + e1) - e1) in *.
      assert (Hpn : 0 < 2 ^ n) by (apply pow2_pos; lia).
      assert (Hsplit : 2 ^ (e1 + n - L) = 2 ^ n * 2 ^ (e1 - L)).
      { rewrite <- Z.pow_add_r by lia. f_equal. lia. }
      assert (Hdm := Z.div_mod m1 (2 ^ n)).
      assert (Hmb := Z.mod_pos_bound m1 (2 ^ n) Hpn).
      assert (Hq : 0 <= m1 / 2 ^ n) by (apply Z.div_pos; lia).
      rewrite Em, Hsplit. split; [assumption|]. split; [lia|].
      assert (m1 / 2 ^ n * 2 ^ n <= m1) by nia.
      nia. }
  destruct Hstage2 as (Hm2 & He2 & HB2).
  destruct (shr_m mrs2) as [|m|m] eqn:Em2; [reflexivity | | lia].
  assert (Hp2 : 0 < 2 ^ (e2 - L)) by (apply pow2_pos; lia).
  assert (He2' : e2 <= emax - prec).
  { change (emax - prec) with 971.
    destruct (Z_le_gt_dec e2 971) as [|Hgt]; [assumption|exfalso].
    assert (Hpow : 2 ^ (e2 - L) = 2 ^ (e2 - k - 53) * (2 ^ 53 * 2 ^ (k - L))).
    { rewrite <- !Z.pow_add_r by lia. f_equal. lia. }
    assert (0 < 2 ^ (e2 - k - 53)) by (apply pow2_pos; lia).
    unfold B in HB2. nia. }
  apply Z.leb_le in He2'. rewrite He2'. repeat split; assumption.
Qed.

End RoundBounds.

(** ** From rounding to the operations *)

Lemma shl_align_spec mx ex ez :
  (ez <= ex ->
   snd (shl_align mx ex ez) = ez
   /\ Zpos (fst (shl_align mx ex ez)) = Zpos mx * 2 ^ (ex - ez))
  /\ (ex <= ez -> shl_align mx ex ez = (mx, ex)).
Proof.
  unfold shl_align. destruct (ez - ex) as [|d|d] eqn:E; cbn [fst snd].
  - assert (ex = ez) by lia. subst. rewrite Z.sub_diag, Z.mul_1_r.
    split; [intros _; split|]; reflexivity.
  - split; [lia | reflexivity].
  - split; [|lia]. intros _. split; [reflexivity|].
    replace (ex - ez) with (Zpos d) by lia.
    change (Pos.iter xO mx d) with (shift_pos d mx).
    rewrite shift_pos_correct. rewrite Z.mul_comm. reflexivity.
Qed.

Lemma binary_round_aux_sign sx mx ex lx :
  match binary_round_aux prec emax sx mx ex lx with
  | S754_nan => True
  | S754_zero s | S754_infinity s | S754_finite s _ _ => s = sx
  end.
Proof.
  unfold binary_round_aux.
  destruct (shr_fexp prec emax mx ex lx) as [mrs1 e1].
  destruct (shr_fexp prec emax _ e1 loc_Exact) as [mrs2 e2].
  destruct (shr_m mrs2); [reflexivity | | exact I].
  destruct (e2 <=? emax - prec); reflexivity.
Qed.

Lemma binary_round_sign sx mx ex :
  match binary_round prec emax sx mx ex with
  | S754_nan => True
  | S754_zero s | S754_infinity s | S754_finite s _ _ => s = sx
  end.
Proof.
  unfold binary_round. destruct (shl_align mx ex _) as [mz ez].
  apply binary_round_aux_sign.
Qed.

Section RoundWrappers.

Variables (K k : Z).
Hypothesis HK : 0 < K < 2 ^ 53.
Hypothesis Hk : -1074 <= k.

Let B := K * 2 ^ (k - L64).

Lemma binary_round_value mx ex :
  L64 <= ex ->
  exists mz ez,
    shl_align mx ex (fexp64 (Zpos (digits2_pos mx) + ex)) = (mz, ez)
    /\ L64 <= ez /\ Zpos mz * 2 ^ (ez - L64) = Zpos mx * 2 ^ (ex - L64).
Proof.
  intros He.
  set (t := fexp64 (Zpos (digits2_pos mx) + ex)).
  assert (Ht : L64 <= t) by (unfold t, L64; rewrite fexp64_eq; lia).
  destruct (shl_align_spec mx ex t) as [H1 H2].
  destruct (Z_le_gt_dec t ex) as [Hle|Hgt].
  - destruct (H1 Hle) as [Es Ef].
    destruct (shl_align mx ex t) as [mz ez]. cbn [fst snd] in *. subst ez.
    exists mz, t. split; [reflexivity|]. split; [assumption|].
    rewrite Ef, <- Z.mul_assoc, <- Z.pow_add_r by lia. do 2 f_equal. lia.
  - rewrite H2 by lia. exists mx, ex. repeat split; assumption.
Qed.

Lemma binary_round_ge sx mx ex :
  L64 <= ex -> B <= Zpos mx * 2 ^ (ex - L64) ->
  match binary_round prec emax sx mx ex with
  | S754_infinity s => s = sx
  | S754_finite s m e => s = sx /\ L64 <= e /\ B <= Zpos m * 2 ^ (e - L64)
  | _ => False
  end.
Proof.
  intros He HB. unfold binary_round.
  destruct (binary_round_value mx ex He) as (mz & ez & -> & Hez & Hv).
  apply (binary_round_aux_ge K k L64); try assumption; try lia.
Qed.

Hypothesis Hk' : k <= 918.

Lemma binary_round_le sx mx ex :
  L64 <= ex -> Zpos mx * 2 ^ (ex - L64) <= B ->
  match binary_round prec emax sx mx ex with
  | S754_zero s => s = sx
  | S754_finite s m e => s = sx /\ L64 <= e /\ Zpos m * 2 ^ (e - L64) <= B
  | _ => False
  end.
Proof.
  intros He HB. unfold binary_round.
  destruct (binary_round_value mx ex He) as (mz & ez & -> & Hez & Hv).
  apply (binary_round_aux_le K k L64); try assumption; try lia.
  - left; reflexivity.
  - intros H; now elim H.
Qed.

End RoundWrappers.

Lemma Prim2SF_0 : Prim2SF 0 = SF0.
Proof. reflexivity. Qed.
Lemma Prim2SF_1 : Prim2SF 1 = SF1.
Proof. reflexivity. Qed.
Lemma Prim2SF_100 : Prim2SF 100 = SF100.
Proof. reflexivity. Qed.

Lemma valid_exponent s m e :
  valid_binary (S754_finite s m e) = true -> -1074 <= e <= 971.
Proof.
  cbn. unfold bounded, canonical_mantissa. rewrite andb_true_iff.
  intros [H1 H2]. apply Z.eqb_eq in H1. apply Z.leb_le in H2.
  rewrite fexp64_eq in H1. change (emax - prec) with 971 in H2. lia.
Qed.

Lemma SFadd_one_ge1 x :
  valid_binary x = true -> SFnonneg x -> SFge1 (SF64add SF1 x).
Proof.
  intros Hv Hx. destruct x as [s|s|  |s m e]; cbn in Hx; subst; cbn.
  - unfold L64. repeat split; lia.
  - reflexivity.
  - exact I.
  - apply valid_exponent in Hv.
    unfold SF64add, SF1, SFadd. cbn [cond_Zopp].
    set (ez := Z.min (-52) e).
    destruct (shl_align_spec 4503599627370496 (-52) ez) as [[_ E1] _]; [lia|].
    destruct (shl_align_spec m e ez) as [[_ E2] _]; [lia|].
    set (a := fst (shl_align 4503599627370496 (-52) ez)) in *.
    set (b := fst (shl_align m e ez)) in *.
    change (Z.pos a + Z.pos b) with (Z.pos (a + b)). cbn [binary_normalize].
    assert (H := binary_round_ge (2 ^ 52) (-52) ltac:(lia) ltac:(lia) false (a + b) ez).
    assert (Hez : L64 <= ez) by (unfold L64; lia).
    specialize (H Hez).
    assert (Hp : 0 < 2 ^ (ez - L64)) by (apply pow2_pos; lia).
    assert (Hs : 2 ^ (-52 - L64) = 2 ^ (-52 - ez) * 2 ^ (ez - L64)).
    { rewrite <- Z.pow_add_r by lia. f_equal. lia. }
    assert (Hb : 2 ^ 52 * 2 ^ (-52 - L64) <= Z.pos (a + b) * 2 ^ (ez - L64)).
    { rewrite Pos2Z.inj_add, E1, Hs.
      change (Z.pos 4503599627370496) with (2 ^ 52). nia. }
    specialize (H Hb).
    destruct (binary_round prec emax false (a + b) ez); try assumption; try contradiction.
Qed.

Lemma SFle100_self : SFle100 SF100.
Proof. cbn. unfold L64. repeat split; lia. Qed.

Lemma new_location_exact n : new_location n 0 = loc_Exact.
Proof.
  unfold new_location, new_location_even, new_location_odd.
  destruct (Z.even n); reflexivity.
Qed.

Lemma SFdiv_100_le100 y :
  valid_binary y = true -> SFge1 y -> SFle100 (SF64div SF100 y).
Proof.
  intros Hv Hy. destruct y as [s|s|  |s my ey]; unfold SFge1 in Hy; try contradiction.
  - subst. reflexivity.
  - exact I.
  - destruct Hy as (-> & HeL & Hge). apply valid_exponent in Hv.
    unfold SF64div, SF100, SFdiv, SFdiv_core_binary.
    change (Zdigits2 (Z.pos 7036874417766400)) with 53.
    cbn [Zdigits2 xorb].
    set (d2 := Z.pos (digits2_pos my)).
    set (e' := Z.min (fexp64 (53 + -46 - (d2 + ey))) (-46 - ey)).
    set (s := -46 - ey - e').
    destruct (digits2_pos_bounds my) as [_ Hd2]. fold d2 in Hd2.
    unfold L64 in *.
    assert (HT : 2 ^ 52 * 2 ^ (-52 - -1074) = 2 ^ 1074) by reflexivity.
    rewrite HT in Hge.
    assert (HY : 0 < 2 ^ (ey - -1074)) by (apply pow2_pos; lia).
    assert (Hd : 0 < d2 + ey).
    { assert (Hlt : 2 ^ 1074 < 2 ^ (d2 + (ey - -1074))).
      { rewrite Z.pow_add_r by lia. nia. }
      apply Z.pow_lt_mono_r_iff in Hlt; lia. }
    assert (He'1 : e' <= -46).
    { unfold e'. rewrite fexp64_eq. lia. }
    assert (He'2 : -1074 <= e').
    { unfold e'. rewrite fexp64_eq. lia. }
    assert (Hs : 0 <= s) by (unfold s, e'; lia).
    set (m' := match s with
               | 0 => Z.pos 7036874417766400
               | Z.pos _ => Z.shiftl (Z.pos 7036874417766400) s
               | Z.neg _ => 0
               end).
    assert (Hm' : m' = 7036874417766400 * 2 ^ s).
    { subst m'. destruct s as [|p|p] eqn:Es.
      - reflexivity.
      - rewrite Z.shiftl_mul_pow2 by lia. reflexivity.
      - lia. }
    assert (Hdm := Z_div_mod m' (Z.pos my) ltac:(lia)).
    destruct (Z.div_eucl m' (Z.pos my)) as [q r]. destruct Hdm as [Hdm Hr].
    assert (HS : 0 < 2 ^ s) by (apply pow2_pos; lia).
    assert (HE : 0 < 2 ^ (e' - -1074)) by (apply pow2_pos; lia).
    assert (Hq : 0 <= q) by nia.
    assert (Hid : 2 ^ s * 2 ^ (e' - -1074) * 2 ^ (ey - -1074)
                  = 2 ^ (-46 - -1074) * 2 ^ 1074).
    { rewrite <- !Z.pow_add_r by lia. f_equal. unfold s. lia. }
    set (T := 2 ^ 1074) in *. set (Y := 2 ^ (ey - -1074)) in *.
    set (E := 2 ^ (e' - -1074)) in *. set (S := 2 ^ s) in *.
    set (C := 2 ^ (-46 - -1074)) in *.
    assert (HTpos : 0 < T) by (unfold T; apply pow2_pos; lia).
    assert (Hchain : q * E * T + r * E * Y <= 7036874417766400 * C * T).
    { assert (q * E * T <= q * E * (Z.pos my * Y)).
      { apply Z.mul_le_mono_nonneg_l; [nia | exact Hge]. }
      assert (Z.pos my * q * (E * Y) + r * (E * Y) = 7036874417766400 * (S * E * Y)).
      { rewrite Hm' in Hdm. fold S in Hdm.
        replace (7036874417766400 * (S * E * Y))
          with ((7036874417766400 * S) * (E * Y)) by ring.
        rewrite Hdm. ring. }
      rewrite Hid in *. nia. }
    assert (HEY : 0 < E * Y) by nia.
    assert (Hmain := binary_round_aux_le 7036874417766400 (-46) (-1074)
                       ltac:(lia) ltac:(lia) ltac:(lia) ltac:(lia)
                       false q e' (new_location (Z.pos my) r) Hq He'2).
    fold C in Hmain.
    assert (Hle : q * E <= 7036874417766400 * C).
    { apply (Z.mul_le_mono_pos_r _ _ T); [assumption|]. nia. }
    assert (Hlt : new_location (Z.pos my) r <> loc_Exact -> q * E < 7036874417766400 * C).
    { intros Hne. assert (Hr0 : 0 < r).
      { destruct (Z.eq_dec r 0) as [->|]; [|lia].
        rewrite new_location_exact in Hne. now elim Hne. }
      apply (Z.mul_lt_mono_pos_r T); [assumption|]. nia. }
    specialize (Hmain (or_intror He'1) Hle Hlt).
    destruct (binary_round_aux prec emax false q e' (new_location (Z.pos my) r));
      try contradiction; assumption.
Qed.

Lemma SFsub_100_le100 q : SFle100 q -> SFle100 (SF64sub SF100 q).
Proof.
  intros Hq. destruct q as [s|s|  |s m e]; unfold SFle100 in Hq; try contradiction.
  - subst. apply SFle100_self.
  - exact I.
  - destruct Hq as (-> & HeL & Hle).
    unfold SF64sub, SF100, SFsub. cbn [cond_Zopp].
    set (ez := Z.min (-46) e).
    destruct (shl_align_spec 7036874417766400 (-46) ez) as [[_ E1] _]; [lia|].
    destruct (shl_align_spec m e ez) as [[_ E2] _]; [lia|].
    set (a := fst (shl_align 7036874417766400 (-46) ez)) in *.
    set (b := fst (shl_align m e ez)) in *.
    unfold L64 in *.
    assert (Hp : 0 < 2 ^ (ez - -1074)) by (apply pow2_pos; lia).
    assert (Ha : Z.pos a * 2 ^ (ez - -1074) = 7036874417766400 * 2 ^ (-46 - -1074)).
    { rewrite E1, <- Z.mul_assoc, <- Z.pow_add_r by lia. do 2 f_equal. lia. }
    assert (Hb : Z.pos b * 2 ^ (ez - -1074) = Z.pos m * 2 ^ (e - -1074)).
    { rewrite E2, <- Z.mul_assoc, <- Z.pow_add_r by lia. do 2 f_equal. lia. }
    assert (Hba : Z.pos b <= Z.pos a) by nia.
    destruct (Z.pos a - Z.pos b) as [|D|D] eqn:ED; cbn [binary_normalize]; try lia.
    + reflexivity.
    + assert (H := binary_round_le 7036874417766400 (-46) ltac:(lia) ltac:(lia) ltac:(lia)
                     false D ez).
      unfold L64 in H. specialize (H ltac:(lia)).
      assert (HD : Z.pos D * 2 ^ (ez - -1074) <= 7036874417766400 * 2 ^ (-46 - -1074)).
      { rewrite <- ED, <- Ha. nia. }
      specialize (H HD).
      destruct (binary_round prec emax false D ez); try contradiction; assumption.
Qed.

End Rounding64.

(** ** Every rounded result is a binary64 number *)

Section Valid64.

Local Open Scope Z_scope.

Lemma Zdigits2_unique m k :
  0 < m -> 2 ^ (k - 1) <= m < 2 ^ k -> Zdigits2 m = k.
Proof.
  intros Hm [Hlo Hhi].
  destruct (Zdigits2_bounds m Hm) as [Dlo Dhi].
  assert (Hd := Zdigits2_nonneg m).
  destruct (Z.lt_trichotomy (Zdigits2 m) k) as [H | [H | H]]; [exfalso | exact H | exfalso].
  - assert (2 ^ Zdigits2 m <= 2 ^ (k - 1)) by (apply Z.pow_le_mono_r; lia). lia.
  - assert (2 ^ k <= 2 ^ (Zdigits2 m - 1)) by (apply Z.pow_le_mono_r; lia). lia.
Qed.

Lemma Zdigits2_pos m : 0 < m -> 0 < Zdigits2 m.
Proof. destruct m; cbn; lia. Qed.

Lemma Zdigits2_mono a b : 0 < a -> a <= b -> Zdigits2 a <= Zdigits2 b.
Proof.
  intros Ha Hab.
  destruct (Zdigits2_bounds a Ha) as [Alo _].
  destruct (Zdigits2_bounds b ltac:(lia)) as [_ Bhi].
  assert (Hb := Zdigits2_pos b ltac:(lia)).
  destruct (Z_le_gt_dec (Zdigits2 a) (Zdigits2 b)) as [|Hgt]; [assumption | exfalso].
  assert (2 ^ Zdigits2 b <= 2 ^ (Zdigits2 a - 1)) by (apply Z.pow_le_mono_r; lia).
  lia.
Qed.

Lemma Zdigits2_shift_right m n :
  0 < m -> 0 <= n < Zdigits2 m -> Zdigits2 (m / 2 ^ n) = Zdigits2 m - n.
Proof.
  intros Hm Hn.
  destruct (Zdigits2_bounds m Hm) as [Dlo Dhi].
  assert (Hp : 0 < 2 ^ n) by (apply pow2_pos; lia).
  assert (E1 : 2 ^ (Zdigits2 m - 1) = 2 ^ (Zdigits2 m - n - 1) * 2 ^ n).
  { rewrite <- Z.pow_add_r by lia. f_equal. lia. }
  assert (E2 : 2 ^ Zdigits2 m = 2 ^ (Zdigits2 m - n) * 2 ^ n).
  { rewrite <- Z.pow_add_r by lia. f_equal. lia. }
  assert (Hlo : 2 ^ (Zdigits2 m - n - 1) <= m / 2 ^ n).
  { apply Z.div_le_lower_bound; lia. }
  assert (Hhi : m / 2 ^ n < 2 ^ (Zdigits2 m - n)).
  { apply Z.div_lt_upper_bound; lia. }
  assert (0 < 2 ^ (Zdigits2 m - n - 1)) by (apply pow2_pos; lia).
  apply Zdigits2_unique; [lia|].
  replace (Zdigits2 m - n - 1) with (Zdigits2 m - n - 1) by lia. lia.
Qed.

Lemma Zdigits2_shift_left m k :
  0 < m -> 0 <= k -> Zdigits2 (m * 2 ^ k) = Zdigits2 m + k.
Proof.
  intros Hm Hk.
  destruct (Zdigits2_bounds m Hm) as [Dlo Dhi].
  assert (Hd := Zdigits2_pos m Hm).
  assert (Hp : 0 < 2 ^ k) by (apply pow2_pos; lia).
  apply Zdigits2_unique; [nia|].
  replace (Zdigits2 m + k - 1) with ((Zdigits2 m - 1) + k) by lia.
  rewrite !Z.pow_add_r by lia. nia.
Qed.

Lemma shift_out m n : 0 <= m -> Zdigits2 m <= n -> m / 2 ^ n = 0.
Proof.
  intros Hm Hn. destruct (Z.eq_dec m 0) as [->|Hne].
  { cbn [Zdigits2] in Hn. apply Z.div_0_l. apply Z.pow_nonzero; lia. }
  destruct (Zdigits2_bounds m ltac:(lia)) as [_ Dhi].
  assert (Hd := Zdigits2_pos m ltac:(lia)).
  apply Z.div_small. split; [lia|].
  assert (2 ^ Zdigits2 m <= 2 ^ n) by (apply Z.pow_le_mono_r; lia). lia.
Qed.

Lemma shr_fexp_settled m e l :
  0 <= m -> e <= fexp64 (Zdigits2 m + e) ->
  exists mrs e', shr_fexp prec emax m e l = (mrs, e') /\ settled (shr_m mrs) e'.
Proof.
  intros Hm He.
  destruct (shr_fexp_spec m e l Hm) as (mrs & e' & Eq & H).
  exists mrs, e'. split; [exact Eq|].
  assert (Hd := Zdigits2_nonneg m).
  set (n := fexp64 (Zdigits2 m + e) - e) in *.
  destruct H as [(Hn & -> & -> & _) | (Hn & -> & -> & _)].
  - assert (En : fexp64 (Zdigits2 m + e) = e) by lia.
    destruct (Z.eq_dec m 0) as [->|Hne].
    + right. split; [reflexivity|]. cbn [Zdigits2] in En. rewrite fexp64_eq in En. lia.
    + left. split; [lia | exact En].
  - destruct (Z_lt_le_dec n (Zdigits2 m)) as [Hlt|Hge].
    + left. assert (Hm0 : 0 < m).
      { destruct (Z.eq_dec m 0) as [->|]; [cbn in Hlt; lia | lia]. }
      rewrite (Zdigits2_shift_right m n Hm0) by lia.
      assert (Hp : 0 < 2 ^ n) by (apply pow2_pos; lia).
      destruct (Zdigits2_bounds m Hm0) as [Dlo _].
      assert (2 ^ n <= m).
      { assert (2 ^ n <= 2 ^ (Zdigits2 m - 1)) by (apply Z.pow_le_mono_r; lia). lia. }
      split.
      * apply Z.div_str_pos. lia.
      * replace (Zdigits2 m - n + (e + n)) with (Zdigits2 m + e) by lia. unfold n. lia.
    + right. split; [apply shift_out; assumption|].
      unfold n in *. rewrite fexp64_eq in *. lia.
Qed.

(** The result of rounding a non-negative mantissa that has digits
    enough is valid: canonical and in range, a zero, or an infinity. *)
Lemma binary_round_aux_valid sx mx ex lx :
  0 <= mx -> ex <= fexp64 (Zdigits2 mx + ex) ->
  valid_binary (binary_round_aux prec emax sx mx ex lx) = true.
Proof.
  intros Hm He. unfold binary_round_aux.
  destruct (shr_fexp_settled mx ex lx Hm He) as (mrs1 & e1 & -> & H1).
  set (m1 := shr_m mrs1) in *.
  destruct (round_nearest_even_bounds m1 (loc_of_shr_record mrs1)) as [[Hlo Hhi] _].
  set (m2 := round_nearest_even m1 (loc_of_shr_record mrs1)) in *.
  assert (Hm1 : 0 <= m1) by (destruct H1 as [[? _] | [-> _]]; lia).
  assert (He1 : e1 <= fexp64 (Zdigits2 m2 + e1)).
  { destruct H1 as [[Hpos Hc] | [_ ->]].
    - assert (Hmono := Zdigits2_mono m1 m2 Hpos Hlo).
      rewrite fexp64_eq in *. lia.
    - rewrite fexp64_eq. lia. }
  destruct (shr_fexp_settled m2 e1 loc_Exact ltac:(lia) He1) as (mrs3 & e3 & -> & H3).
  destruct H3 as [[Hpos Hc] | [-> _]]; [|reflexivity].
  destruct (shr_m mrs3) as [|m|m] eqn:Em; try lia.
  destruct (Z.leb_spec e3 (emax - prec)) as [Hle|Hgt]; [|reflexivity].
  cbn [valid_binary]. unfold bounded, canonical_mantissa.
  cbn [Zdigits2] in Hc. rewrite Hc, Z.eqb_refl. cbn [andb].
  apply Z.leb_le. exact Hle.
Qed.

Lemma binary_round_valid sx mx ex :
  valid_binary (binary_round prec emax sx mx ex) = true.
Proof.
  unfold binary_round.
  set (t := fexp64 (Zpos (digits2_pos mx) + ex)).
  destruct (shl_align_spec mx ex t) as [H1 H2].
  destruct (Z_le_gt_dec t ex) as [Hle|Hgt].
  - destruct (H1 Hle) as [Es Ef].
    destruct (shl_align mx ex t) as [mz ez]. cbn [fst snd] in *. subst ez.
    apply binary_round_aux_valid; [lia|].
    rewrite Ef.
    change (Z.pos mx) with (Z.pos mx) in *.
    rewrite (Zdigits2_shift_left (Z.pos mx) (ex - t)) by lia.
    cbn [Zdigits2].
    replace (Z.pos (digits2_pos mx) + (ex - t) + t) with (Z.pos (digits2_pos mx) + ex) by lia.
    fold t. lia.
  - rewrite H2 by lia.
    apply binary_round_aux_valid; [lia|]. cbn [Zdigits2]. fold t. lia.
Qed.

Lemma binary_normalize_valid m e :
  valid_binary (binary_normalize prec emax m e false) = true.
Proof. destruct m; cbn [binary_normalize]; [reflexivity | apply binary_round_valid ..]. Qed.

(** The quotient of two finite numbers, whatever their mantissas. *)
Lemma SFdiv_finite_valid sx mx ex sy my ey :
  valid_binary (SF64div (S754_finite sx mx ex) (S754_finite sy my ey)) = true.
Proof.
  unfold SF64div, SFdiv, SFdiv_core_binary.
  cbn [Zdigits2].
  set (d1 := Z.pos (digits2_pos mx)). set (d2 := Z.pos (digits2_pos my)).
  set (X := d1 + ex - (d2 + ey)).
  set (e' := Z.min (fexp64 X) (ex - ey)).
  set (s := ex - ey - e').
  assert (Hs : 0 <= s) by (unfold s, e'; lia).
  set (m' := match s with
             | 0 => Z.pos mx
             | Z.pos _ => Z.shiftl (Z.pos mx) s
             | Z.neg _ => 0
             end).
  assert (Hm' : m' = Z.pos mx * 2 ^ s).
  { subst m'. destruct s as [|p|p] eqn:Es.
    - rewrite Z.mul_1_r. reflexivity.
    - rewrite Z.shiftl_mul_pow2 by lia. reflexivity.
    - lia. }
  assert (Hdm := Z_div_mod m' (Z.pos my) ltac:(lia)).
  destruct (Z.div_eucl m' (Z.pos my)) as [q r]. destruct Hdm as [Hdm Hr].
  assert (HS : 0 < 2 ^ s) by (apply pow2_pos; lia).
  assert (Hq : 0 <= q) by nia.
  apply binary_round_aux_valid; [exact Hq|].
  destruct (digits2_pos_bounds mx) as [X1lo X1hi]. fold d1 in X1lo, X1hi.
  destruct (digits2_pos_bounds my) as [X2lo X2hi]. fold d2 in X2lo, X2hi.
  assert (Hd1 : 0 < d1) by (unfold d1; lia).
  assert (Hd2 : 0 < d2) by (unfold d2; lia).
  assert (Hlow : 2 ^ (d1 - 1 + s) <= m').
  { rewrite Hm', Z.pow_add_r by lia. nia. }
  assert (He'X : e' <= fexp64 X) by (unfold e'; lia).
  destruct (Z.eq_dec q 0) as [->|Hq0].
  - cbn [Zdigits2].
    assert (Hlt : 2 ^ (d1 - 1 + s) < 2 ^ d2) by lia.
    apply Z.pow_lt_mono_r_iff in Hlt; try lia.
    assert (X <= e') by (unfold X, s in *; lia).
    rewrite fexp64_eq in *. lia.
  - assert (Hqpos : 0 < q) by lia.
    destruct (Zdigits2_bounds q Hqpos) as [_ Qhi].
    assert (Hdq := Zdigits2_pos q Hqpos).
    assert (Hlt : 2 ^ (d1 - 1 + s) < 2 ^ (d2 + Zdigits2 q)).
    { rewrite (Z.pow_add_r 2 d2) by lia.
      assert (0 < 2 ^ d2) by (apply pow2_pos; lia). nia. }
    apply Z.pow_lt_mono_r_iff in Hlt; try lia.
    assert (X <= Zdigits2 q + e') by (unfold X, s in *; lia).
    rewrite fexp64_eq in *. lia.
Qed.

End Valid64.

(** ** The operations of the RSI formula *)

Section Formula64.

Local Open Scope Z_scope.

Lemma SFnonneg_add x y :
  SFnonneg x -> SFnonneg y -> SFnonneg (SF64add x y).
Proof.
  intros Hx Hy.
  destruct x as [sx|sx| |sx mx ex], y as [sy|sy| |sy my ey];
    cbn in Hx, Hy; subst; try exact I; try reflexivity.
  unfold SF64add, SFadd. cbn [cond_Zopp].
  set (ez := Z.min ex ey).
  change (Z.pos (fst (shl_align mx ex ez)) + Z.pos (fst (shl_align my ey ez)))
    with (Z.pos (fst (shl_align mx ex ez) + fst (shl_align my ey ez))).
  cbn [binary_normalize].
  assert (H := binary_round_sign false (fst (shl_align mx ex ez) + fst (shl_align my ey ez)) ez).
  destruct (binary_round prec emax false _ ez); exact H.
Qed.

Lemma SFnonneg_mul x y :
  SFnonneg x -> SFnonneg y -> SFnonneg (SF64mul x y).
Proof.
  intros Hx Hy.
  destruct x as [sx|sx| |sx mx ex], y as [sy|sy| |sy my ey];
    cbn in Hx, Hy; subst; try exact I; try reflexivity.
  unfold SF64mul, SFmul. cbn [xorb].
  assert (H := binary_round_aux_sign false (Z.pos (mx * my)) (ex + ey) loc_Exact).
  destruct (binary_round_aux prec emax false _ _ _); exact H.
Qed.

Lemma SFnonneg_div x y :
  SFnonneg x -> SFnonneg y -> SFnonneg (SF64div x y).
Proof.
  intros Hx Hy.
  destruct x as [sx|sx| |sx mx ex], y as [sy|sy| |sy my ey];
    cbn in Hx, Hy; subst; try exact I; try reflexivity.
  unfold SF64div, SFdiv. cbn [xorb].
  destruct (SFdiv_core_binary prec emax (Z.pos mx) ex (Z.pos my) ey) as [[mz ez] lz].
  assert (H := binary_round_aux_sign false mz ez lz).
  destruct (binary_round_aux prec emax false mz ez lz); exact H.
Qed.

Lemma SFnonneg_abs x : SFnonneg (SFabs x).
Proof. destruct x; cbn; auto. Qed.

Lemma SFltb_zero_nonneg x : SFltb SF0 x = true -> SFnonneg x.
Proof.
  destruct x as [s|s| |s m e]; cbn; try discriminate; destruct s; try discriminate; reflexivity.
Qed.

Lemma SFge1_not_zero y : SFge1 y -> SFeqb y SF0 = false.
Proof.
  destruct y as [s|s| |s m e]; cbn; try contradiction; try reflexivity.
  - intros ->. reflexivity.
  - intros (-> & _). reflexivity.
Qed.

Lemma div_half_even_le n d c :
  0 < d -> 0 <= n <= c * d -> 0 <= div_half_even n d <= c.
Proof.
  intros Hd Hn. unfold div_half_even.
  assert (Hdm := Z.div_mod n d ltac:(lia)).
  assert (Hr := Z.mod_pos_bound n d Hd).
  assert (Hq0 : 0 <= n / d) by (apply Z.div_pos; lia).
  assert (Hqc : n / d <= c) by (apply Z.div_le_upper_bound; lia).
  destruct (Z.eq_dec (n / d) c) as [E|E].
  - assert (Hz : n mod d = 0) by nia.
    rewrite Hz. destruct (Z.compare_spec (2 * 0) d); lia.
  - destruct (2 * (n mod d) ?= d); [destruct (Z.even (n / d))| |]; lia.
Qed.

Lemma hundredths_le m e :
  L64 <= e ->
  Zpos m * 2 ^ (e - L64) <= 7036874417766400 * 2 ^ (-46 - L64) ->
  0 <= hundredths m e <= 10000.
Proof.
  unfold L64. intros He H.
  change (7036874417766400 * 2 ^ (-46 - -1074)) with (100 * 2 ^ 1074) in H.
  destruct e as [|p|p]; unfold hundredths.
  - change (2 ^ (0 - -1074)) with (2 ^ 1074) in H.
    assert (0 < 2 ^ 1074) by (apply pow2_pos; lia).
    set (T := 2 ^ 1074) in *. nia.
  - replace (Z.pos p - -1074) with (Z.pos p + 1074) in H by lia.
    rewrite Z.pow_add_r in H by lia.
    assert (0 < 2 ^ 1074) by (apply pow2_pos; lia).
    assert (0 < 2 ^ Z.pos p) by (apply pow2_pos; lia).
    set (T := 2 ^ 1074) in *. set (E := 2 ^ Z.pos p) in *. nia.
  - change (Z.pow_pos 2 p) with (2 ^ Z.pos p).
    assert (HT : 2 ^ 1074 = 2 ^ Z.pos p * 2 ^ (Z.neg p - -1074)).
    { rewrite <- Z.pow_add_r by lia. f_equal. lia. }
    assert (0 < 2 ^ (Z.neg p - -1074)) by (apply pow2_pos; lia).
    assert (0 < 2 ^ Z.pos p) by (apply pow2_pos; lia).
    rewrite HT in H.
    set (E := 2 ^ Z.pos p) in *. set (F := 2 ^ (Z.neg p - -1074)) in *.
    apply div_half_even_le; [assumption|]. nia.
Qed.

Lemma in_pos_upto n h : (h <= n)%positive -> In h (pos_upto n).
Proof.
  unfold pos_upto. revert h. induction n as [|n IH] using Pos.peano_ind; intros h Hh.
  - left. lia.
  - rewrite Pos.peano_rect_succ.
    destruct (Pos.eq_dec h (Pos.succ n)) as [->|Hne]; [now left|].
    right. apply IH. lia.
Qed.

Lemma hundredth_ok_table : forallb hundredth_ok (pos_upto 10000) = true.
Proof. vm_compute. reflexivity. Qed.

Lemma hundredth_ok_le h : Zpos h <= 10000 -> hundredth_ok h = true.
Proof.
  intros Hh.
  apply (proj1 (forallb_forall _ _) hundredth_ok_table h).
  apply in_pos_upto. lia.
Qed.

End Formula64.

Lemma in_range_nan : in_range nan.
Proof. left. reflexivity. Qed.

Lemma round2_in_range x : SFle100 (Prim2SF x) -> in_range (round2 x).
Proof.
  unfold round2. destruct (Prim2SF x) as [s|s| |s m e]; cbn [SFle100 SFround2].
  - intros ->. right. split; reflexivity.
  - contradiction.
  - intros _. left. reflexivity.
  - intros (-> & He & Hle).
    destruct (hundredths_le m e He Hle) as [H0 H1].
    destruct (hundredths m e) as [|h|h]; try lia.
    + right. split; reflexivity.
    + assert (Hok := hundredth_ok_le h H1). unfold hundredth_ok in Hok.
      apply andb_prop in Hok as [Hok H3]. apply andb_prop in Hok as [Hv H2].
      right. rewrite !leb_spec, Prim2SF_SF2Prim by exact Hv. split; assumption.
Qed.

Lemma nonneg_zero : nonneg 0.
Proof. reflexivity. Qed.

Lemma nonneg_add x y : nonneg x -> nonneg y -> nonneg (x + y).
Proof. unfold nonneg. rewrite add_spec. apply SFnonneg_add. Qed.

Lemma nonneg_mul x y : nonneg x -> nonneg y -> nonneg (x * y).
Proof. unfold nonneg. rewrite mul_spec. apply SFnonneg_mul. Qed.

Lemma nonneg_div x y : nonneg x -> nonneg y -> nonneg (x / y).
Proof. unfold nonneg. rewrite div_spec. apply SFnonneg_div. Qed.

Lemma nonneg_gain d : nonneg (gain_of d).
Proof.
  unfold gain_of. destruct (0 <? d)%float eqn:E; [|apply nonneg_zero].
  rewrite ltb_spec in E. apply SFltb_zero_nonneg. exact E.
Qed.

Lemma nonneg_loss d : nonneg (loss_of d).
Proof.
  unfold loss_of. destruct (0 <? d)%float; [apply nonneg_zero|].
  unfold nonneg. rewrite abs_spec. apply SFnonneg_abs.
Qed.

Lemma nonneg_sum l : Forall nonneg l -> nonneg (sum l).
Proof.
  unfold sum. generalize nonneg_zero. generalize 0%float as acc.
  induction l as [|x l IH]; intros acc Hacc Hl; cbn [fold_left]; [exact Hacc|].
  inversion Hl; subst. apply IH; [apply nonneg_add|]; assumption.
Qed.

Lemma truediv_14 x : truediv x (float_of_nat 14) = Ok (x / 14)%float.
Proof. reflexivity. Qed.

Lemma smooth_14 g l gi li :
  smooth 14 (g, l) (gi, li)
  = Ok ((g * 13 + gi) / 14, (l * 13 + li) / 14)%float.
Proof. reflexivity. Qed.

Lemma nonneg_smooth_step a b :
  nonneg a -> nonneg b -> nonneg ((a * 13 + b) / 14)%float.
Proof.
  intros Ha Hb. apply nonneg_div; [|reflexivity].
  apply nonneg_add; [|exact Hb].
  apply nonneg_mul; [exact Ha | reflexivity].
Qed.

Lemma foldM_smooth_nonneg gl : forall g l,
  Forall (fun p => nonneg (fst p) /\ nonneg (snd p)) gl ->
  nonneg g -> nonneg l ->
  exists g' l', foldM (smooth 14) gl (g, l) = Ok (g', l') /\ nonneg g' /\ nonneg l'.
Proof.
  induction gl as [|[gi li] gl IH]; intros g l Hgl Hg Hl; cbn [foldM].
  - now exists g, l.
  - inversion Hgl as [|? ? [Hgi Hli] Hrest]; subst. cbn [fst snd] in *.
    rewrite smooth_14. cbn [Py.bind].
    apply IH; [assumption | |]; apply nonneg_smooth_step; assumption.
Qed.

Lemma Forall_combine_nonneg gs ls :
  Forall nonneg gs -> Forall nonneg ls ->
  Forall (fun p => nonneg (fst p) /\ nonneg (snd p)) (combine gs ls).
Proof.
  intros Hg. revert ls. induction Hg as [|g gs Hg _ IH]; intros ls Hl; [constructor|].
  destruct Hl as [|l ls Hl Hls]; [constructor|].
  cbn [combine]. constructor; [split; assumption | apply IH; assumption].
Qed.

Lemma Forall_firstn {A} (P : A -> Prop) n l : Forall P l -> Forall P (firstn n l).
Proof.
  intros H. revert n. induction H; intros [|n]; cbn; constructor; auto.
Qed.

Lemma Forall_skipn {A} (P : A -> Prop) n l : Forall P l -> Forall P (skipn n l).
Proof.
  intros H. revert n. induction H; intros [|n]; cbn; auto.
Qed.

Lemma Forall_map_nonneg (f : float -> float) l :
  (forall d, nonneg (f d)) -> Forall nonneg (map f l).
Proof. intros H. induction l; cbn; constructor; auto. Qed.

Lemma rsi_formula_in_range g l :
  nonneg g -> nonneg l -> (l =? 0)%float = false ->
  exists r,
    (rs <- truediv g l ;;
     q <- truediv 100%float (1 + rs)%float ;;
     Ok (round2 (100 - q)%float)) = Ok r
    /\ in_range r.
Proof.
  intros Hg Hl Hz. unfold truediv at 1. rewrite Hz. cbn [Py.bind].
  set (rs := (g / l)%float).
  assert (Hrs : nonneg rs) by (apply nonneg_div; assumption).
  assert (Hy : SFge1 (Prim2SF (1 + rs))).
  { rewrite add_spec, Prim2SF_1. apply SFadd_one_ge1; [apply Prim2SF_valid | exact Hrs]. }
  assert (Hy0 : ((1 + rs) =? 0)%float = false).
  { rewrite eqb_spec, Prim2SF_0. apply SFge1_not_zero. exact Hy. }
  unfold truediv. rewrite Hy0. cbn [Py.bind].
  eexists. split; [reflexivity|].
  apply round2_in_range.
  rewrite sub_spec, Prim2SF_100. apply SFsub_100_le100.
  rewrite div_spec, Prim2SF_100. apply SFdiv_100_le100; [apply Prim2SF_valid | exact Hy].
Qed.

(** C2 (as amended). For every list of close prices and window 14 the RSI
    computation returns a float, never an exception, and that float is
    either NaN or lies in the closed interval [0, 100]. *)
Theorem calculate_rsi_in_range (closes : list float) :
  exists r, calculate_rsi closes 14 = Ok r /\ in_range r.
Proof.
  unfold calculate_rsi.
  destruct (length closes <? 14 + 1)%nat.
  { exists 50%float. split; [reflexivity|]. right. split; reflexivity. }
  set (gains := map gain_of (deltas closes)).
  set (losses := map loss_of (deltas closes)).
  destruct (length gains <? 14)%nat.
  { exists 50%float. split; [reflexivity|]. right. split; reflexivity. }
  rewrite !truediv_14. cbn [Py.bind].
  assert (Hgains : Forall nonneg gains) by (apply Forall_map_nonneg, nonneg_gain).
  assert (Hlosses : Forall nonneg losses) by (apply Forall_map_nonneg, nonneg_loss).
  destruct (foldM_smooth_nonneg
              (combine (skipn 14 gains) (skipn 14 losses))
              (sum (firstn 14 gains) / 14)%float
              (sum (firstn 14 losses) / 14)%float)
    as (g & l & -> & Hg & Hl).
  { apply Forall_combine_nonneg; apply Forall_skipn; assumption. }
  { apply nonneg_div; [apply nonneg_sum, Forall_firstn; assumption | reflexivity]. }
  { apply nonneg_div; [apply nonneg_sum, Forall_firstn; assumption | reflexivity]. }
  cbn [Py.bind fst snd].
  destruct (l =? 0)%float eqn:Hz.
  { exists 100%float. split; [reflexivity|]. right. split; reflexivity. }
  apply rsi_formula_in_range; assumption.
Qed.

(** ** Comparison and subtraction *)

Section Compare64.

Local Open Scope Z_scope.

Lemma valid_digits s m e :
  valid_binary (S754_finite s m e) = true ->
  -1074 <= e /\ Zpos (digits2_pos m) <= 53
  /\ (-1074 < e -> Zpos (digits2_pos m) = 53).
Proof.
  cbn. unfold bounded, canonical_mantissa. rewrite andb_true_iff.
  intros [H1 _]. apply Z.eqb_eq in H1. rewrite fexp64_eq in H1. lia.
Qed.

(** Among valid positive numbers the order of (exponent, mantissa) pairs
    is the order of the values. *)
Lemma valid_lt_value s1 m1 e1 s2 m2 e2 :
  valid_binary (S754_finite s1 m1 e1) = true ->
  valid_binary (S754_finite s2 m2 e2) = true ->
  e1 < e2 \/ (e1 = e2 /\ (m1 < m2)%positive) ->
  Zpos m1 * 2 ^ (e1 - L64) < Zpos m2 * 2 ^ (e2 - L64).
Proof.
  intros V1 V2 H. unfold L64.
  apply valid_digits in V1 as (He1 & Hd1 & _).
  apply valid_digits in V2 as (He2 & _ & Hd2).
  destruct H as [Hlt | [-> Hm]].
  - specialize (Hd2 ltac:(lia)).
    destruct (digits2_pos_bounds m1) as [_ Hu].
    destruct (digits2_pos_bounds m2) as [Hl _]. rewrite Hd2 in Hl.
    assert (Hm1 : Zpos m1 < 2 ^ 53).
    { eapply Z.lt_le_trans; [exact Hu|]. apply Z.pow_le_mono_r; lia. }
    assert (Hp1 : 0 < 2 ^ (e1 - -1074)) by (apply pow2_pos; lia).
    assert (Hsplit : 2 ^ (e2 - -1074) = 2 ^ (e2 - e1 - 1) * (2 * 2 ^ (e1 - -1074))).
    { rewrite <- (Z.pow_succ_r 2) by lia. rewrite <- Z.pow_add_r by lia. f_equal. lia. }
    assert (0 < 2 ^ (e2 - e1 - 1)) by (apply pow2_pos; lia).
    rewrite Hsplit.
    change (2 ^ 53) with (2 * 2 ^ 52) in Hm1. change (2 ^ (53 - 1)) with (2 ^ 52) in Hl.
    set (P := 2 ^ (e1 - -1074)) in *. set (Q := 2 ^ (e2 - e1 - 1)) in *.
    set (T := 2 ^ 52) in *. nia.
  - assert (0 < 2 ^ (e2 - -1074)) by (apply pow2_pos; lia).
    apply Z.mul_lt_mono_pos_r; [assumption | lia].
Qed.

Lemma SFltb_zero_pos x :
  match x with
  | S754_infinity false | S754_finite false _ _ => True
  | _ => False
  end -> SFltb SF0 x = true.
Proof. destruct x as [s|[]| |[] m e]; cbn; try contradiction; reflexivity. Qed.

(** The difference [x - y] of two aligned numbers with [y < x]. *)
Lemma binary_normalize_pos D ez :
  0 < D -> L64 <= ez ->
  SFltb SF0 (binary_normalize prec emax D ez false) = true.
Proof.
  intros HD He. destruct D as [|D|D]; try lia. cbn [binary_normalize].
  assert (H := binary_round_ge 1 (-1074) ltac:(lia) ltac:(lia) false D ez He).
  unfold L64 in *.
  assert (0 < 2 ^ (ez - -1074)) by (apply pow2_pos; lia).
  change (1 * 2 ^ (-1074 - -1074)) with 1 in H.
  specialize (H ltac:(nia)).
  apply SFltb_zero_pos.
  destruct (binary_round prec emax false D ez) as [s|s| |s m e]; try contradiction.
  - subst. exact I.
  - destruct H as [-> _]. exact I.
Qed.

Lemma SFsub_pos a b :
  valid_binary a = true -> valid_binary b = true ->
  SFltb a b = true -> SFltb SF0 (SF64sub b a) = true.
Proof.
  intros Va Vb Hlt.
  destruct a as [sa|sa| |sa ma ea], b as [sb|sb| |sb mb eb];
    try (destruct sa, sb; cbn in Hlt |- *; (discriminate || reflexivity));
    try (destruct sa; cbn in Hlt |- *; (discriminate || reflexivity));
    try (destruct sb; cbn in Hlt |- *; (discriminate || reflexivity));
    try discriminate.
  unfold SF64sub, SFsub.
  set (ez := Z.min eb ea).
  destruct (valid_digits _ _ _ Va) as (Hea & _).
  destruct (valid_digits _ _ _ Vb) as (Heb & _).
  destruct (shl_align_spec mb eb ez) as [[_ Eb] _]; [lia|].
  destruct (shl_align_spec ma ea ez) as [[_ Ea] _]; [lia|].
  set (b' := fst (shl_align mb eb ez)) in *.
  set (a' := fst (shl_align ma ea ez)) in *.
  assert (Hp : 0 < 2 ^ (ez - L64)) by (apply pow2_pos; unfold L64; lia).
  assert (Hb : Z.pos b' * 2 ^ (ez - L64) = Z.pos mb * 2 ^ (eb - L64)).
  { rewrite Eb, <- Z.mul_assoc, <- Z.pow_add_r by (unfold L64; lia).
    do 2 f_equal. lia. }
  assert (Ha : Z.pos a' * 2 ^ (ez - L64) = Z.pos ma * 2 ^ (ea - L64)).
  { rewrite Ea, <- Z.mul_assoc, <- Z.pow_add_r by (unfold L64; lia).
    do 2 f_equal. lia. }
  apply binary_normalize_pos; [|unfold L64; lia].
  unfold SFltb, SFcompare in Hlt.
  destruct sa, sb; cbn [cond_Zopp]; try discriminate; try lia.
  - (* both negative: the larger magnitude is the smaller number *)
    assert (Hv : Zpos mb * 2 ^ (eb - L64) < Zpos ma * 2 ^ (ea - L64)).
    { apply (valid_lt_value true mb eb true ma ea Vb Va).
      destruct (Z.compare_spec ea eb) as [E|E|E]; try discriminate; [right|left; lia].
      split; [congruence|].
      destruct (Pos.compare_cont Eq ma mb) eqn:C; try discriminate.
      apply Pos.compare_gt_iff in C. exact C. }
    nia.
  - (* both positive *)
    assert (Hv : Zpos ma * 2 ^ (ea - L64) < Zpos mb * 2 ^ (eb - L64)).
    { apply (valid_lt_value false ma ea false mb eb Va Vb).
      destruct (Z.compare_spec ea eb) as [E|E|E]; try discriminate; [right|left; lia].
      split; [congruence|].
      destruct (Pos.compare_cont Eq ma mb) eqn:C; try discriminate.
      apply Pos.compare_lt_iff in C. exact C. }
    nia.
Qed.

End Compare64.

Lemma sub_pos a b : (a <? b)%float = true -> (0 <? b - a)%float = true.
Proof.
  rewrite !ltb_spec, sub_spec, Prim2SF_0.
  apply SFsub_pos; apply Prim2SF_valid.
Qed.

(** ** RsiEngine *)

Lemma length_deltas closes : length (deltas closes) = length closes - 1.
Proof.
  induction closes as [|prev rest IH]; [reflexivity|].
  destruct rest as [|cur rest]; [reflexivity|].
  cbn [deltas length] in *. lia.
Qed.

Lemma deltas_increasing closes :
  strictly_increasing closes = true ->
  Forall (fun d => (0 <? d)%float = true) (deltas closes).
Proof.
  induction closes as [|prev rest IH]; [constructor|].
  destruct rest as [|cur rest]; [constructor|].
  cbn [strictly_increasing deltas]. intros H.
  apply andb_prop in H as [Hlt Hrest].
  constructor; [apply sub_pos; exact Hlt | apply IH; exact Hrest].
Qed.

Lemma losses_of_gains ds :
  Forall (fun d => (0 <? d)%float = true) ds ->
  map loss_of ds = repeat 0%float (length ds).
Proof.
  induction 1 as [|d ds Hd _ IH]; [reflexivity|].
  cbn [map length repeat]. unfold loss_of at 1. now rewrite Hd, IH.
Qed.

Lemma sum_zeros n : sum (repeat 0%float n) = 0%float.
Proof.
  unfold sum. induction n as [|n IH]; [reflexivity|].
  cbn [repeat fold_left]. exact IH.
Qed.

Lemma firstn_repeat {A} (x : A) n k : firstn n (repeat x k) = repeat x (Nat.min n k).
Proof.
  revert k. induction n as [|n IH]; intros [|k]; cbn; try reflexivity.
  now rewrite IH.
Qed.

Lemma skipn_repeat {A} (x : A) n k : skipn n (repeat x k) = repeat x (k - n).
Proof.
  revert k. induction n as [|n IH]; intros [|k]; cbn; try reflexivity.
  apply IH.
Qed.

Lemma foldM_smooth_no_loss gs k : forall g,
  exists g', foldM (smooth 14) (combine gs (repeat 0%float k)) (g, 0%float)
             = Ok (g', 0%float).
Proof.
  revert k. induction gs as [|gi gs IH]; intros k g.
  - exists g. reflexivity.
  - destruct k as [|k]; [exists g; reflexivity|].
    cbn [repeat combine foldM]. rewrite smooth_14. cbn [Py.bind].
    change ((0 * 13 + 0) / 14)%float with 0%float.
    apply IH.
Qed.

(** C3. For every close-price series of fewer than 15 entries the RSI
    computation with window 14 returns exactly the sentinel 50.0. *)
Theorem rsi_short_series (closes : list float) :
  length closes < 15 -> calculate_rsi closes 14 = Ok 50%float.
Proof.
  intros H. unfold calculate_rsi.
  replace (length closes <? 14 + 1) with true; [reflexivity|].
  symmetry. apply Nat.ltb_lt. lia.
Qed.

(** C4. For every strictly increasing series of at least 15 closes the
    RSI computation with window 14 returns exactly 100.0: every loss is
    zero, the smoothed average loss stays zero, and the zero-loss branch
    is taken. *)
Theorem rsi_strictly_increasing (closes : list float) :
  15 <= length closes ->
  strictly_increasing closes = true ->
  calculate_rsi closes 14 = Ok 100%float.
Proof.
  intros Hlen Hinc. unfold calculate_rsi.
  replace (length closes <? 14 + 1) with false
    by (symmetry; apply Nat.ltb_ge; lia).
  rewrite length_map, length_deltas.
  replace (length closes - 1 <? 14) with false
    by (symmetry; apply Nat.ltb_ge; lia).
  rewrite (losses_of_gains _ (deltas_increasing _ Hinc)).
  rewrite firstn_repeat, skipn_repeat, sum_zeros, !truediv_14.
  cbn [Py.bind].
  change (0 / 14)%float with 0%float.
  destruct (foldM_smooth_no_loss
              (skipn 14 (map gain_of (deltas closes)))
              (length (deltas closes) - 14)
              (sum (firstn 14 (map gain_of (deltas closes))) / 14)%float)
    as [g ->].
  reflexivity.
Qed.

(** ** RecommendationPolicy *)

Lemma SFltb_70_30 x :
  SFltb (Prim2SF 70) x = true -> SFltb x (Prim2SF 30) = false.
Proof.
  change (Prim2SF 70) with (S754_finite false 4925812092436480 (-46)).
  change (Prim2SF 30) with (S754_finite false 8444249301319680 (-48)).
  unfold SFltb, SFcompare.
  destruct x as [s|s| |s m e]; try discriminate.
  - destruct s; [discriminate | reflexivity].
  - destruct s; [discriminate|].
    destruct (Z.compare_spec (-46) e) as [E|E|E]; try discriminate.
    + subst e. reflexivity.
    + intros _. destruct (Z.compare_spec e (-48)) as [E'|E'|E']; try lia; reflexivity.
Qed.


(** C5. The recommendation is a function of the RSI score alone: BUY for
    every score strictly below 30, SELL for every score strictly above 70,
    NEUTRAL otherwise; 29.99 gives BUY, 30.0 and 70.0 give NEUTRAL, 70.01
    gives SELL. *)
Theorem recommend_thresholds :
  (forall r : float,
      ((r <? 30)%float = true -> recommend r = BUY)
      /\ ((70 <? r)%float = true -> recommend r = SELL)
      /\ ((r <? 30)%float = false -> (70 <? r)%float = false ->
          recommend r = NEUTRAL))
  /\ recommend 29.99 = BUY
  /\ recommend 30 = NEUTRAL
  /\ recommend 70 = NEUTRAL
  /\ recommend 70.01 = SELL.
Proof.
  split; [|repeat split; reflexivity].
  intros r. unfold recommend. repeat split.
  - intros ->. reflexivity.
  - intros H. rewrite H.
    replace (r <? 30)%float with false; [reflexivity|].
    symmetry. rewrite ltb_spec in *. apply SFltb_70_30. exact H.
  - intros -> ->. reflexivity.
Qed.

(** ** Strings *)

Section StringFacts.

Lemma str_eqb_refl (a : str) : str_eqb a a = true.
Proof.
  induction a as [|x a IH]; simpl; [reflexivity|].
  now rewrite N.eqb_refl, IH.
Qed.

Lemma str_eqb_eq (a b : str) : str_eqb a b = true <-> a = b.
Proof.
  split.
  - revert b; induction a as [|x a IH]; intros [|y b]; simpl; try discriminate; auto.
    intros H. apply andb_prop in H as [Hx Hr].
    apply N.eqb_eq in Hx. apply IH in Hr. now subst.
  - intros ->. apply str_eqb_refl.
Qed.

Lemma startswith_spec (a p : str) :
  startswith a p = true <-> exists q, a = p ++ q.
Proof.
  revert a; induction p as [|y p IH]; intros a; simpl.
  - split; [intros _; now exists a | reflexivity].
  - destruct a as [|x a].
    + split; [discriminate | intros [q Hq]; discriminate].
    + rewrite andb_true_iff, N.eqb_eq, IH. split.
      * intros [-> [q ->]]. now exists q.
      * intros [q Hq]. injection Hq as -> ->. split; [reflexivity | now exists q].
Qed.

Lemma endswith_spec (a p : str) :
  endswith a p = true <-> exists q, a = q ++ p.
Proof.
  unfold endswith. rewrite startswith_spec. split.
  - intros [q Hq]. exists (rev q).
    rewrite <- (rev_involutive a), Hq, rev_app_distr, rev_involutive. reflexivity.
  - intros [q ->]. exists (rev q). apply rev_app_distr.
Qed.

Lemma contains_spec (a p : str) :
  contains a p = true <-> exists x y, a = x ++ p ++ y.
Proof.
  induction a as [|c a IH].
  - simpl. rewrite orb_false_r. split.
    + destruct p; [intros _; now exists [], [] | discriminate].
    + intros [x [y H]]. symmetry in H.
      apply app_eq_nil in H as [_ H]. apply app_eq_nil in H as [-> _]. reflexivity.
  - cbn [contains]. rewrite orb_true_iff, IH, startswith_spec. split.
    + intros [[q Hq] | [x [y Hxy]]].
      * exists [], q. exact Hq.
      * exists (c :: x), y. simpl. now rewrite Hxy.
    + intros [[|c' x] [y H]].
      * left. now exists y.
      * right. injection H as _ H. now exists x, y.
Qed.

Lemma endswith_app (a p : str) : endswith (a ++ p) p = true.
Proof. apply endswith_spec. now exists a. Qed.

End StringFacts.

(** ** Symbol normalisation *)

Section NormalizeFacts.

Import Symbol.

Variable upper_full : codepoint -> str.

Lemma upper_app (a b : str) :
  upper upper_full (a ++ b) = upper upper_full a ++ upper upper_full b.
Proof. apply flat_map_app. Qed.

Lemma upper_idem (s : str) :
  idempotent_table upper_full ->
  upper upper_full (upper upper_full s) = upper upper_full s.
Proof.
  intros Hid. induction s as [|c s IH]; [reflexivity|].
  change (upper upper_full (c :: s)) with (upper_full c ++ upper upper_full s).
  rewrite upper_app, IH. f_equal. apply Hid.
Qed.

Lemma upper_ascii (s : str) :
  agrees_on_ascii upper_full ->
  Forall (fun c => (c < 128)%N) s ->
  upper upper_full s = map ascii_upper s.
Proof.
  intros Hag Hs. induction Hs as [|c s Hc _ IH]; [reflexivity|].
  change (upper upper_full (c :: s)) with (upper_full c ++ upper upper_full s).
  now rewrite Hag, IH.
Qed.

End NormalizeFacts.

Lemma ascii_table_agrees : Symbol.agrees_on_ascii Symbol.ascii_table.
Proof. intros c _. reflexivity. Qed.

Lemma ascii_upper_idem (c : codepoint) :
  Symbol.ascii_upper (Symbol.ascii_upper c) = Symbol.ascii_upper c.
Proof.
  unfold Symbol.ascii_upper.
  destruct (N.leb 97 c && N.leb c 122)%bool eqn:E; [|now rewrite E].
  apply andb_prop in E as [E1 E2].
  apply N.leb_le in E1. apply N.leb_le in E2.
  destruct (N.leb 97 (c - 32)) eqn:E3; [|reflexivity].
  apply N.leb_le in E3. lia.
Qed.

Lemma ascii_table_idempotent : Symbol.idempotent_table Symbol.ascii_table.
Proof.
  intros c. unfold Symbol.upper, Symbol.ascii_table. simpl.
  now rewrite ascii_upper_idem.
Qed.

(** C6. Symbol normalisation uppercases the raw symbol and appends ".IS"
    exactly when the uppercased string has at most 5 characters, does not
    end with ".IS" and has no occurrence of "USD"; otherwise the
    uppercased string is returned as it is.  It is a total function.  With
    a table that is Unicode's on ASCII, "thyao" gives "THYAO.IS", while
    "AAPLUSD" and "GOOGLE123" are only uppercased. *)
Theorem normalize_spec (upper_full : codepoint -> str)
  (Hascii : Symbol.agrees_on_ascii upper_full) :
  (forall raw : str,
      let u := Symbol.upper upper_full raw in
      ((length u <= 5
        /\ ~ (exists q, u = q ++ lit ".IS")
        /\ ~ (exists x y, u = x ++ lit "USD" ++ y))
       -> Symbol.normalize upper_full raw = u ++ lit ".IS")
      /\ (~ (length u <= 5
             /\ ~ (exists q, u = q ++ lit ".IS")
             /\ ~ (exists x y, u = x ++ lit "USD" ++ y))
          -> Symbol.normalize upper_full raw = u))
  /\ Symbol.normalize upper_full (lit "thyao") = lit "THYAO.IS"
  /\ Symbol.normalize upper_full (lit "AAPLUSD") = lit "AAPLUSD"
  /\ Symbol.normalize upper_full (lit "GOOGLE123") = lit "GOOGLE123".
Proof.
  split.
  - intros raw u. unfold Symbol.normalize. fold u.
    destruct (length u <=? 5) eqn:El; cbn [andb negb].
    + apply Nat.leb_le in El.
      destruct (endswith u (lit ".IS")) eqn:Ee; cbn [andb negb].
      * apply (proj1 (endswith_spec u (lit ".IS"))) in Ee.
        split; [intros (_ & H & _); contradiction | reflexivity].
      * destruct (contains u (lit "USD")) eqn:Ec; cbn [andb negb].
        -- apply (proj1 (contains_spec u (lit "USD"))) in Ec.
           split; [intros (_ & _ & H); contradiction | reflexivity].
        -- split; [reflexivity|]. intros H. exfalso. apply H. split; [exact El|].
           split; intros H'.
           ++ apply (proj2 (endswith_spec u (lit ".IS"))) in H'. congruence.
           ++ apply (proj2 (contains_spec u (lit "USD"))) in H'. congruence.
    + apply Nat.leb_gt in El.
      split; [intros (H & _); lia | reflexivity].
  - unfold Symbol.normalize.
    rewrite !upper_ascii by (try assumption; repeat constructor).
    repeat split.
Qed.

(** C6, witness: the table that is the identity outside ASCII. *)
Lemma normalize_spec_witness :
  Symbol.normalize Symbol.ascii_table (lit "thyao") = lit "THYAO.IS".
Proof.
  exact (proj1 (proj2 (normalize_spec Symbol.ascii_table ascii_table_agrees))).
Defined.

(** C10. Symbol normalisation is idempotent: normalising a normalised
    symbol changes nothing.  The uppercase table is Unicode's on ASCII and
    uppercasing twice is uppercasing once, as in Unicode. *)
Theorem normalize_idempotent (upper_full : codepoint -> str)
  (Hascii : Symbol.agrees_on_ascii upper_full)
  (Hidem : Symbol.idempotent_table upper_full) :
  forall s : str,
    Symbol.normalize upper_full (Symbol.normalize upper_full s)
    = Symbol.normalize upper_full s.
Proof.
  intros s.
  assert (Hsuffix : Symbol.upper upper_full (lit ".IS") = lit ".IS").
  { rewrite upper_ascii by (try assumption; repeat constructor). reflexivity. }
  set (u := Symbol.upper upper_full s).
  assert (Hu : Symbol.upper upper_full u = u) by (apply upper_idem; assumption).
  set (c := (length u <=? 5) && negb (endswith u (lit ".IS"))
            && negb (contains u (lit "USD"))).
  assert (Hn : Symbol.normalize upper_full s = if c then u ++ lit ".IS" else u)
    by reflexivity.
  rewrite Hn. destruct c eqn:E.
  - unfold Symbol.normalize.
    rewrite upper_app, Hu, Hsuffix, endswith_app.
    cbn [negb]. now rewrite andb_false_r.
  - unfold Symbol.normalize. rewrite Hu. fold c. now rewrite E.
Qed.

(** C10, witness: the table that is the identity outside ASCII. *)
Lemma normalize_idempotent_witness :
  Symbol.normalize Symbol.ascii_table
    (Symbol.normalize Symbol.ascii_table (lit "thyao"))
  = Symbol.normalize Symbol.ascii_table (lit "thyao").
Proof.
  exact (normalize_idempotent Symbol.ascii_table ascii_table_agrees
           ascii_table_idempotent (lit "thyao")).
Defined.

(** ** The authorisation gate *)

Lemma token_differs_iff P token :
  token_differs P token = true
  <-> (token = None \/ exists t, token = Some t /\ t <> API_SECRET P).
Proof.
  unfold token_differs. destruct token as [t|].
  - rewrite negb_true_iff. split.
    + intros H. right. exists t. split; [reflexivity|].
      intros E. apply str_eqb_eq in E. congruence.
    + intros [H | (t' & [= <-] & Hne)]; [discriminate|].
      destruct (str_eqb t (API_SECRET P)) eqn:E; [|reflexivity].
      apply str_eqb_eq in E. contradiction.
  - split; [now left | reflexivity].
Qed.

(** C1. When the authorisation token is absent or differs from the
    configured secret, [analyze_stock] fails with 401 Unauthorized and
    leaves the world as it was: the clock has not been read and no remote
    call has been issued. *)
Theorem analyze_unauthorized P request token w
  (Hbad : token = None \/ exists t, token = Some t /\ t <> API_SECRET P) :
  analyze_stock P request token w = (Raise (HTTPException 401 Unauthorized), w)
  /\ calls (snd (analyze_stock P request token w)) = calls w.
Proof.
  apply token_differs_iff in Hbad.
  unfold analyze_stock. rewrite Hbad. split; reflexivity.
Qed.

(** C1, witness: a request without a token. *)
Lemma analyze_unauthorized_witness :
  analyze_stock (platform_of midyear (closes_doc [JNum 3; JNum 4]))
                (thyao "1mo") None start_world
  = (Raise (HTTPException 401 Unauthorized), start_world)
  /\ calls (snd (analyze_stock (platform_of midyear (closes_doc [JNum 3; JNum 4]))
                               (thyao "1mo") None start_world))
     = calls start_world.
Proof.
  apply analyze_unauthorized. left. reflexivity.
Defined.

(** ** The staged validation *)

(** C7, at the failing input. The provider answers 200 with a chart whose
    first result has ["indicators"]["quote"] equal to the empty list, so
    that [quote[0]] is missing.  The second check only looks for the keys:
    the validation raises IndexError instead of the 404 "no price data",
    and the handler reports it as a 500. *)
Theorem empty_quote_list_raises_index_error :
  validate (lit "THYAO.IS") empty_quote_doc = Raise (Builtin IndexError)
  /\ fst (fetch_yahoo_data (platform_of midyear empty_quote_doc)
            (lit "THYAO.IS") (lit "1mo") (lit "1d") start_world)
     = Raise (Builtin IndexError)
  /\ fst (analyze_stock (platform_of midyear empty_quote_doc)
            (thyao "1mo") secret start_world)
     = Raise (HTTPException 500 (FetchError IndexError)).
Proof. repeat split; reflexivity. Qed.

(** ** The time window *)

Section Window.

Local Open Scope Z_scope.

Lemma period_seconds_pos now1 now2 period :
  period <> lit "ytd" -> 0 < period_seconds now1 now2 period.
Proof.
  intros Hne. unfold period_seconds, period_map. cbn [dict_get].
  repeat match goal with
         | |- context [str_eqb ?k period] =>
             let E := fresh "E" in
             destruct (str_eqb k period) eqn:E;
             [try lia; apply str_eqb_eq in E; congruence|]
         end.
  lia.
Qed.

Lemma period_seconds_ytd now1 now2 :
  period_seconds now1 now2 (lit "ytd")
  = int_total_seconds (minus now1 (jan1 (year now2))).
Proof. reflexivity. Qed.

Lemma ytd_same_year now1 now2 :
  year now1 = year now2 -> well_formed now1 ->
  0 <= period_seconds now1 now2 (lit "ytd")
  /\ (0 < period_seconds now1 now2 (lit "ytd") <-> 1000000 <= micros now1).
Proof.
  intros Hy [_ [Hm _]]. rewrite period_seconds_ytd.
  unfold int_total_seconds, minus, jan1. cbn [year micros]. rewrite Hy.
  replace ((days_before_year (year now2) - days_before_year (year now2)) * micros_per_day
           + (micros now1 - 0)) with (micros now1) by lia.
  rewrite Z.quot_div_nonneg by lia.
  assert (Hdm := Z.div_mod (micros now1) 1000000 ltac:(lia)).
  assert (Hr := Z.mod_pos_bound (micros now1) 1000000 ltac:(lia)).
  split; [apply Z.div_pos; lia|]. split; intros H.
  - nia.
  - apply Z.div_str_pos. lia.
Qed.

Lemma fetch_issues_one_call P symbol period interval w :
  calls (snd (fetch_yahoo_data P symbol period interval w))
  = {| url_symbol := symbol;
       period1 := epoch_seconds P (clock P (S (S (ticks w))))
                  - period_seconds (clock P (ticks w)) (clock P (S (ticks w))) period;
       period2 := epoch_seconds P (clock P (S (S (ticks w))));
       interval := interval |} :: calls w.
Proof.
  unfold fetch_yahoo_data, get_period_seconds, mbind, now, ret, requests_get.
  cbn [ticks calls].
  destruct (provider P _) as [|status body]; [reflexivity|].
  destruct (negb (status =? 200)); [reflexivity|].
  destruct body; reflexivity.
Qed.

(** C8 (as amended). The fetch issues one remote call whose window ends at
    the third clock reading and starts [period_seconds] earlier.  For every
    period token other than "ytd" (unrecognised tokens count 30 days) the
    window satisfies start < end.  For "ytd", when the two clock readings
    of the duration fall in the same year, start <= end, and start < end
    exactly when a full second has elapsed since 1 January 00:00:00. *)
Theorem fetch_time_window P symbol period interval w :
  let now1 := clock P (ticks w) in
  let now2 := clock P (S (ticks w)) in
  let t := clock P (S (S (ticks w))) in
  exists c,
    calls (snd (fetch_yahoo_data P symbol period interval w)) = c :: calls w
    /\ period2 c = epoch_seconds P t
    /\ period1 c = period2 c - period_seconds now1 now2 period
    /\ (period <> lit "ytd" -> period1 c < period2 c)
    /\ (period = lit "ytd" -> year now1 = year now2 -> well_formed now1 ->
        period1 c <= period2 c
        /\ (period1 c < period2 c <-> 1000000 <= micros now1)).
Proof.
  intros now1 now2 t. eexists. split; [apply fetch_issues_one_call|].
  cbn [period1 period2]. fold now1 now2 t.
  split; [reflexivity|]. split; [reflexivity|]. split.
  - intros Hne. assert (H := period_seconds_pos now1 now2 period Hne). lia.
  - intros -> Hy Hwf. destruct (ytd_same_year now1 now2 Hy Hwf) as [H0 H1]. lia.
Qed.

(** C8, counterexample. Half a second after midnight of 1 January the
    "ytd" duration truncates to 0 seconds and the window has start = end. *)
Lemma ytd_window_empty_at_new_year :
  well_formed new_year
  /\ exists c,
       calls (snd (fetch_yahoo_data (platform_of new_year (closes_doc [JNum 3; JNum 4]))
                     (lit "THYAO.IS") (lit "ytd") (lit "1d") start_world)) = [c]
       /\ ~ (period1 c < period2 c).
Proof.
  split.
  - unfold well_formed, new_year; cbn. lia.
  - eexists. split; [reflexivity|]. cbn. lia.
Qed.

End Window.

(** ** Python numbers: conversions, sums and quotients *)

Lemma truediv_ok_inv x y r : truediv x y = Ok r -> r = (x / y)%float.
Proof. unfold truediv. destruct (y =? 0)%float; [discriminate | congruence]. Qed.

Lemma float_of_int_spec n x :
  float_of_int n = Ok x -> Prim2SF x = binary_normalize prec emax n 0 false.
Proof.
  unfold float_of_int. assert (Hv := binary_normalize_valid n 0).
  set (r := binary_normalize prec emax n 0 false) in *.
  intros H. assert (Hx : x = SF2Prim r).
  { destruct r; try discriminate H; congruence. }
  subst x. now apply Prim2SF_SF2Prim.
Qed.

Lemma float_of_int_raises n e :
  float_of_int n = Raise e -> e = Builtin OverflowError.
Proof.
  unfold float_of_int.
  destruct (binary_normalize prec emax n 0 false); try discriminate.
  now intros [= <-].
Qed.

Lemma to_float_raises a e : to_float a = Raise e -> e = Builtin OverflowError.
Proof. destruct a; cbn [to_float]; [apply float_of_int_raises | discriminate]. Qed.

Lemma float_of_int_nonneg n x : (0 <= n)%Z -> float_of_int n = Ok x -> nonneg x.
Proof.
  intros Hn H. unfold nonneg. rewrite (float_of_int_spec _ _ H).
  destruct n as [|p|p]; try lia; cbn [binary_normalize]; [reflexivity|].
  assert (Hs := binary_round_sign false p 0).
  destruct (binary_round prec emax false p 0); exact Hs.
Qed.

Lemma to_float_nonneg a x : num_nonneg a -> to_float a = Ok x -> nonneg x.
Proof.
  destruct a; cbn [num_nonneg to_float]; [apply float_of_int_nonneg|].
  now intros H [= <-].
Qed.

Lemma float_of_int_0 : float_of_int 0 = Ok 0%float.
Proof. reflexivity. Qed.
Lemma float_of_int_13 : float_of_int 13 = Ok 13%float.
Proof. reflexivity. Qed.
Lemma float_of_int_14 : float_of_int 14 = Ok 14%float.
Proof. reflexivity. Qed.

Lemma num_sub_raises a b e : num_sub a b = Raise e -> e = Builtin OverflowError.
Proof.
  destruct a, b; cbn [num_sub to_float Py.bind]; try discriminate;
    repeat match goal with
           | |- Py.bind ?c _ = Raise _ -> _ =>
               let E := fresh "E" in
               destruct c eqn:E; cbn [Py.bind];
               [|apply float_of_int_raises in E; now intros [= <-]]
           end; discriminate.
Qed.

Lemma num_add_raises a b e : num_add a b = Raise e -> e = Builtin OverflowError.
Proof.
  destruct a, b; cbn [num_add to_float Py.bind]; try discriminate;
    repeat match goal with
           | |- Py.bind ?c _ = Raise _ -> _ =>
               let E := fresh "E" in
               destruct c eqn:E; cbn [Py.bind];
               [|apply float_of_int_raises in E; now intros [= <-]]
           end; discriminate.
Qed.

Lemma num_add_nonneg a b c :
  num_nonneg a -> num_nonneg b -> num_add a b = Ok c -> num_nonneg c.
Proof.
  intros Ha Hb.
  destruct a as [m|x], b as [n|y]; cbn [num_add].
  - intros [= <-]. cbn in *. lia.
  - destruct (to_float (PyInt m)) as [x|] eqn:E; cbn [Py.bind to_float]; [|discriminate].
    intros [= <-]. apply nonneg_add; [exact (to_float_nonneg _ _ Ha E) | exact Hb].
  - cbn [to_float Py.bind].
    destruct (float_of_int n) as [y|] eqn:E; cbn [Py.bind]; [|discriminate].
    intros [= <-]. apply nonneg_add; [exact Ha | exact (float_of_int_nonneg _ _ Hb E)].
  - cbn [to_float Py.bind]. intros [= <-]. now apply nonneg_add.
Qed.

Lemma foldM_num_add l : forall acc,
  Forall num_nonneg l -> num_nonneg acc ->
  match foldM num_add l acc with
  | Ok s => num_nonneg s
  | Raise e => e = Builtin OverflowError
  end.
Proof.
  induction l as [|a l IH]; intros acc Hl Hacc; cbn [foldM]; [exact Hacc|].
  inversion Hl as [|? ? Ha Hl']; subst.
  destruct (num_add acc a) as [acc'|e] eqn:E; cbn [Py.bind].
  - apply IH; [assumption | exact (num_add_nonneg _ _ _ Hacc Ha E)].
  - now apply num_add_raises in E.
Qed.

Lemma num_sum_cases l :
  Forall num_nonneg l ->
  match num_sum l with
  | Ok s => num_nonneg s
  | Raise e => e = Builtin OverflowError
  end.
Proof. intros H. apply foldM_num_add; [exact H | cbn; lia]. Qed.

Lemma SF_of_int_nonneg n : (0 <= n)%Z -> SFnonneg (SF_of_int n).
Proof. destruct n; cbn; intros; (reflexivity || lia). Qed.

Lemma SFdiv_int_valid m n :
  n <> 0%Z -> valid_binary (SF64div (SF_of_int m) (SF_of_int n)) = true.
Proof.
  intros Hn. destruct m as [|p|p], n as [|q|q]; try (now elim Hn);
    try reflexivity; apply SFdiv_finite_valid.
Qed.

Lemma num_truediv_int_spec m n x :
  num_truediv (PyInt m) (PyInt n) = Ok x ->
  n <> 0%Z /\ Prim2SF x = SF64div (SF_of_int m) (SF_of_int n).
Proof.
  cbn [num_truediv]. destruct (Z.eqb_spec n 0) as [|Hn]; [discriminate|].
  assert (Hv := SFdiv_int_valid m n Hn).
  set (r := SF64div (SF_of_int m) (SF_of_int n)) in *.
  intros H. assert (Hx : x = SF2Prim r).
  { destruct r; try discriminate H; congruence. }
  subst x. split; [exact Hn | now apply Prim2SF_SF2Prim].
Qed.

Lemma num_truediv_nonneg a b x :
  num_nonneg a -> num_nonneg b -> num_truediv a b = Ok x -> nonneg x.
Proof.
  intros Ha Hb.
  destruct a as [m|u], b as [n|v].
  - intros H. apply num_truediv_int_spec in H as [_ H].
    unfold nonneg. rewrite H. apply SFnonneg_div; now apply SF_of_int_nonneg.
  - cbn [num_truediv].
    destruct (to_float (PyInt m)) as [u|] eqn:E; cbn [Py.bind to_float]; [|discriminate].
    intros H. apply truediv_ok_inv in H. subst.
    apply nonneg_div; [exact (to_float_nonneg _ _ Ha E) | exact Hb].
  - cbn [num_truediv to_float Py.bind].
    destruct (float_of_int n) as [v|] eqn:E; cbn [Py.bind]; [|discriminate].
    intros H. apply truediv_ok_inv in H. subst.
    apply nonneg_div; [exact Ha | exact (float_of_int_nonneg _ _ Hb E)].
  - cbn [num_truediv to_float Py.bind].
    intros H. apply truediv_ok_inv in H. subst. now apply nonneg_div.
Qed.

Lemma truediv_raises x y e :
  truediv x y = Raise e -> e = Builtin ZeroDivisionError.
Proof. unfold truediv. destruct (y =? 0)%float; [now intros [= <-] | discriminate]. Qed.

Lemma num_truediv_raises a b e :
  num_truediv a b = Raise e ->
  e = Builtin ZeroDivisionError \/ e = Builtin OverflowError.
Proof.
  destruct a as [m|u], b as [n|v]; cbn [num_truediv to_float Py.bind].
  - destruct (n =? 0)%Z; [intros [= <-]; now left|].
    destruct (SF64div (SF_of_int m) (SF_of_int n)); try discriminate.
    intros [= <-]. now right.
  - destruct (float_of_int m) eqn:E; cbn [Py.bind].
    + intros H. left. exact (truediv_raises _ _ _ H).
    + apply float_of_int_raises in E. intros [= <-]. now right.
  - destruct (float_of_int n) eqn:E; cbn [Py.bind].
    + intros H. left. exact (truediv_raises _ _ _ H).
    + apply float_of_int_raises in E. intros [= <-]. now right.
  - intros H. left. exact (truediv_raises _ _ _ H).
Qed.

(** The first averages: a sum divided by the window of 14. *)
Lemma num_truediv_14 a :
  num_nonneg a ->
  match num_truediv a (PyInt 14) with
  | Ok x => nonneg x
  | Raise e => e = Builtin OverflowError
  end.
Proof.
  intros Ha. destruct (num_truediv a (PyInt 14)) as [x|e] eqn:E.
  - apply (num_truediv_nonneg a (PyInt 14)); [exact Ha | cbn; lia | exact E].
  - destruct a as [m|u]; cbn [num_truediv to_float Py.bind] in E.
    + cbn [Z.eqb] in E.
      destruct (SF64div (SF_of_int m) (SF_of_int 14)); try discriminate.
      now injection E as <-.
    + rewrite float_of_int_14 in E. cbn [Py.bind] in E.
      change 14%float with (float_of_nat 14) in E. rewrite truediv_14 in E. discriminate.
Qed.

(** ** The RSI of the handler *)

Lemma as_num_raises v e : as_num v = Raise e -> e = Builtin TypeError.
Proof.
  destruct v as [|[]| | | | |]; cbn [as_num]; try discriminate; now intros [= <-].
Qed.

Lemma as_float_raises v e :
  as_float v = Raise e -> e = Builtin TypeError \/ e = Builtin OverflowError.
Proof.
  unfold as_float. destruct (as_num v) as [a|ea] eqn:Ea; cbn [Py.bind].
  - intros H. right. exact (to_float_raises _ _ H).
  - intros [= <-]. left. exact (as_num_raises _ _ Ea).
Qed.

Lemma json_sub_raises a b e :
  json_sub a b = Raise e -> e = Builtin TypeError \/ e = Builtin OverflowError.
Proof.
  unfold json_sub.
  destruct (as_num a) as [x|ea] eqn:Ea; cbn [Py.bind].
  - destruct (as_num b) as [y|eb] eqn:Eb; cbn [Py.bind].
    + intros H. right. exact (num_sub_raises _ _ _ H).
    + intros [= <-]. left. exact (as_num_raises _ _ Eb).
  - intros [= <-]. left. exact (as_num_raises _ _ Ea).
Qed.

Lemma json_deltas_cons prev cur rest :
  json_deltas (prev :: cur :: rest)
  = (d <- json_sub cur prev ;; ds <- json_deltas (cur :: rest) ;; Ok (d :: ds)).
Proof. reflexivity. Qed.

Lemma json_deltas_raises closes : forall e,
  json_deltas closes = Raise e ->
  e = Builtin TypeError \/ e = Builtin OverflowError.
Proof.
  induction closes as [|prev rest IH]; intros e H; [discriminate H|].
  destruct rest as [|cur rest]; [discriminate H|].
  rewrite json_deltas_cons in H.
  destruct (json_sub cur prev) as [d|e1] eqn:E1; cbn [Py.bind] in H.
  - destruct (json_deltas (cur :: rest)) as [ds|e2] eqn:E2; cbn [Py.bind] in H;
      [discriminate H|].
    injection H as <-. now apply IH.
  - injection H as <-. exact (json_sub_raises _ _ _ E1).
Qed.

Lemma gain_of_num_nonneg d : num_nonneg (gain_of_num d).
Proof.
  unfold gain_of_num. destruct d as [n|x]; cbn [num_pos].
  - destruct (Z.ltb_spec 0 n); cbn; lia.
  - destruct (0 <? x)%float eqn:E; [|cbn; lia].
    cbn [num_nonneg]. rewrite ltb_spec in E. now apply SFltb_zero_nonneg.
Qed.

Lemma loss_of_num_nonneg d : num_nonneg (loss_of_num d).
Proof.
  unfold loss_of_num. destruct (num_pos d); [cbn; lia|].
  destruct d as [n|x]; cbn [num_abs num_nonneg]; [lia|].
  unfold nonneg. rewrite abs_spec. apply SFnonneg_abs.
Qed.

Lemma smooth_num_14 g l gi li :
  smooth_num 14 (g, l) (gi, li)
  = (x <- to_float gi ;;
     y <- to_float li ;;
     Ok ((g * 13 + x) / 14, (l * 13 + y) / 14)%float).
Proof.
  unfold smooth_num. cbn [fst snd].
  change (Z.of_nat 14 - 1)%Z with 13%Z. change (Z.of_nat 14) with 14%Z.
  rewrite float_of_int_13, float_of_int_14. cbn [Py.bind].
  destruct (to_float gi) as [x|]; cbn [Py.bind].
  - change 14%float with (float_of_nat 14). rewrite truediv_14. cbn [Py.bind].
    destruct (to_float li) as [y|]; cbn [Py.bind]; [|reflexivity].
    now rewrite truediv_14.
  - reflexivity.
Qed.

Lemma Forall_combine_num gs ls :
  Forall num_nonneg gs -> Forall num_nonneg ls ->
  Forall (fun p => num_nonneg (fst p) /\ num_nonneg (snd p)) (combine gs ls).
Proof.
  intros Hg. revert ls. induction Hg as [|g gs Hg _ IH]; intros ls Hl; [constructor|].
  destruct Hl as [|l ls Hl Hls]; [constructor|].
  cbn [combine]. constructor; [split; assumption | now apply IH].
Qed.

Lemma foldM_smooth_num gl : forall g l,
  Forall (fun p => num_nonneg (fst p) /\ num_nonneg (snd p)) gl ->
  nonneg g -> nonneg l ->
  match foldM (smooth_num 14) gl (g, l) with
  | Ok avg => nonneg (fst avg) /\ nonneg (snd avg)
  | Raise e => e = Builtin OverflowError
  end.
Proof.
  induction gl as [|[gi li] gl IH]; intros g l Hgl Hg Hl; cbn [foldM].
  - split; assumption.
  - inversion Hgl as [|? ? [Hgi Hli] Hgl']; subst. cbn [fst snd] in *.
    rewrite smooth_num_14.
    destruct (to_float gi) as [x|e] eqn:Ex; cbn [Py.bind];
      [|now apply to_float_raises in Ex].
    destruct (to_float li) as [y|e] eqn:Ey; cbn [Py.bind];
      [|now apply to_float_raises in Ey].
    apply IH; [assumption | apply nonneg_smooth_step ..]; try assumption.
    + exact (to_float_nonneg _ _ Hgi Ex).
    + exact (to_float_nonneg _ _ Hli Ey).
Qed.

(** The RSI of the handler, outcome by outcome: a result is NaN or in
    [0, 100], and is 50.0 on a short list; the only exceptions are those
    of a subtraction, a conversion or a quotient of [int]s. *)
Lemma calculate_rsi_of_cases closes :
  match calculate_rsi_of closes 14 with
  | Ok r => in_range r /\ (length closes < 15 -> r = 50%float)
  | Raise e =>
      (e = Builtin TypeError \/ e = Builtin OverflowError)
      /\ 15 <= length closes
  end.
Proof.
  unfold calculate_rsi_of.
  destruct (length closes <? 14 + 1) eqn:E.
  { split; [right; split; reflexivity | reflexivity]. }
  apply Nat.ltb_ge in E.
  destruct (json_deltas closes) as [ds|e] eqn:Ed; cbn [Py.bind];
    [|split; [exact (json_deltas_raises _ _ Ed) | lia]].
  set (gains := map gain_of_num ds). set (losses := map loss_of_num ds).
  assert (Hgains : Forall num_nonneg gains).
  { apply Forall_forall. intros g Hg. apply in_map_iff in Hg as (d & <- & _).
    apply gain_of_num_nonneg. }
  assert (Hlosses : Forall num_nonneg losses).
  { apply Forall_forall. intros l Hl. apply in_map_iff in Hl as (d & <- & _).
    apply loss_of_num_nonneg. }
  destruct (length gains <? 14).
  { split; [right; split; reflexivity | lia]. }
  change (Z.of_nat 14) with 14%Z.
  assert (Hsg := num_sum_cases (firstn 14 gains) (Forall_firstn _ _ _ Hgains)).
  destruct (num_sum (firstn 14 gains)) as [sg|e]; cbn [Py.bind];
    [|split; [right; exact Hsg | lia]].
  assert (Hag := num_truediv_14 sg Hsg).
  destruct (num_truediv sg (PyInt 14)) as [ag|e]; cbn [Py.bind];
    [|split; [right; exact Hag | lia]].
  assert (Hsl := num_sum_cases (firstn 14 losses) (Forall_firstn _ _ _ Hlosses)).
  destruct (num_sum (firstn 14 losses)) as [sl|e]; cbn [Py.bind];
    [|split; [right; exact Hsl | lia]].
  assert (Hal := num_truediv_14 sl Hsl).
  destruct (num_truediv sl (PyInt 14)) as [al|e]; cbn [Py.bind];
    [|split; [right; exact Hal | lia]].
  assert (Hf := foldM_smooth_num
                  (combine (skipn 14 gains) (skipn 14 losses)) ag al
                  (Forall_combine_num _ _ (Forall_skipn _ _ _ Hgains)
                                          (Forall_skipn _ _ _ Hlosses))
                  Hag Hal).
  destruct (foldM (smooth_num 14) _ (ag, al)) as [[g l]|e]; cbn [Py.bind fst snd] in *;
    [|split; [right; exact Hf | lia]].
  destruct Hf as [Hg Hl].
  destruct (l =? 0)%float eqn:Hz.
  { split; [right; split; reflexivity | lia]. }
  destruct (rsi_formula_in_range g l Hg Hl Hz) as (r & -> & Hr).
  split; [exact Hr | lia].
Qed.

(** *** On floats the handler's RSI is [calculate_rsi] *)

Lemma json_deltas_floats prices :
  json_deltas (map JNum prices) = Ok (map PyFloat (deltas prices)).
Proof.
  induction prices as [|prev rest IH]; [reflexivity|].
  destruct rest as [|cur rest]; [reflexivity|].
  cbn [map json_deltas deltas] in *. rewrite IH. reflexivity.
Qed.

Lemma gain_of_num_float d :
  gain_of_num (PyFloat d) = PyFloat (gain_of d)
  \/ (gain_of_num (PyFloat d) = PyInt 0 /\ gain_of d = 0%float).
Proof.
  unfold gain_of_num, gain_of. cbn [num_pos].
  destruct (0 <? d)%float; [now left | now right].
Qed.

Lemma loss_of_num_float d :
  loss_of_num (PyFloat d) = PyFloat (loss_of d)
  \/ (loss_of_num (PyFloat d) = PyInt 0 /\ loss_of d = 0%float).
Proof.
  unfold loss_of_num, loss_of. cbn [num_pos num_abs].
  destruct (0 <? d)%float; [now right | now left].
Qed.

(** A Python number that stands for a float: the float itself, or the
    integer 0 where the float list has 0.0. *)
Lemma to_float_stands a x :
  a = PyFloat x \/ (a = PyInt 0 /\ x = 0%float) -> to_float a = Ok x.
Proof. intros [-> | [-> ->]]; reflexivity. Qed.

Lemma foldM_num_add_floats (f : float -> num) (g : float -> float)
  (Hfg : forall d, f d = PyFloat (g d) \/ (f d = PyInt 0 /\ g d = 0%float)) ds :
  forall accn accf,
    accn = PyFloat accf \/ (accn = PyInt 0 /\ accf = 0%float) ->
    exists s,
      foldM num_add (map f ds) accn = Ok s
      /\ (s = PyFloat (fold_left PrimFloat.add (map g ds) accf)
          \/ (s = PyInt 0 /\ fold_left PrimFloat.add (map g ds) accf = 0%float)).
Proof.
  induction ds as [|d ds IH]; intros accn accf Hacc; cbn [map foldM fold_left].
  - exists accn. split; [reflexivity | exact Hacc].
  - destruct Hacc as [-> | [-> ->]]; destruct (Hfg d) as [-> | [-> ->]];
      cbn [num_add to_float Py.bind]; try rewrite float_of_int_0; cbn [Py.bind];
      apply IH; (now left) || (right; split; reflexivity).
Qed.

Lemma first_average_floats s x :
  s = PyFloat x \/ (s = PyInt 0 /\ x = 0%float) ->
  num_truediv s (PyInt 14) = truediv x (float_of_nat 14).
Proof. intros [-> | [-> ->]]; reflexivity. Qed.

Lemma combine_map {A B C} (f : A -> B) (g : A -> C) l :
  combine (map f l) (map g l) = map (fun x => (f x, g x)) l.
Proof. induction l as [|x l IH]; [reflexivity|]. cbn. now rewrite IH. Qed.

Lemma foldM_smooth_floats ds : forall g l,
  foldM (smooth_num 14)
        (map (fun d => (gain_of_num (PyFloat d), loss_of_num (PyFloat d))) ds) (g, l)
  = foldM (smooth 14) (map (fun d => (gain_of d, loss_of d)) ds) (g, l).
Proof.
  induction ds as [|d ds IH]; intros g l; [reflexivity|].
  cbn [map foldM]. rewrite smooth_num_14, smooth_14.
  rewrite (to_float_stands _ _ (gain_of_num_float d)).
  rewrite (to_float_stands _ _ (loss_of_num_float d)).
  cbn [Py.bind]. apply IH.
Qed.

Lemma calculate_rsi_of_floats (prices : list float) :
  calculate_rsi_of (map JNum prices) 14 = calculate_rsi prices 14.
Proof.
  unfold calculate_rsi_of, calculate_rsi. rewrite length_map.
  destruct (length prices <? 14 + 1); [reflexivity|].
  rewrite json_deltas_floats. cbn [Py.bind].
  rewrite !length_map.
  destruct (length (deltas prices) <? 14); [reflexivity|].
  rewrite !map_map, !firstn_map, !skipn_map.
  change (Z.of_nat 14) with 14%Z.
  unfold num_sum, sum.
  destruct (foldM_num_add_floats (fun d => gain_of_num (PyFloat d)) gain_of
              gain_of_num_float (firstn 14 (deltas prices)) (PyInt 0) 0%float)
    as (sg & -> & Hsg); [right; split; reflexivity|].
  cbn [Py.bind]. rewrite (first_average_floats _ _ Hsg).
  destruct (truediv _ (float_of_nat 14)) as [ag|]; cbn [Py.bind]; [|reflexivity].
  destruct (foldM_num_add_floats (fun d => loss_of_num (PyFloat d)) loss_of
              loss_of_num_float (firstn 14 (deltas prices)) (PyInt 0) 0%float)
    as (sl & -> & Hsl); [right; split; reflexivity|].
  cbn [Py.bind]. rewrite (first_average_floats _ _ Hsl).
  destruct (truediv _ (float_of_nat 14)) as [al|]; cbn [Py.bind]; [|reflexivity].
  rewrite !combine_map, foldM_smooth_floats. reflexivity.
Qed.

(** ** The reported change *)

Lemma fetch_ok_inv P symbol period interval w data w' :
  fetch_yahoo_data P symbol period interval w = (Ok data, w') ->
  exists c doc,
    provider P c = Response 200 (Some doc)
    /\ validate symbol doc = Ok data.
Proof.
  unfold fetch_yahoo_data, get_period_seconds, mbind, now, ret, requests_get, raise, lift.
  cbn [ticks calls].
  match goal with |- context [provider P ?c] => set (call := c) end.
  destruct (provider P call) as [|status body] eqn:Ep; [discriminate|].
  destruct (status =? 200)%Z eqn:Es; cbn [negb]; [|discriminate].
  apply Z.eqb_eq in Es. subst status.
  destruct body as [doc|]; [|discriminate].
  intros [= Hv _]. now exists call, doc.
Qed.

Lemma validate_closes symbol doc data :
  validate symbol doc = Ok data ->
  exists items,
    close_entries doc = Ok items
    /\ data_closes data = filter is_not_none items.
Proof.
  unfold validate, not_none_items. intros H.
  bind_inv H.
  injection H as <-. cbn [data_closes].
  unfold close_entries.
  repeat match goal with
         | E : ?c = Ok _ |- context [Py.bind ?c _] => rewrite E; cbn [Py.bind]
         end.
  match goal with
  | E : Py.bind (iterate ?v) _ = Ok _ |- _ =>
      destruct (iterate v) as [items|] eqn:Ei; cbn [Py.bind] in E;
      [injection E as <- | discriminate E]
  end.
  exists items. split; reflexivity.
Qed.

Lemma getitem0_list_inv l x : getitem0 (JArr l) = Ok x -> hd_error l = Some x.
Proof. destruct l; cbn; [discriminate | congruence]. Qed.

(** What a successful analysis has gone through. *)
Lemma analyze_ok_inv P request token w resp w' :
  analyze_stock P request token w = (Ok resp, w') ->
  exists c doc data first_json last_json diff start ratio rsi_val last,
    provider P c = Response 200 (Some doc)
    /\ validate (Symbol.normalize (upper_full P) (req_symbol request)) doc = Ok data
    /\ hd_error (data_closes data) = Some first_json
    /\ last_item (data_closes data) = Ok last_json
    /\ json_sub last_json first_json = Ok diff
    /\ as_num first_json = Ok start
    /\ num_truediv diff start = Ok ratio
    /\ calculate_rsi_of (data_closes data) 14 = Ok rsi_val
    /\ as_float last_json = Ok last
    /\ resp = {| symbol := data_symbol data;
                 price := round2 last;
                 change_percent := round2 (ratio * 100)%float;
                 rsi := rsi_val;
                 recommendation := recommend rsi_val;
                 period := req_period request;
                 data_points := length (data_closes data) |}.
Proof.
  unfold analyze_stock. destruct (token_differs P token); [discriminate|].
  unfold mbind, guarded, lift.
  destruct (fetch_yahoo_data P _ _ _ w) as [[data|[e|status d]] w1] eqn:Ef;
    try discriminate.
  intros H. apply (f_equal fst) in H. cbn [fst] in H.
  destruct (fetch_ok_inv _ _ _ _ _ _ _ Ef) as (c & doc & Hp & Hv).
  destruct (last_item (data_closes data)) as [lj|] eqn:E1; cbn [Py.bind] in H;
    [|discriminate H].
  destruct (getitem0 (JArr (data_closes data))) as [fj|] eqn:E2; cbn [Py.bind] in H;
    [|discriminate H].
  destruct (json_sub lj fj) as [df|] eqn:E3; cbn [Py.bind] in H; [|discriminate H].
  destruct (as_num fj) as [st|] eqn:E4; cbn [Py.bind] in H; [|discriminate H].
  destruct (num_truediv df st) as [ra|] eqn:E5; cbn [Py.bind] in H; [|discriminate H].
  destruct (calculate_rsi_of (data_closes data) 14) as [r|] eqn:E6;
    cbn [Py.bind] in H; [|discriminate H].
  destruct (as_float lj) as [l|] eqn:E7; cbn [Py.bind] in H; [|discriminate H].
  injection H as <-.
  exists c, doc, data, fj, lj, df, st, ra, r, l.
  repeat split; try assumption.
  now apply getitem0_list_inv.
Qed.

Lemma json_sub_ok_inv a b d :
  json_sub a b = Ok d ->
  exists x y, as_num a = Ok x /\ as_num b = Ok y /\ num_sub x y = Ok d.
Proof.
  unfold json_sub.
  destruct (as_num a) as [x|]; cbn [Py.bind]; [|discriminate].
  destruct (as_num b) as [y|]; cbn [Py.bind]; [|discriminate].
  intros H. now exists x, y.
Qed.

(** C9 (as amended). On every successful analysis the reported
    change_percent is [(last - first) / first * 100] rounded to two
    decimal places, where first and last are the first and the last entry
    of the close array of the provider's document once its null entries
    are dropped, and [-] and [/] are Python's on the parsed numbers.  For
    two floats that is the binary64 formula; for two integers the
    difference is exact and the quotient is the one of the exact
    integers, correctly rounded. *)
Theorem change_percent_is_rounded P request token w resp w' :
  analyze_stock P request token w = (Ok resp, w') ->
  exists c doc items first_json last_json first last diff ratio,
    provider P c = Response 200 (Some doc)
    /\ close_entries doc = Ok items
    /\ hd_error (filter is_not_none items) = Some first_json
    /\ last_item (filter is_not_none items) = Ok last_json
    /\ as_num first_json = Ok first
    /\ as_num last_json = Ok last
    /\ num_sub last first = Ok diff
    /\ num_truediv diff first = Ok ratio
    /\ change_percent resp = round2 (ratio * 100)%float
    /\ (forall x y, first = PyFloat x -> last = PyFloat y ->
        change_percent resp = round2 ((y - x) / x * 100)%float)
    /\ (forall a b, first = PyInt a -> last = PyInt b ->
        a <> 0%Z
        /\ Prim2SF ratio = SF64div (SF_of_int (b - a)) (SF_of_int a)).
Proof.
  intros H.
  destruct (analyze_ok_inv _ _ _ _ _ _ H)
    as (c & doc & data & fj & lj & df & st & ra & r & l
        & Hp & Hv & Hf & Hl & Hsub & Hst & Hdiv & _ & _ & ->).
  destruct (validate_closes _ _ _ Hv) as (items & Hitems & Hcloses).
  rewrite Hcloses in *.
  destruct (json_sub_ok_inv _ _ _ Hsub) as (x & y & Hx & Hy & Hxy).
  assert (y = st) by congruence. subst y.
  exists c, doc, items, fj, lj, st, x, df, ra. cbn [change_percent].
  repeat split; try assumption.
  - intros u v -> ->. cbn [num_sub to_float Py.bind] in Hxy. injection Hxy as <-.
    cbn [num_truediv to_float Py.bind] in Hdiv.
    apply truediv_ok_inv in Hdiv. now subst.
  - subst. cbn [num_sub] in Hxy. injection Hxy as <-.
    now apply num_truediv_int_spec in Hdiv.
  - subst. cbn [num_sub] in Hxy. injection Hxy as <-.
    now apply num_truediv_int_spec in Hdiv.
Qed.

(** C9, witness: the close array [3.0, null, 4.0]. *)
Lemma change_percent_is_rounded_witness :
  exists c doc items first_json last_json first last diff ratio,
    provider (platform_of midyear (closes_doc [JNum 3; JNull; JNum 4])) c
    = Response 200 (Some doc)
    /\ close_entries doc = Ok items
    /\ hd_error (filter is_not_none items) = Some first_json
    /\ last_item (filter is_not_none items) = Ok last_json
    /\ as_num first_json = Ok first
    /\ as_num last_json = Ok last
    /\ num_sub last first = Ok diff
    /\ num_truediv diff first = Ok ratio
    /\ change_percent
         {| symbol := JStr (lit "THYAO.IS"); price := 4; change_percent := 33.33;
            rsi := 50; recommendation := NEUTRAL; period := lit "1mo";
            data_points := 2 |}
       = round2 (ratio * 100)%float
    /\ (forall x y, first = PyFloat x -> last = PyFloat y ->
        change_percent
          {| symbol := JStr (lit "THYAO.IS"); price := 4; change_percent := 33.33;
             rsi := 50; recommendation := NEUTRAL; period := lit "1mo";
             data_points := 2 |}
        = round2 ((y - x) / x * 100)%float)
    /\ (forall a b, first = PyInt a -> last = PyInt b ->
        a <> 0%Z
        /\ Prim2SF ratio = SF64div (SF_of_int (b - a)) (SF_of_int a)).
Proof.
  apply (change_percent_is_rounded
           (platform_of midyear (closes_doc [JNum 3; JNull; JNum 4]))
           (thyao "1mo") secret start_world _
           (snd (analyze_stock
                   (platform_of midyear (closes_doc [JNum 3; JNull; JNum 4]))
                   (thyao "1mo") secret start_world))).
  vm_compute. reflexivity.
Defined.

(** C9, counterexample. With the close array [3.0, null, 4.0] the analysis
    succeeds and reports 33.33, not (4 - 3) / 3 * 100 = 33.33333333333333. *)
Lemma change_percent_not_exact :
  exists resp w',
    analyze_stock (platform_of midyear (closes_doc [JNum 3; JNull; JNum 4]))
                  (thyao "1mo") secret start_world = (Ok resp, w')
    /\ change_percent resp <> ((4 - 3) / 3 * 100)%float.
Proof.
  eexists _, _. split; [vm_compute; reflexivity|]. cbn [change_percent].
  intros H. apply (f_equal (fun x => (x =? 33.33)%float)) in H.
  vm_compute in H. discriminate H.
Qed.

(** Integer closes.  For the close array [1, 9007199254740993] the
    difference 9007199254740992 is exact and the reported change is
    9.007199254740992e17; for [1, 10^400] the quotient of the integers
    does not fit a float and OverflowError leaves the handler. *)
Lemma change_percent_integer_closes :
  (exists resp w',
      analyze_stock (platform_of midyear (closes_doc [JInt 1; JInt 9007199254740993]))
                    (thyao "1mo") secret start_world = (Ok resp, w')
      /\ change_percent resp = 9.007199254740992e17%float)
  /\ fst (analyze_stock (platform_of midyear (closes_doc [JInt 1; JInt (10 ^ 400)]))
                        (thyao "1mo") secret start_world)
     = Raise (Builtin OverflowError).
Proof.
  split.
  - eexists. eexists. split; [vm_compute; reflexivity | reflexivity].
  - vm_compute. reflexivity.
Qed.

(** ** RsiEngine: the range *)

(** C2, counterexample. Fifteen finite positive closes alternating between
    1.0 and 2^1023: the sums of the first 14 gains and of the first 14
    losses both overflow to infinity, their quotient is NaN, and so is the
    result, which is not in [0, 100]. *)
Lemma rsi_overflow_is_nan :
  Forall (fun x => (0 <? x)%float = true /\ is_finite x = true) overflowing
  /\ exists r,
       calculate_rsi overflowing 14 = Ok r
       /\ ~ ((0 <=? r)%float = true /\ (r <=? 100)%float = true).
Proof.
  split.
  - repeat constructor.
  - exists nan. split; [vm_compute; reflexivity|].
    intros [H _]. vm_compute in H. discriminate H.
Qed.

(** C3, witness: a series of three closes. *)
Lemma rsi_short_series_witness :
  calculate_rsi [1; 2; 3]%float 14 = Ok 50%float.
Proof. apply rsi_short_series. cbn. lia. Defined.

(** C4, witness: the closes 1.0, 2.0, ..., 15.0. *)
Lemma rsi_strictly_increasing_witness :
  calculate_rsi rising 14 = Ok 100%float.
Proof. apply rsi_strictly_increasing; [cbn; lia | reflexivity]. Defined.

(** X12. The checks that do answer 404, on documents made of objects: no
    "chart" or no "result" key, or a falsy result, is "no data"; no
    "indicators" or no "quote" key is "no price data"; a close array
    without an entry that is not null is "no closing data". *)
Lemma validate_not_found_stages symbol :
  (forall members,
      lookup members (lit "chart") = None ->
      validate symbol (JObj members) = Raise (HTTPException 404 (NoData symbol)))
  /\ (forall members chart,
         lookup members (lit "chart") = Some (JObj chart) ->
         lookup chart (lit "result") = None ->
         validate symbol (JObj members) = Raise (HTTPException 404 (NoData symbol)))
  /\ (forall members chart results,
         lookup members (lit "chart") = Some (JObj chart) ->
         lookup chart (lit "result") = Some results ->
         truthy results = false ->
         validate symbol (JObj members) = Raise (HTTPException 404 (NoData symbol)))
  /\ (forall members chart first rest,
         lookup members (lit "chart") = Some (JObj chart) ->
         lookup chart (lit "result") = Some (JArr (JObj first :: rest)) ->
         lookup first (lit "indicators") = None ->
         validate symbol (JObj members)
         = Raise (HTTPException 404 (NoPriceData symbol)))
  /\ (forall members chart first rest indicators,
         lookup members (lit "chart") = Some (JObj chart) ->
         lookup chart (lit "result") = Some (JArr (JObj first :: rest)) ->
         lookup first (lit "indicators") = Some (JObj indicators) ->
         lookup indicators (lit "quote") = None ->
         validate symbol (JObj members)
         = Raise (HTTPException 404 (NoPriceData symbol)))
  /\ (forall members chart first rest indicators quote quotes close,
         lookup members (lit "chart") = Some (JObj chart) ->
         lookup chart (lit "result") = Some (JArr (JObj first :: rest)) ->
         lookup first (lit "indicators") = Some (JObj indicators) ->
         lookup indicators (lit "quote") = Some (JArr (JObj quote :: quotes)) ->
         match lookup quote (lit "close") with
         | Some c => c
         | None => JArr []
         end = JArr close ->
         filter is_not_none close = [] ->
         validate symbol (JObj members)
         = Raise (HTTPException 404 (NoClosingData symbol))).
Proof.
  unfold validate, py_in, getitem, getitem0, get, not_none_items, iterate.
  repeat split; intros;
    repeat match goal with
           | H : lookup _ _ = _ |- _ => rewrite H; clear H
           | H : truthy _ = _ |- _ => rewrite H; clear H
           | H : match _ with Some _ => _ | None => _ end = _ |- _ => rewrite H; clear H
           | H : filter _ _ = _ |- _ => rewrite H; clear H
           | _ => progress cbn [Py.bind negb truthy length Nat.eqb]
           end;
    reflexivity.
Qed.

(** ** Period resolution *)

Section PeriodFacts.

Local Open Scope Z_scope.

Lemma dict_get_absent {V} (d : list (str * V)) key default :
  ~ In key (map fst d) -> dict_get d key default = default.
Proof.
  induction d as [|[k v] d IH]; intros Hn; [reflexivity|].
  cbn [dict_get]. destruct (str_eqb k key) eqn:E.
  - apply str_eqb_eq in E. subst. elim Hn. now left.
  - apply IH. intros H. apply Hn. now right.
Qed.

(** X1. A period token that is not a key of the table resolves to the
    default of [dict.get]: 2592000 seconds, the value of "1mo", whatever
    the clock says. *)
Theorem period_seconds_unknown_token now1 now2 period
  (Hunknown : ~ In period (map fst (period_map now1 now2))) :
  period_seconds now1 now2 period = 2592000
  /\ period_seconds now1 now2 period = period_seconds now1 now2 (lit "1mo").
Proof.
  unfold period_seconds at 1 2. rewrite dict_get_absent by assumption.
  split; reflexivity.
Qed.

(** X1, witness: the token "7d". *)
Lemma period_seconds_unknown_token_witness :
  period_seconds midyear midyear (lit "7d") = 2592000
  /\ period_seconds midyear midyear (lit "7d")
     = period_seconds midyear midyear (lit "1mo").
Proof.
  apply period_seconds_unknown_token.
  cbn. intros H. repeat (destruct H as [H|H]; [discriminate H|]). exact H.
Defined.

(** X2. For every token other than "ytd", known or not, the duration does
    not depend on the clock, is a whole number of days, and lies between
    one day and fifty years of 365 days. *)
Theorem period_seconds_fixed_tokens period :
  period <> lit "ytd" ->
  forall now1 now2 now1' now2',
    period_seconds now1 now2 period = period_seconds now1' now2' period
    /\ 86400 <= period_seconds now1 now2 period <= 50 * 365 * 86400
    /\ period_seconds now1 now2 period mod 86400 = 0.
Proof.
  intros Hne now1 now2 now1' now2'.
  unfold period_seconds, period_map. cbn [dict_get].
  repeat match goal with
         | |- context [str_eqb ?k period] =>
             let E := fresh "E" in
             destruct (str_eqb k period) eqn:E;
             [try (repeat split; (reflexivity || lia));
              apply str_eqb_eq in E; congruence|]
         end.
  repeat split; (reflexivity || lia).
Qed.

(** X2, witness: the token "5y" at two different pairs of readings. *)
Lemma period_seconds_fixed_tokens_witness :
  period_seconds midyear new_year (lit "5y") = period_seconds new_year midyear (lit "5y")
  /\ 86400 <= period_seconds midyear new_year (lit "5y") <= 50 * 365 * 86400
  /\ period_seconds midyear new_year (lit "5y") mod 86400 = 0.
Proof.
  apply period_seconds_fixed_tokens. discriminate.
Defined.

Lemma days_before_next_year y :
  days_before_year (y + 1) = days_before_year y + days_in_year y.
Proof.
  unfold days_before_year, days_in_year, is_leap.
  replace (y + 1 - 1) with y by lia.
  assert (H4 : y / 4 = (y - 1) / 4 + (if y mod 4 =? 0 then 1 else 0)).
  { destruct (Z.eqb_spec (y mod 4) 0); Z.div_mod_to_equations; lia. }
  assert (H100 : y / 100 = (y - 1) / 100 + (if y mod 100 =? 0 then 1 else 0)).
  { destruct (Z.eqb_spec (y mod 100) 0); Z.div_mod_to_equations; lia. }
  assert (H400 : y / 400 = (y - 1) / 400 + (if y mod 400 =? 0 then 1 else 0)).
  { destruct (Z.eqb_spec (y mod 400) 0); Z.div_mod_to_equations; lia. }
  rewrite H4, H100, H400.
  destruct (Z.eqb_spec (y mod 4) 0); destruct (Z.eqb_spec (y mod 100) 0);
    destruct (Z.eqb_spec (y mod 400) 0); cbn [andb orb negb];
    Z.div_mod_to_equations; lia.
Qed.

(** X3. When both clock readings fall in the same year, the "ytd"
    duration is the number of whole seconds elapsed since 1 January
    00:00:00: it is not negative and stays below 366 days. *)
Theorem ytd_within_a_year now1 now2 :
  year now1 = year now2 -> well_formed now1 ->
  0 <= period_seconds now1 now2 (lit "ytd") < 366 * 86400
  /\ period_seconds now1 now2 (lit "ytd") = micros now1 / 1000000.
Proof.
  intros Hy (_ & Hm & HM). rewrite period_seconds_ytd.
  unfold int_total_seconds, minus, jan1. cbn [year micros]. rewrite Hy.
  replace ((days_before_year (year now2) - days_before_year (year now2)) * micros_per_day
           + (micros now1 - 0)) with (micros now1) by lia.
  rewrite Z.quot_div_nonneg by lia.
  assert (Hd : days_in_year (year now1) <= 366)
    by (unfold days_in_year; destruct (is_leap _); lia).
  unfold micros_per_day in *.
  split; [|reflexivity]. split.
  - apply Z.div_pos; lia.
  - apply Z.div_lt_upper_bound; lia.
Qed.

(** X3, witness: noon of 1 July 2024. *)
Lemma ytd_within_a_year_witness :
  0 <= period_seconds midyear midyear (lit "ytd") < 366 * 86400
  /\ period_seconds midyear midyear (lit "ytd") = micros midyear / 1000000.
Proof.
  apply ytd_within_a_year; [reflexivity|].
  unfold well_formed, midyear; cbn. lia.
Defined.

(** X4. When the year changes between the two clock readings taken
    inside [get_period_seconds], the "ytd" duration is measured from
    1 January of the new year and is not positive: the call that is issued
    has [period1 >= period2], strictly so when a second or more of the old
    year was left. *)
Theorem ytd_across_new_year P symbol interval w :
  let now1 := clock P (ticks w) in
  let now2 := clock P (S (ticks w)) in
  year now2 = year now1 + 1 -> well_formed now1 ->
  exists c,
    calls (snd (fetch_yahoo_data P symbol (lit "ytd") interval w)) = c :: calls w
    /\ period2 c <= period1 c
    /\ (1000000 <= days_in_year (year now1) * micros_per_day - micros now1 ->
        period2 c < period1 c).
Proof.
  intros now1 now2 Hy (_ & Hm & HM).
  eexists. split; [apply fetch_issues_one_call|].
  cbn [period1 period2]. fold now1 now2.
  rewrite period_seconds_ytd.
  unfold int_total_seconds, minus, jan1. cbn [year micros].
  rewrite Hy, days_before_next_year.
  set (rest := days_in_year (year now1) * micros_per_day - micros now1) in *.
  replace ((days_before_year (year now1)
            - (days_before_year (year now1) + days_in_year (year now1))) * micros_per_day
           + (micros now1 - 0)) with (- rest) by (unfold rest; lia).
  assert (Hrest : 0 < rest) by (unfold rest; lia).
  rewrite Z.quot_opp_l by lia. rewrite Z.quot_div_nonneg by lia.
  assert (0 <= rest / 1000000) by (apply Z.div_pos; lia).
  split; [lia|]. intros H1.
  assert (0 < rest / 1000000) by (apply Z.div_str_pos; lia). lia.
Qed.

(** X4, witness: the first reading a second and a half before the end of
    2024, the next ones in 2025. *)
Lemma ytd_across_new_year_witness :
  exists c,
    calls (snd (fetch_yahoo_data
                  (platform_with rollover_clock (Response 200 (Some empty_quote_doc)))
                  (lit "THYAO.IS") (lit "ytd") (lit "1d") start_world))
    = c :: calls start_world
    /\ period2 c <= period1 c
    /\ (1000000 <= days_in_year (year (rollover_clock 0)) * micros_per_day
                   - micros (rollover_clock 0) ->
        period2 c < period1 c).
Proof.
  apply (ytd_across_new_year
           (platform_with rollover_clock (Response 200 (Some empty_quote_doc)))
           (lit "THYAO.IS") (lit "1d") start_world).
  - reflexivity.
  - unfold well_formed; cbn. lia.
Defined.

End PeriodFacts.

(** ** The fetch and the handler, outcome by outcome *)

Lemma token_accepted P : token_differs P (Some (API_SECRET P)) = false.
Proof. unfold token_differs. now rewrite str_eqb_refl. Qed.

(** One run of [fetch_yahoo_data]: three clock readings, one remote call,
    and an outcome decided by the provider's reply. *)
Lemma fetch_run P symbol period interval w :
  let c := {| url_symbol := symbol;
              period1 := epoch_seconds P (clock P (S (S (ticks w))))
                         - period_seconds (clock P (ticks w)) (clock P (S (ticks w))) period;
              period2 := epoch_seconds P (clock P (S (S (ticks w))));
              interval := interval |}%Z in
  fetch_yahoo_data P symbol period interval w
  = (match provider P c with
     | NoResponse => Raise (Builtin RequestException)
     | Response status body =>
         if (status =? 200)%Z
         then match body with
              | None => Raise (Builtin ValueError)
              | Some doc => validate symbol doc
              end
         else Raise (HTTPException status YahooApiError)
     end,
     {| ticks := S (S (S (ticks w))); calls := c :: calls w |}).
Proof.
  intros c.
  unfold fetch_yahoo_data, get_period_seconds, mbind, now, ret, requests_get, raise, lift.
  cbn [ticks calls]. fold c.
  destruct (provider P c) as [|status body]; [reflexivity|].
  destruct (status =? 200)%Z; cbn [negb]; [|reflexivity].
  destruct body; reflexivity.
Qed.

(** X5. With the right token the handler reads the clock three times and
    issues exactly one remote call, whatever comes back: for the
    normalised symbol, with the interval of the request, and with
    [period2] the time of the third reading. *)
Theorem analyze_issues_one_call P request w :
  let out := analyze_stock P request (Some (API_SECRET P)) w in
  ticks (snd out) = 3 + ticks w
  /\ exists c,
       calls (snd out) = c :: calls w
       /\ url_symbol c = Symbol.normalize (upper_full P) (req_symbol request)
       /\ interval c = req_interval request
       /\ period2 c = epoch_seconds P (clock P (2 + ticks w)).
Proof.
  cbn zeta. unfold analyze_stock. rewrite token_accepted.
  unfold mbind, guarded, lift. rewrite fetch_run.
  destruct (provider P _) as [|status body];
    [|destruct (status =? 200)%Z;
      [destruct body as [doc|];
       [destruct (validate _ doc) as [data|[e|s d]]|]|]];
    cbn [snd ticks calls];
    (split; [reflexivity|]); eexists; repeat split; reflexivity.
Qed.

(** X6. A reply whose status is not 200 leaves the handler as an
    [HTTPException] with that same status and the detail "Yahoo Finance
    API error"; the body is not looked at. *)
Theorem analyze_upstream_status P request w status body
  (Hreply : forall c, provider P c = Response status body)
  (Hstatus : status <> 200%Z) :
  fst (analyze_stock P request (Some (API_SECRET P)) w)
  = Raise (HTTPException status YahooApiError).
Proof.
  unfold analyze_stock. rewrite token_accepted.
  unfold mbind, guarded, lift. rewrite fetch_run, Hreply.
  apply Z.eqb_neq in Hstatus. rewrite Hstatus. reflexivity.
Qed.

(** X6, witness: the provider answers 503. *)
Lemma analyze_upstream_status_witness :
  fst (analyze_stock (platform_with (fun _ => midyear) (Response 503 None))
                     (thyao "1mo") (Some (lit "merf_stock_secret_123")) start_world)
  = Raise (HTTPException 503 YahooApiError).
Proof.
  apply (analyze_upstream_status
           (platform_with (fun _ => midyear) (Response 503 None))
           (thyao "1mo") start_world 503 None).
  - reflexivity.
  - discriminate.
Defined.

(** X7. A request that gets no response, and a 200 response whose body is
    not JSON, both end as a 500 whose detail carries the exception of the
    fetch. *)
Theorem analyze_transport_failures P request w :
  ((forall c, provider P c = NoResponse) ->
   fst (analyze_stock P request (Some (API_SECRET P)) w)
   = Raise (HTTPException 500 (FetchError RequestException)))
  /\ ((forall c, provider P c = Response 200 None) ->
      fst (analyze_stock P request (Some (API_SECRET P)) w)
      = Raise (HTTPException 500 (FetchError ValueError))).
Proof.
  split; intros Hreply; unfold analyze_stock; rewrite token_accepted;
    unfold mbind, guarded, lift; rewrite fetch_run, Hreply; reflexivity.
Qed.

(** ** What the validation returns *)

Lemma py_in_raises k v e : py_in k v = Raise e -> exists b, e = Builtin b.
Proof. destruct v; cbn; intros [= <-] || discriminate; eauto. Qed.

Lemma getitem_raises v k e : getitem v k = Raise e -> exists b, e = Builtin b.
Proof.
  destruct v; cbn; try (intros [= <-]; eauto).
  destruct (lookup members k); [discriminate | intros [= <-]; eauto].
Qed.

Lemma getitem0_raises v e : getitem0 v = Raise e -> exists b, e = Builtin b.
Proof.
  destruct v as [| | | |[|]|[|]|]; cbn; try discriminate; intros [= <-]; eauto.
Qed.

Lemma get_raises v k d e : get v k d = Raise e -> exists b, e = Builtin b.
Proof. destruct v; cbn; try discriminate; intros [= <-]; eauto. Qed.

Lemma iterate_raises v e : iterate v = Raise e -> exists b, e = Builtin b.
Proof. destruct v; cbn; try discriminate; intros [= <-]; eauto. Qed.

Lemma last_item_raises l e : last_item l = Raise e -> exists b, e = Builtin b.
Proof. unfold last_item. destruct (rev l); [intros [= <-]; eauto | discriminate]. Qed.

Lemma last_item_nonempty l : l <> [] -> exists x, last_item l = Ok x.
Proof.
  intros H. unfold last_item. destruct (rev l) eqn:E; [|eauto].
  apply (f_equal (@rev json)) in E. rewrite rev_involutive in E. contradiction.
Qed.

(** Inversion of a chain of binds that ends in an [HTTPException]. *)
Ltac http_inv H :=
  lazymatch type of H with
  | Py.bind ?c _ = Raise (HTTPException _ _) =>
      let E := fresh "E" in
      let e := fresh "e" in
      destruct c as [?|e] eqn:E; cbn [Py.bind] in H;
      [ http_inv H | injection H as ->; http_inv E ]
  | (if ?b then _ else _) = Raise (HTTPException _ _) =>
      destruct b; http_inv H
  | Ok _ = Raise _ => discriminate H
  | Raise (HTTPException _ _) = Raise (HTTPException _ _) =>
      injection H as <- <-
  | py_in _ _ = Raise _ => apply py_in_raises in H; destruct H; discriminate
  | getitem _ _ = Raise _ => apply getitem_raises in H; destruct H; discriminate
  | getitem0 _ = Raise _ => apply getitem0_raises in H; destruct H; discriminate
  | get _ _ _ = Raise _ => apply get_raises in H; destruct H; discriminate
  | iterate _ = Raise _ => apply iterate_raises in H; destruct H; discriminate
  | last_item _ = Raise _ => apply last_item_raises in H; destruct H; discriminate
  end.

(** X8. The only [HTTPException]s the validation raises are the three
    404s, and their detail names the symbol that was passed in. *)
Theorem validate_http_errors symbol doc status d :
  validate symbol doc = Raise (HTTPException status d) ->
  status = 404%Z
  /\ (d = NoData symbol \/ d = NoPriceData symbol \/ d = NoClosingData symbol).
Proof.
  unfold validate, not_none_items. intros H.
  http_inv H; auto.
Qed.

(** X8, witness: a close array that holds nulls only. *)
Lemma validate_http_errors_witness :
  404%Z = 404%Z
  /\ (NoClosingData (lit "X") = NoData (lit "X")
      \/ NoClosingData (lit "X") = NoPriceData (lit "X")
      \/ NoClosingData (lit "X") = NoClosingData (lit "X")).
Proof.
  apply (validate_http_errors (lit "X") (closes_doc [JNull; JNull])).
  reflexivity.
Defined.

(** Everything a successful validation has read from the document. *)
Lemma validate_ok_inv symbol doc data :
  validate symbol doc = Ok data ->
  exists chart results result indicators quotes quote close items meta last,
    getitem doc (lit "chart") = Ok chart
    /\ getitem chart (lit "result") = Ok results
    /\ getitem0 results = Ok result
    /\ getitem result (lit "indicators") = Ok indicators
    /\ getitem indicators (lit "quote") = Ok quotes
    /\ getitem0 quotes = Ok quote
    /\ get quote (lit "close") (JArr []) = Ok close
    /\ iterate close = Ok items
    /\ data_closes data = filter is_not_none items
    /\ (length (data_closes data) =? 0) = false
    /\ getitem result (lit "meta") = Ok meta
    /\ getitem meta (lit "symbol") = Ok (data_symbol data)
    /\ get meta (lit "currency") (JStr (lit "TRY")) = Ok (data_currency data)
    /\ last_item (data_closes data) = Ok last
    /\ get meta (lit "regularMarketPrice") last = Ok (data_regularMarketPrice data).
Proof.
  unfold validate, not_none_items. intros H.
  bind_inv H.
  injection H as <-. cbn [data_closes data_symbol data_currency data_regularMarketPrice].
  match goal with
  | E : Py.bind (iterate ?v) _ = Ok _ |- _ =>
      destruct (iterate v) as [items|] eqn:Ei; cbn [Py.bind] in E;
      [injection E as <- | discriminate E]
  end.
  do 10 eexists. repeat split; eassumption.
Qed.

Lemma validate_ok_nonempty symbol doc data :
  validate symbol doc = Ok data -> data_closes data <> [].
Proof.
  intros H.
  destruct (validate_ok_inv _ _ _ H)
    as (chart & results & result & indicators & quotes & quote & close & items
        & meta & last & _ & _ & _ & _ & _ & _ & _ & _ & _ & H10 & _).
  intros E. rewrite E in H10. discriminate.
Qed.

(** X9. The closes of a successful validation are the entries of the
    close array of the first quote of the first result, in order, with the
    nulls dropped: the list is not empty and holds no null. *)
Theorem validate_closes_clean symbol doc data :
  validate symbol doc = Ok data ->
  data_closes data <> []
  /\ Forall (fun c => c <> JNull) (data_closes data)
  /\ exists items,
       close_entries doc = Ok items
       /\ data_closes data = filter is_not_none items.
Proof.
  intros H.
  destruct (validate_ok_inv _ _ _ H)
    as (chart & results & result & indicators & quotes & quote & close & items
        & meta & last & H1 & H2 & H3 & H4 & H5 & H6 & H7 & H8 & H9 & H10 & _).
  split; [|split].
  - intros E. rewrite E in H10. discriminate.
  - rewrite H9. apply Forall_forall. intros c Hc.
    apply filter_In in Hc as [_ Hc]. intros ->. discriminate.
  - exists items. split; [|exact H9].
    unfold close_entries. rewrite H1; cbn [Py.bind]. rewrite H2; cbn [Py.bind].
    rewrite H3; cbn [Py.bind]. rewrite H4; cbn [Py.bind]. rewrite H5; cbn [Py.bind].
    rewrite H6; cbn [Py.bind]. rewrite H7; cbn [Py.bind]. exact H8.
Qed.

(** X9, witness: the closes 3.0, null, 4.0. *)
Lemma validate_closes_clean_witness :
  data_closes {| data_symbol := JStr (lit "THYAO.IS");
                 data_closes := [JNum 3; JNum 4];
                 data_currency := JStr (lit "TRY");
                 data_regularMarketPrice := JNum 4 |} <> []
  /\ Forall (fun c => c <> JNull)
            (data_closes {| data_symbol := JStr (lit "THYAO.IS");
                            data_closes := [JNum 3; JNum 4];
                            data_currency := JStr (lit "TRY");
                            data_regularMarketPrice := JNum 4 |})
  /\ exists items,
       close_entries (closes_doc [JNum 3; JNull; JNum 4]) = Ok items
       /\ data_closes {| data_symbol := JStr (lit "THYAO.IS");
                         data_closes := [JNum 3; JNum 4];
                         data_currency := JStr (lit "TRY");
                         data_regularMarketPrice := JNum 4 |}
          = filter is_not_none items.
Proof.
  apply (validate_closes_clean (lit "THYAO.IS") (closes_doc [JNum 3; JNull; JNum 4])).
  reflexivity.
Defined.

(** X10. A successful validation takes the symbol from [meta]; the
    currency is the one of [meta], or "TRY" when [meta] has none; the
    regular market price is the one of [meta], or the last close when
    [meta] has none. *)
Theorem validate_meta_defaults symbol doc data :
  validate symbol doc = Ok data ->
  exists members last,
    meta_of doc = Ok (JObj members)
    /\ last_item (data_closes data) = Ok last
    /\ lookup members (lit "symbol") = Some (data_symbol data)
    /\ data_currency data
       = match lookup members (lit "currency") with
         | Some c => c
         | None => JStr (lit "TRY")
         end
    /\ data_regularMarketPrice data
       = match lookup members (lit "regularMarketPrice") with
         | Some p => p
         | None => last
         end.
Proof.
  intros H.
  destruct (validate_ok_inv _ _ _ H)
    as (chart & results & result & indicators & quotes & quote & close & items
        & meta & last & H1 & H2 & H3 & _ & _ & _ & _ & _ & _ & _
        & H11 & H12 & H13 & H14 & H15).
  destruct meta as [| | | | | |members]; try discriminate H12.
  exists members, last.
  split.
  { unfold meta_of. rewrite H1; cbn [Py.bind]. rewrite H2; cbn [Py.bind].
    rewrite H3; cbn [Py.bind]. exact H11. }
  split; [exact H14|].
  cbn [getitem get] in H12, H13, H15.
  destruct (lookup members (lit "symbol")); [|discriminate H12].
  repeat split; congruence.
Qed.

(** X10, witness: a [meta] with a symbol only. *)
Lemma validate_meta_defaults_witness :
  exists members last,
    meta_of (closes_doc [JNum 3; JNull; JNum 4]) = Ok (JObj members)
    /\ last_item (data_closes
                    {| data_symbol := JStr (lit "THYAO.IS");
                       data_closes := [JNum 3; JNum 4];
                       data_currency := JStr (lit "TRY");
                       data_regularMarketPrice := JNum 4 |}) = Ok last
    /\ lookup members (lit "symbol") = Some (JStr (lit "THYAO.IS"))
    /\ JStr (lit "TRY")
       = match lookup members (lit "currency") with
         | Some c => c
         | None => JStr (lit "TRY")
         end
    /\ JNum 4
       = match lookup members (lit "regularMarketPrice") with
         | Some p => p
         | None => last
         end.
Proof.
  apply (validate_meta_defaults (lit "THYAO.IS") (closes_doc [JNum 3; JNull; JNum 4])
           {| data_symbol := JStr (lit "THYAO.IS");
              data_closes := [JNum 3; JNum 4];
              data_currency := JStr (lit "TRY");
              data_regularMarketPrice := JNum 4 |}).
  reflexivity.
Defined.

(** X11. A first result with usable closes but no "meta" key is not
    answered by a 404: building the returned dict raises KeyError. *)
Theorem validate_missing_meta symbol members chart first rest indicators
        quote quotes close :
  lookup members (lit "chart") = Some (JObj chart) ->
  lookup chart (lit "result") = Some (JArr (JObj first :: rest)) ->
  lookup first (lit "indicators") = Some (JObj indicators) ->
  lookup indicators (lit "quote") = Some (JArr (JObj quote :: quotes)) ->
  lookup quote (lit "close") = Some (JArr close) ->
  filter is_not_none close <> [] ->
  lookup first (lit "meta") = None ->
  validate symbol (JObj members) = Raise (Builtin KeyError).
Proof.
  intros H1 H2 H3 H4 H5 H6 H7.
  unfold validate, py_in, getitem, getitem0, get, not_none_items, iterate.
  rewrite H1; cbn [Py.bind negb]. rewrite H2; cbn [Py.bind negb truthy length Nat.eqb].
  rewrite H3; cbn [Py.bind negb]. rewrite H4; cbn [Py.bind negb].
  rewrite H5; cbn [Py.bind].
  destruct (filter is_not_none close) as [|c cs]; [contradiction|].
  cbn [length Nat.eqb]. rewrite H7. reflexivity.
Qed.

(** X11, witness: a result that has indicators only. *)
Lemma validate_missing_meta_witness :
  validate (lit "X")
    (JObj [(lit "chart",
            JObj [(lit "result",
                   JArr [JObj [(lit "indicators",
                                JObj [(lit "quote",
                                       JArr [JObj [(lit "close", JArr [JNum 1])]])])]])])])
  = Raise (Builtin KeyError).
Proof.
  eapply validate_missing_meta; try reflexivity. discriminate.
Defined.

(** ** The exceptions of the handler *)

Lemma analyze_accepted_errors P request token w :
  token_differs P token = false ->
  match fst (analyze_stock P request token w) with
  | Ok _ => True
  | Raise e => analysis_error e /\ e <> HTTPException 401 Unauthorized
  end.
Proof.
  intros Htoken. unfold analyze_stock. rewrite Htoken.
  unfold mbind, guarded, lift. rewrite fetch_run.
  destruct (provider P _) as [|status body]; [split; [constructor | discriminate]|].
  destruct (Z.eqb_spec status 200) as [->|Hne];
    [|split; [now constructor | discriminate]].
  destruct body as [doc|]; [|split; [constructor | discriminate]].
  destruct (validate _ doc) as [data|[e|status d]] eqn:Hv;
    [| split; [constructor | discriminate] |].
  - cbn [fst].
    assert (Hne := validate_ok_nonempty _ _ _ Hv).
    destruct (last_item_nonempty _ Hne) as [lj ->]. cbn [Py.bind].
    destruct (data_closes data) as [|fj rest] eqn:Ec; [contradiction|].
    cbn [getitem0 Py.bind].
    destruct (json_sub lj fj) as [df|e] eqn:Es; cbn [Py.bind];
      [|destruct (json_sub_raises _ _ _ Es) as [-> | ->];
        (split; [constructor | discriminate])].
    destruct (as_num fj) as [st|e] eqn:En; cbn [Py.bind];
      [|apply as_num_raises in En; subst; split; [constructor | discriminate]].
    destruct (num_truediv df st) as [q|e] eqn:Eq; cbn [Py.bind];
      [|destruct (num_truediv_raises _ _ _ Eq) as [-> | ->];
        (split; [constructor | discriminate])].
    assert (Hr := calculate_rsi_of_cases (fj :: rest)).
    destruct (calculate_rsi_of (fj :: rest) 14) as [r|e]; cbn [Py.bind].
    + destruct (as_float lj) as [l|e] eqn:El; cbn [Py.bind]; [exact I|].
      destruct (as_float_raises _ _ El) as [-> | ->];
        (split; [constructor | discriminate]).
    + destruct Hr as [[-> | ->] _]; (split; [constructor | discriminate]).
  - cbn [fst]. unfold validate, not_none_items in Hv.
    http_inv Hv; (split; [constructor | discriminate]).
Qed.

(** X13. The handler answers 401 "Yetkisiz Erişim!" exactly when the
    token is not the configured secret: nothing that happens after the
    token test produces this error. *)
Theorem unauthorized_only_by_token P request token w :
  fst (analyze_stock P request token w) = Raise (HTTPException 401 Unauthorized)
  <-> token <> Some (API_SECRET P).
Proof.
  split.
  - intros H ->.
    assert (Ha := analyze_accepted_errors P request (Some (API_SECRET P)) w
                    (token_accepted P)).
    rewrite H in Ha. destruct Ha as [_ Ha]. now apply Ha.
  - intros Hne.
    assert (Hd : token_differs P token = true).
    { apply token_differs_iff. destruct token as [t|]; [right | now left].
      exists t. split; [reflexivity|]. intros ->. now apply Hne. }
    unfold analyze_stock. rewrite Hd. reflexivity.
Qed.

(** X14. Up to the construction of the response object, the exceptions
    that leave the handler are: the 401 of the token test; the provider's
    own non-200 status; the three 404s of the validation; a 500 that
    wraps any other exception of the fetch; and, from the arithmetic after
    the [try], TypeError, ZeroDivisionError and, on integer closes too
    large for a float, OverflowError. *)
Theorem analyze_errors P request token w :
  match fst (analyze_stock P request token w) with
  | Ok _ => True
  | Raise e => analysis_error e
  end.
Proof.
  destruct (token_differs P token) eqn:Htoken.
  - unfold analyze_stock. rewrite Htoken. constructor.
  - assert (H := analyze_accepted_errors P request token w Htoken).
    destruct (fst (analyze_stock P request token w)); [exact I | apply H].
Qed.

(** ** The fields of the response *)

(** X15. In every response [data_points] is the number of entries of the
    provider's close array that are not null, which is at least one, and
    [period] is the period of the request as sent. *)
Theorem response_counts_closes P request token w resp w' :
  analyze_stock P request token w = (Ok resp, w') ->
  exists c doc items,
    provider P c = Response 200 (Some doc)
    /\ close_entries doc = Ok items
    /\ data_points resp = length (filter is_not_none items)
    /\ 1 <= data_points resp
    /\ period resp = req_period request.
Proof.
  intros H.
  destruct (analyze_ok_inv _ _ _ _ _ _ H)
    as (c & doc & data & fj & lj & df & st & ra & r & l
        & Hp & Hv & Hf & _ & _ & _ & _ & _ & _ & ->).
  destruct (validate_closes _ _ _ Hv) as (items & Hi & Hc).
  exists c, doc, items. cbn [data_points period].
  repeat split; try assumption.
  - now rewrite Hc.
  - destruct (data_closes data); [discriminate | cbn; lia].
Qed.

(** X15, witness: the closes 3.0, null, 4.0. *)
Lemma response_counts_closes_witness :
  exists c doc items,
    provider (platform_of midyear (closes_doc [JNum 3; JNull; JNum 4])) c
    = Response 200 (Some doc)
    /\ close_entries doc = Ok items
    /\ data_points
         {| symbol := JStr (lit "THYAO.IS"); price := 4; change_percent := 33.33;
            rsi := 50; recommendation := NEUTRAL; period := lit "1mo";
            data_points := 2 |}
       = length (filter is_not_none items)
    /\ 1 <= data_points
              {| symbol := JStr (lit "THYAO.IS"); price := 4; change_percent := 33.33;
                 rsi := 50; recommendation := NEUTRAL; period := lit "1mo";
                 data_points := 2 |}
    /\ period
         {| symbol := JStr (lit "THYAO.IS"); price := 4; change_percent := 33.33;
            rsi := 50; recommendation := NEUTRAL; period := lit "1mo";
            data_points := 2 |}
       = req_period (thyao "1mo").
Proof.
  apply (response_counts_closes
           (platform_of midyear (closes_doc [JNum 3; JNull; JNum 4]))
           (thyao "1mo") secret start_world _
           (snd (analyze_stock
                   (platform_of midyear (closes_doc [JNum 3; JNull; JNum 4]))
                   (thyao "1mo") secret start_world))).
  vm_compute. reflexivity.
Defined.

(** X16. In every response the RSI is NaN or lies in [0, 100], the
    recommendation is the one the thresholds give for that RSI, and a
    response over fewer than 15 closes has RSI 50.0 and the neutral
    recommendation. *)
Theorem response_rsi_and_recommendation P request token w resp w' :
  analyze_stock P request token w = (Ok resp, w') ->
  in_range (rsi resp)
  /\ recommendation resp = recommend (rsi resp)
  /\ (data_points resp < 15 ->
      rsi resp = 50%float /\ recommendation resp = NEUTRAL).
Proof.
  intros H.
  destruct (analyze_ok_inv _ _ _ _ _ _ H)
    as (c & doc & data & fj & lj & df & st & ra & r & l
        & _ & _ & _ & _ & _ & _ & _ & Hr & _ & ->).
  cbn [rsi recommendation data_points].
  assert (Hc := calculate_rsi_of_cases (data_closes data)). rewrite Hr in Hc.
  destruct Hc as [Hrange Hshort].
  split; [exact Hrange|]. split; [reflexivity|].
  intros Hlt. rewrite (Hshort Hlt). split; reflexivity.
Qed.

(** X16, witness: the closes 3.0, null, 4.0. *)
Lemma response_rsi_and_recommendation_witness :
  in_range (rsi {| symbol := JStr (lit "THYAO.IS"); price := 4;
                   change_percent := 33.33; rsi := 50; recommendation := NEUTRAL;
                   period := lit "1mo"; data_points := 2 |})
  /\ recommendation {| symbol := JStr (lit "THYAO.IS"); price := 4;
                       change_percent := 33.33; rsi := 50; recommendation := NEUTRAL;
                       period := lit "1mo"; data_points := 2 |}
     = recommend (rsi {| symbol := JStr (lit "THYAO.IS"); price := 4;
                         change_percent := 33.33; rsi := 50;
                         recommendation := NEUTRAL;
                         period := lit "1mo"; data_points := 2 |})
  /\ (data_points {| symbol := JStr (lit "THYAO.IS"); price := 4;
                     change_percent := 33.33; rsi := 50; recommendation := NEUTRAL;
                     period := lit "1mo"; data_points := 2 |} < 15 ->
      rsi {| symbol := JStr (lit "THYAO.IS"); price := 4;
             change_percent := 33.33; rsi := 50; recommendation := NEUTRAL;
             period := lit "1mo"; data_points := 2 |} = 50%float
      /\ recommendation {| symbol := JStr (lit "THYAO.IS"); price := 4;
                           change_percent := 33.33; rsi := 50;
                           recommendation := NEUTRAL;
                           period := lit "1mo"; data_points := 2 |} = NEUTRAL).
Proof.
  apply (response_rsi_and_recommendation
           (platform_of midyear (closes_doc [JNum 3; JNull; JNum 4]))
           (thyao "1mo") secret start_world _
           (snd (analyze_stock
                   (platform_of midyear (closes_doc [JNum 3; JNull; JNum 4]))
                   (thyao "1mo") secret start_world))).
  vm_compute. reflexivity.
Defined.

(** X17. In every response [price] is the last close that is not null,
    rounded to two places (the regular market price of [meta] is not
    used), and [symbol] is the symbol the provider reports in [meta]. *)
Theorem response_price_and_symbol P request token w resp w' :
  analyze_stock P request token w = (Ok resp, w') ->
  exists c doc items last_json last,
    provider P c = Response 200 (Some doc)
    /\ close_entries doc = Ok items
    /\ last_item (filter is_not_none items) = Ok last_json
    /\ as_float last_json = Ok last
    /\ price resp = round2 last
    /\ meta_symbol doc = Ok (symbol resp).
Proof.
  intros H.
  destruct (analyze_ok_inv _ _ _ _ _ _ H)
    as (c & doc & data & fj & lj & df & st & ra & r & l
        & Hp & Hv & _ & Hl & _ & _ & _ & _ & Hlf & ->).
  destruct (validate_closes _ _ _ Hv) as (items & Hi & Hc).
  destruct (validate_ok_inv _ _ _ Hv)
    as (chart & results & result & indicators & quotes & quote & close & items'
        & meta & last & H1 & H2 & H3 & _ & _ & _ & _ & _ & _ & _ & H11 & H12 & _).
  exists c, doc, items, lj, l. cbn [price symbol].
  rewrite <- Hc. repeat split; try assumption.
  unfold meta_symbol. rewrite H1; cbn [Py.bind]. rewrite H2; cbn [Py.bind].
  rewrite H3; cbn [Py.bind]. rewrite H11; cbn [Py.bind]. exact H12.
Qed.

(** X17, witness: the closes 3.0, null, 4.0. *)
Lemma response_price_and_symbol_witness :
  exists c doc items last_json last,
    provider (platform_of midyear (closes_doc [JNum 3; JNull; JNum 4])) c
    = Response 200 (Some doc)
    /\ close_entries doc = Ok items
    /\ last_item (filter is_not_none items) = Ok last_json
    /\ as_float last_json = Ok last
    /\ price {| symbol := JStr (lit "THYAO.IS"); price := 4;
                change_percent := 33.33; rsi := 50; recommendation := NEUTRAL;
                period := lit "1mo"; data_points := 2 |} = round2 last
    /\ meta_symbol doc
       = Ok (symbol {| symbol := JStr (lit "THYAO.IS"); price := 4;
                       change_percent := 33.33; rsi := 50;
                       recommendation := NEUTRAL;
                       period := lit "1mo"; data_points := 2 |}).
Proof.
  apply (response_price_and_symbol
           (platform_of midyear (closes_doc [JNum 3; JNull; JNum 4]))
           (thyao "1mo") secret start_world _
           (snd (analyze_stock
                   (platform_of midyear (closes_doc [JNum 3; JNull; JNum 4]))
                   (thyao "1mo") secret start_world))).
  vm_compute. reflexivity.
Defined.

(** ** Arithmetic after the [try] *)

(** X18. When the first close is zero the percentage change divides by
    it after the [try]: ZeroDivisionError leaves the handler as it is, not
    as an [HTTPException]. *)
Theorem analyze_zero_first_close P request w doc data first last_json last
  (Hreply : forall c, provider P c = Response 200 (Some doc))
  (Hvalid : validate (Symbol.normalize (upper_full P) (req_symbol request)) doc
            = Ok data)
  (Hfirst : hd_error (data_closes data) = Some (JNum first))
  (Hzero : (first =? 0)%float = true)
  (Hlast : last_item (data_closes data) = Ok last_json)
  (Hnum : as_float last_json = Ok last) :
  fst (analyze_stock P request (Some (API_SECRET P)) w)
  = Raise (Builtin ZeroDivisionError).
Proof.
  unfold analyze_stock. rewrite token_accepted.
  unfold mbind, guarded, lift. rewrite fetch_run, Hreply, Hvalid.
  cbn [Z.eqb Pos.eqb fst]. rewrite Hlast. cbn [Py.bind].
  destruct (data_closes data) as [|fj rest]; [discriminate|].
  injection Hfirst as ->. cbn [getitem0 Py.bind].
  unfold as_float in Hnum. unfold json_sub.
  destruct (as_num last_json) as [a|] eqn:Ea; cbn [Py.bind] in Hnum |- *;
    [|discriminate Hnum].
  cbn [as_num Py.bind].
  assert (Hs : num_sub a (PyFloat first) = Ok (PyFloat (last - first)%float)).
  { destruct a; cbn [num_sub to_float Py.bind] in *.
    - rewrite Hnum. reflexivity.
    - now injection Hnum as ->. }
  rewrite Hs. cbn [Py.bind num_truediv to_float].
  unfold truediv. rewrite Hzero. reflexivity.
Qed.

(** X18, witness: the closes 0.0, 5.0. *)
Lemma analyze_zero_first_close_witness :
  fst (analyze_stock (platform_of midyear (closes_doc [JNum 0; JNum 5]))
                     (thyao "1mo") (Some (lit "merf_stock_secret_123")) start_world)
  = Raise (Builtin ZeroDivisionError).
Proof.
  apply (analyze_zero_first_close
           (platform_of midyear (closes_doc [JNum 0; JNum 5]))
           (thyao "1mo") start_world (closes_doc [JNum 0; JNum 5])
           {| data_symbol := JStr (lit "THYAO.IS");
              data_closes := [JNum 0; JNum 5];
              data_currency := JStr (lit "TRY");
              data_regularMarketPrice := JNum 5 |}
           0%float (JNum 5) 5%float); reflexivity.
Defined.

(** ** What the [try] catches and what it lets through *)

(** X19. The [try] around the fetch lets an [HTTPException] of the
    validation through unchanged, for the normalised symbol, and turns
    any other exception of the validation into a 500 that carries it. *)
Theorem analyze_validation_failures P request w doc
  (Hreply : forall c, provider P c = Response 200 (Some doc)) :
  let symbol := Symbol.normalize (upper_full P) (req_symbol request) in
  (forall status d,
      validate symbol doc = Raise (HTTPException status d) ->
      fst (analyze_stock P request (Some (API_SECRET P)) w)
      = Raise (HTTPException status d))
  /\ (forall e,
         validate symbol doc = Raise (Builtin e) ->
         fst (analyze_stock P request (Some (API_SECRET P)) w)
         = Raise (HTTPException 500 (FetchError e))).
Proof.
  cbn zeta. split; intros; unfold analyze_stock; rewrite token_accepted;
    unfold mbind, guarded, lift; rewrite fetch_run, Hreply; cbn [Z.eqb Pos.eqb];
    match goal with H : validate _ _ = _ |- _ => rewrite H end; reflexivity.
Qed.

(** X19, witness: a close array that holds a null only. *)
Lemma analyze_validation_failures_witness :
  let symbol := Symbol.normalize (upper_full (platform_of midyear (closes_doc [JNull])))
                                 (req_symbol (thyao "1mo")) in
  (forall status d,
      validate symbol (closes_doc [JNull]) = Raise (HTTPException status d) ->
      fst (analyze_stock (platform_of midyear (closes_doc [JNull])) (thyao "1mo")
                         (Some (API_SECRET (platform_of midyear (closes_doc [JNull]))))
                         start_world)
      = Raise (HTTPException status d))
  /\ (forall e,
         validate symbol (closes_doc [JNull]) = Raise (Builtin e) ->
         fst (analyze_stock (platform_of midyear (closes_doc [JNull])) (thyao "1mo")
                            (Some (API_SECRET (platform_of midyear (closes_doc [JNull]))))
                            start_world)
         = Raise (HTTPException 500 (FetchError e))).
Proof.
  apply (analyze_validation_failures (platform_of midyear (closes_doc [JNull]))
           (thyao "1mo") start_world (closes_doc [JNull])).
  reflexivity.
Defined.

(** X20. Entries of the close array are only tested for null: when the
    first or the last close is a string, an array or an object, the
    subtraction after the [try] raises TypeError, which leaves the handler
    as it is. *)
Theorem analyze_non_numeric_close P request w doc data first_json last_json
  (Hreply : forall c, provider P c = Response 200 (Some doc))
  (Hvalid : validate (Symbol.normalize (upper_full P) (req_symbol request)) doc
            = Ok data)
  (Hfirst : hd_error (data_closes data) = Some first_json)
  (Hlast : last_item (data_closes data) = Ok last_json)
  (Hbad : (exists e, as_num first_json = Raise e)
          \/ (exists e, as_num last_json = Raise e)) :
  fst (analyze_stock P request (Some (API_SECRET P)) w)
  = Raise (Builtin TypeError).
Proof.
  unfold analyze_stock. rewrite token_accepted.
  unfold mbind, guarded, lift. rewrite fetch_run, Hreply, Hvalid.
  cbn [Z.eqb Pos.eqb fst]. rewrite Hlast. cbn [Py.bind].
  destruct (data_closes data) as [|fj rest]; [discriminate|].
  injection Hfirst as ->. cbn [getitem0 Py.bind]. unfold json_sub.
  destruct (as_num last_json) as [l|e] eqn:El; cbn [Py.bind].
  - destruct Hbad as [[e He]|[e He]]; [|discriminate].
    rewrite He. apply as_num_raises in He. subst. reflexivity.
  - apply as_num_raises in El. subst. reflexivity.
Qed.

(** X20, witness: the closes 3.0, "4.0". *)
Lemma analyze_non_numeric_close_witness :
  fst (analyze_stock (platform_of midyear (closes_doc [JNum 3; JStr (lit "4.0")]))
                     (thyao "1mo") (Some (lit "merf_stock_secret_123")) start_world)
  = Raise (Builtin TypeError).
Proof.
  apply (analyze_non_numeric_close
           (platform_of midyear (closes_doc [JNum 3; JStr (lit "4.0")]))
           (thyao "1mo") start_world (closes_doc [JNum 3; JStr (lit "4.0")])
           {| data_symbol := JStr (lit "THYAO.IS");
              data_closes := [JNum 3; JStr (lit "4.0")];
              data_currency := JStr (lit "TRY");
              data_regularMarketPrice := JStr (lit "4.0") |}
           (JNum 3) (JStr (lit "4.0"))); try reflexivity.
  right. eexists. reflexivity.
Defined.

(** ** SymbolNormalizer: the shape of every result *)

(** X21. Whatever the input and the uppercase table, a normalised symbol
    is not empty; it is longer than five code points, ends with ".IS" or
    contains "USD"; and it is the uppercased input, with or without an
    appended ".IS". *)
Theorem normalize_normal_form (upper_full : codepoint -> str) (raw : str) :
  let symbol := Symbol.normalize upper_full raw in
  symbol <> []
  /\ (5 < length symbol
      \/ (exists q, symbol = q ++ lit ".IS")
      \/ (exists x y, symbol = x ++ lit "USD" ++ y))
  /\ (symbol = Symbol.upper upper_full raw
      \/ symbol = Symbol.upper upper_full raw ++ lit ".IS").
Proof.
  cbn zeta. unfold Symbol.normalize.
  set (u := Symbol.upper upper_full raw).
  destruct (length u <=? 5) eqn:Hlen; cbn [andb].
  - destruct (endswith u (lit ".IS")) eqn:Hend; cbn [andb negb].
    + apply endswith_spec in Hend. split; [|split; [right; left; exact Hend | now left]].
      destruct Hend as [q ->]. intros E. apply app_eq_nil in E as [_ E]. discriminate.
    + destruct (contains u (lit "USD")) eqn:Hc; cbn [negb].
      * apply contains_spec in Hc.
        split; [|split; [right; right; exact Hc | now left]].
        destruct Hc as (x & y & ->). intros E.
        apply app_eq_nil in E as [_ E]. discriminate.
      * split; [|split; [right; left; now exists u | now right]].
        intros E. apply app_eq_nil in E as [_ E]. discriminate.
  - apply Nat.leb_gt in Hlen.
    split; [|split; [left; exact Hlen | now left]].
    intros E. rewrite E in Hlen. cbn in Hlen. lia.
Qed.

(** ** RsiEngine: flat stretches and a zero window *)

Lemma Prim2SF_infinity : Prim2SF infinity = S754_infinity false.
Proof. reflexivity. Qed.

Lemma Prim2SF_finite x :
  is_finite x = true ->
  match Prim2SF x with
  | S754_zero _ | S754_finite _ _ _ => True
  | _ => False
  end.
Proof.
  unfold is_finite, is_nan, is_infinity.
  rewrite !eqb_spec, abs_spec, Prim2SF_infinity.
  destruct (Prim2SF x) as [s|s| |s m e]; try (intros _; exact I).
  - destruct s; cbn; discriminate.
  - cbn. discriminate.
Qed.

Lemma SFcompare_eq_sub a b :
  match a with S754_zero _ | S754_finite _ _ _ => True | _ => False end ->
  match b with S754_zero _ | S754_finite _ _ _ => True | _ => False end ->
  SFcompare a b = Some Eq ->
  exists s, SF64sub b a = S754_zero s.
Proof.
  intros Ha Hb.
  destruct a as [sa|sa| |sa ma ea], b as [sb|sb| |sb mb eb]; try contradiction.
  - intros _. destruct sa, sb; cbn; eauto.
  - destruct sb; discriminate.
  - destruct sa; discriminate.
  - unfold SFcompare.
    destruct sa, sb; try discriminate;
      destruct (Z.compare_spec ea eb) as [E|E|E]; try discriminate;
      destruct (Pos.compare_cont Eq ma mb) eqn:C; try discriminate;
      intros _; apply Pos.compare_eq in C; subst;
      exists false; unfold SF64sub, SFsub; rewrite Z.min_id, Z.sub_diag; reflexivity.
Qed.

(** A close that is not below the finite close before it adds no loss. *)
Lemma loss_of_step prev cur :
  is_finite prev = true -> is_finite cur = true ->
  (prev <=? cur)%float = true ->
  loss_of (cur - prev) = 0%float.
Proof.
  intros Fp Fc Hle. unfold loss_of.
  destruct (prev <? cur)%float eqn:Hlt.
  { now rewrite (sub_pos _ _ Hlt). }
  rewrite leb_spec in Hle. rewrite ltb_spec in Hlt.
  unfold SFleb in Hle. unfold SFltb in Hlt.
  destruct (SFcompare (Prim2SF prev) (Prim2SF cur)) as [[]|] eqn:C; try discriminate.
  destruct (SFcompare_eq_sub _ _ (Prim2SF_finite _ Fp) (Prim2SF_finite _ Fc) C)
    as [s Hs].
  assert (Hd : Prim2SF (cur - prev) = S754_zero s) by (rewrite sub_spec; exact Hs).
  replace (0 <? cur - prev)%float with false
    by (rewrite ltb_spec, Hd, Prim2SF_0; destruct s; reflexivity).
  apply Prim2SF_inj. rewrite abs_spec, Hd. reflexivity.
Qed.

Lemma losses_non_decreasing closes :
  Forall (fun x => is_finite x = true) closes ->
  non_decreasing closes = true ->
  map loss_of (deltas closes) = repeat 0%float (length (deltas closes)).
Proof.
  induction closes as [|prev rest IH]; [reflexivity|].
  destruct rest as [|cur rest]; [reflexivity|].
  cbn [non_decreasing deltas map length repeat]. intros Hf H.
  apply andb_prop in H as [Hle Hrest].
  inversion Hf as [|? ? Fp Hf']; subst. inversion Hf' as [|? ? Fc _]; subst.
  rewrite (loss_of_step _ _ Fp Fc Hle). f_equal. now apply IH.
Qed.

(** X22. For every series of at least 15 finite closes none of which is
    below the one before it, a flat series included, every loss is zero
    and the RSI with window 14 is exactly 100.0. *)
Theorem rsi_non_decreasing (closes : list float) :
  15 <= length closes ->
  Forall (fun x => is_finite x = true) closes ->
  non_decreasing closes = true ->
  calculate_rsi closes 14 = Ok 100%float.
Proof.
  intros Hlen Hfin Hmono. unfold calculate_rsi.
  replace (length closes <? 14 + 1) with false
    by (symmetry; apply Nat.ltb_ge; lia).
  rewrite length_map, length_deltas.
  replace (length closes - 1 <? 14) with false
    by (symmetry; apply Nat.ltb_ge; lia).
  rewrite (losses_non_decreasing _ Hfin Hmono).
  rewrite firstn_repeat, skipn_repeat, sum_zeros, !truediv_14.
  cbn [Py.bind].
  change (0 / 14)%float with 0%float.
  destruct (foldM_smooth_no_loss
              (skipn 14 (map gain_of (deltas closes)))
              (length (deltas closes) - 14)
              (sum (firstn 14 (map gain_of (deltas closes))) / 14)%float)
    as [g ->].
  reflexivity.
Qed.

(** X22, witness: sixteen closes of 7.0. *)
Lemma rsi_non_decreasing_witness :
  calculate_rsi flat 14 = Ok 100%float.
Proof.
  apply (rsi_non_decreasing flat).
  - cbn. lia.
  - repeat constructor.
  - reflexivity.
Defined.

(** X23. With a window of 0 and at least one close, the first average
    divides by the window: [calculate_rsi] raises ZeroDivisionError. *)
Theorem rsi_window_zero (closes : list float) :
  closes <> [] -> calculate_rsi closes 0 = Raise (Builtin ZeroDivisionError).
Proof.
  intros H. destruct closes as [|c rest]; [contradiction|].
  unfold calculate_rsi. cbn [length Nat.add Nat.ltb Nat.leb]. reflexivity.
Qed.

(** X23, witness: three closes. *)
Lemma rsi_window_zero_witness :
  calculate_rsi [1; 2; 3]%float 0 = Raise (Builtin ZeroDivisionError).
Proof. apply (rsi_window_zero [1; 2; 3]%float). discriminate. Defined.

(** ** RsiEngine: a falling series *)

Section Decline64.

Local Open Scope Z_scope.

Lemma Prim2SF_13 : Prim2SF 13 = S754_finite false 7318349394477056 (-49).
Proof. reflexivity. Qed.

Lemma Prim2SF_14 : Prim2SF 14 = S754_finite false 7881299347898368 (-49).
Proof. reflexivity. Qed.

Lemma binary_normalize_neg D ez :
  D < 0 -> L64 <= ez ->
  SFnegative (binary_normalize prec emax D ez false).
Proof.
  intros HD He. destruct D as [|D|D]; try lia. cbn [binary_normalize].
  assert (H := binary_round_ge 1 (-1074) ltac:(lia) ltac:(lia) true D ez He).
  unfold L64 in *.
  assert (0 < 2 ^ (ez - -1074)) by (apply pow2_pos; lia).
  change (1 * 2 ^ (-1074 - -1074)) with 1 in H.
  specialize (H ltac:(nia)).
  destruct (binary_round prec emax true D ez) as [s|s| |s m e]; try contradiction.
  - subst. exact I.
  - destruct H as [-> _]. exact I.
Qed.

(** On binary64, [a < b] makes [a - b] negative: never zero, never NaN. *)
Lemma SFsub_neg a b :
  valid_binary a = true -> valid_binary b = true ->
  SFltb a b = true -> SFnegative (SF64sub a b).
Proof.
  intros Va Vb Hlt.
  destruct a as [sa|sa| |sa ma ea], b as [sb|sb| |sb mb eb];
    try (destruct sa, sb; cbn in Hlt |- *; (discriminate || exact I));
    try (destruct sa; cbn in Hlt |- *; (discriminate || exact I));
    try (destruct sb; cbn in Hlt |- *; (discriminate || exact I));
    try discriminate.
  unfold SF64sub, SFsub.
  set (ez := Z.min ea eb).
  destruct (valid_digits _ _ _ Va) as (Hea & _).
  destruct (valid_digits _ _ _ Vb) as (Heb & _).
  destruct (shl_align_spec mb eb ez) as [[_ Eb] _]; [lia|].
  destruct (shl_align_spec ma ea ez) as [[_ Ea] _]; [lia|].
  set (b' := fst (shl_align mb eb ez)) in *.
  set (a' := fst (shl_align ma ea ez)) in *.
  assert (Hp : 0 < 2 ^ (ez - L64)) by (apply pow2_pos; unfold L64; lia).
  assert (Hb : Z.pos b' * 2 ^ (ez - L64) = Z.pos mb * 2 ^ (eb - L64)).
  { rewrite Eb, <- Z.mul_assoc, <- Z.pow_add_r by (unfold L64; lia).
    do 2 f_equal. lia. }
  assert (Ha : Z.pos a' * 2 ^ (ez - L64) = Z.pos ma * 2 ^ (ea - L64)).
  { rewrite Ea, <- Z.mul_assoc, <- Z.pow_add_r by (unfold L64; lia).
    do 2 f_equal. lia. }
  apply binary_normalize_neg; [|unfold L64; lia].
  unfold SFltb, SFcompare in Hlt.
  destruct sa, sb; cbn [cond_Zopp]; try discriminate; try lia.
  - assert (Hv : Zpos mb * 2 ^ (eb - L64) < Zpos ma * 2 ^ (ea - L64)).
    { apply (valid_lt_value true mb eb true ma ea Vb Va).
      destruct (Z.compare_spec ea eb) as [E|E|E]; try discriminate; [right|left; lia].
      split; [congruence|].
      destruct (Pos.compare_cont Eq ma mb) eqn:C; try discriminate.
      apply Pos.compare_gt_iff in C. exact C. }
    nia.
  - assert (Hv : Zpos ma * 2 ^ (ea - L64) < Zpos mb * 2 ^ (eb - L64)).
    { apply (valid_lt_value false ma ea false mb eb Va Vb).
      destruct (Z.compare_spec ea eb) as [E|E|E]; try discriminate; [right|left; lia].
      split; [congruence|].
      destruct (Pos.compare_cont Eq ma mb) eqn:C; try discriminate.
      apply Pos.compare_lt_iff in C. exact C. }
    nia.
Qed.

Lemma SFat_least_abs x :
  valid_binary x = true -> SFnegative x -> SFat_least 1 (SFabs x).
Proof.
  intros Hv Hx. destruct x as [s|[]| |[] m e]; try contradiction;
    cbn [SFabs SFat_least].
  - exact I.
  - apply valid_exponent in Hv. unfold L64.
    assert (0 < 2 ^ (e - -1074)) by (apply pow2_pos; lia).
    split; [lia | nia].
Qed.

Lemma SFat_least_positive n x : 0 < n -> SFat_least n x -> SFpositive x.
Proof.
  intros Hn. destruct x as [[]|[]| |[] m e]; cbn; try contradiction; try lia; auto.
Qed.

Lemma SFat_least_add a b x y :
  0 <= a -> 0 <= b -> 0 < a + b < 2 ^ 53 ->
  SFat_least a x -> SFat_least b y -> SFat_least (a + b) (SF64add x y).
Proof.
  intros Ha Hb Hab Hx Hy.
  destruct x as [[]|[]| |[] mx ex]; try contradiction;
    destruct y as [[]|[]| |[] my ey]; try contradiction;
    cbn [SFat_least] in Hx, Hy; try exact I.
  - lia.
  - cbn [SF64add SFadd SFat_least]. destruct Hy. split; [assumption | lia].
  - cbn [SF64add SFadd SFat_least]. destruct Hx. split; [assumption | lia].
  - destruct Hx as [Hex Hvx], Hy as [Hey Hvy].
    unfold SF64add, SFadd. cbn [cond_Zopp].
    set (ez := Z.min ex ey).
    destruct (shl_align_spec mx ex ez) as [[_ E1] _]; [lia|].
    destruct (shl_align_spec my ey ez) as [[_ E2] _]; [lia|].
    set (x' := fst (shl_align mx ex ez)) in *.
    set (y' := fst (shl_align my ey ez)) in *.
    change (Z.pos x' + Z.pos y') with (Z.pos (x' + y')). cbn [binary_normalize].
    assert (Hez : L64 <= ez) by lia.
    assert (H := binary_round_ge (a + b) (-1074) Hab ltac:(lia) false (x' + y') ez Hez).
    assert (Hp : 0 < 2 ^ (ez - L64)) by (apply pow2_pos; lia).
    assert (H1 : Z.pos x' * 2 ^ (ez - L64) = Z.pos mx * 2 ^ (ex - L64)).
    { rewrite E1, <- Z.mul_assoc, <- Z.pow_add_r by lia. do 2 f_equal. lia. }
    assert (H2 : Z.pos y' * 2 ^ (ez - L64) = Z.pos my * 2 ^ (ey - L64)).
    { rewrite E2, <- Z.mul_assoc, <- Z.pow_add_r by lia. do 2 f_equal. lia. }
    change (2 ^ (-1074 - L64)) with 1 in H. rewrite Z.mul_1_r in H.
    assert (Hv : a + b <= Z.pos (x' + y') * 2 ^ (ez - L64)).
    { rewrite Pos2Z.inj_add, Z.mul_add_distr_r, H1, H2. lia. }
    specialize (H Hv).
    destruct (binary_round prec emax false (x' + y') ez) as [s|s| |s m e];
      try contradiction.
    + subst. exact I.
    + destruct H as (-> & He & Hm). split; assumption.
Qed.

Lemma SFat_least_mul13 x :
  valid_binary (SF64mul x (Prim2SF 13)) = true ->
  SFat_least 1 x -> SFat_least 13 (SF64mul x (Prim2SF 13)).
Proof.
  rewrite Prim2SF_13.
  destruct x as [[]|[]| |[] mx ex]; cbn [SFat_least]; try contradiction; try lia.
  - intros _ _. exact I.
  - intros Hv [Hex Hx]. unfold SF64mul, SFmul in *. cbn [xorb] in *.
    assert (H := binary_round_aux_ge 13 (-1074) (-1123)
                   ltac:(lia) ltac:(lia) ltac:(lia)
                   false (Z.pos (mx * 7318349394477056)) (ex + -49) loc_Exact
                   ltac:(lia)).
    unfold L64 in *. specialize (H ltac:(lia)).
    assert (Hp : 0 < 2 ^ (ex - -1074)) by (apply pow2_pos; lia).
    assert (Hs : 2 ^ (ex + -49 - -1123) = 2 ^ (ex - -1074)).
    { f_equal. lia. }
    change (2 ^ (-1074 - -1123)) with 562949953421312 in H.
    rewrite Hs, Pos2Z.inj_mul in H.
    specialize (H ltac:(nia)).
    destruct (binary_round_aux prec emax false _ _ _) as [s|s| |s m e];
      try contradiction.
    + subst. exact I.
    + destruct H as (-> & _ & Hm). apply valid_exponent in Hv.
      cbn [SFat_least]. unfold L64. split; [lia|].
      assert (Hq : 2 ^ (e - -1123) = 2 ^ (e - -1074) * 562949953421312).
      { change 562949953421312 with (2 ^ 49).
        rewrite <- Z.pow_add_r by lia. f_equal. lia. }
      rewrite Hq in Hm. nia.
Qed.

Lemma SFat_least_div14 x :
  valid_binary x = true ->
  SFat_least 14 x -> SFat_least 1 (SF64div x (Prim2SF 14)).
Proof.
  rewrite Prim2SF_14.
  destruct x as [[]|[]| |[] mx ex]; cbn [SFat_least]; try contradiction; try lia.
  - intros _ _. exact I.
  - intros Hv [Hex Hx].
    destruct (valid_digits _ _ _ Hv) as (_ & Hd1 & _).
    unfold SF64div, SFdiv, SFdiv_core_binary.
    change (Zdigits2 (Z.pos 7881299347898368)) with 53.
    cbn [Zdigits2 xorb].
    set (d1 := Z.pos (digits2_pos mx)) in *.
    set (e' := Z.min (fexp64 (d1 + ex - (53 + -49))) (ex - -49)).
    set (s := ex - -49 - e').
    destruct (digits2_pos_bounds mx) as [Hlo _]. fold d1 in Hlo.
    assert (Hd0 : 0 < d1) by (unfold d1; lia).
    unfold L64 in *.
    assert (He' : e' = Z.max (d1 + ex - 57) (-1074)).
    { unfold e'. rewrite fexp64_eq. lia. }
    assert (Hs : 0 <= s) by (unfold s; lia).
    set (m' := match s with
               | 0 => Z.pos mx
               | Z.pos _ => Z.shiftl (Z.pos mx) s
               | Z.neg _ => 0
               end).
    assert (Hm' : m' = Z.pos mx * 2 ^ s).
    { subst m'. destruct s as [|p|p] eqn:Es.
      - rewrite Z.mul_1_r. reflexivity.
      - rewrite Z.shiftl_mul_pow2 by lia. reflexivity.
      - lia. }
    assert (Hge : 7881299347898368 <= m').
    { rewrite Hm'. destruct (Z_le_gt_dec (d1 + ex - 57) (-1074)) as [Hc|Hc].
      - assert (Es : s = (ex - -1074) + 49) by (unfold s; lia).
        rewrite Es, Z.pow_add_r by lia.
        change (2 ^ 49) with 562949953421312. nia.
      - assert (Es : s = 106 - d1) by (unfold s; lia).
        assert (Hpw : 2 ^ (d1 - 1) * 2 ^ s = 2 ^ 105).
        { rewrite <- Z.pow_add_r by lia. f_equal. lia. }
        assert (0 < 2 ^ s) by (apply pow2_pos; lia).
        assert (2 ^ 105 <= Z.pos mx * 2 ^ s) by (rewrite <- Hpw; nia).
        assert (7881299347898368 <= 2 ^ 105) by (cbn; lia). lia. }
    assert (Hdm := Z_div_mod m' (Z.pos 7881299347898368) ltac:(lia)).
    destruct (Z.div_eucl m' (Z.pos 7881299347898368)) as [q r].
    destruct Hdm as [Hdm Hr].
    assert (Hq : 0 < q) by nia.
    assert (H := binary_round_aux_ge 1 (-1074) (-1074)
                   ltac:(lia) ltac:(lia) ltac:(lia)
                   false q e' (new_location (Z.pos 7881299347898368) r)
                   Hq ltac:(lia)).
    assert (Hp : 0 < 2 ^ (e' - -1074)) by (apply pow2_pos; lia).
    change (1 * 2 ^ (-1074 - -1074)) with 1 in H.
    specialize (H ltac:(nia)).
    destruct (binary_round_aux prec emax false q e' _) as [sz|sz| |sz m e];
      try contradiction.
    + subst. exact I.
    + destruct H as (-> & He & Hm). cbn [SFat_least]. unfold L64.
      split; assumption.
Qed.

End Decline64.

(** A close below the one before it adds no gain and a loss of at least
    the least positive binary64 number. *)
Lemma decline_step prev cur :
  (cur <? prev)%float = true ->
  gain_of (cur - prev) = 0%float
  /\ SFat_least 1 (Prim2SF (loss_of (cur - prev))).
Proof.
  intros Hlt. rewrite ltb_spec in Hlt.
  assert (Hn : SFnegative (Prim2SF (cur - prev)%float)).
  { rewrite sub_spec. apply SFsub_neg; try apply Prim2SF_valid. exact Hlt. }
  assert (Hz : (0 <? cur - prev)%float = false).
  { rewrite ltb_spec, Prim2SF_0.
    destruct (Prim2SF (cur - prev)%float) as [s|[]| |[] m e];
      try contradiction; reflexivity. }
  unfold gain_of, loss_of. rewrite Hz. split; [reflexivity|].
  rewrite abs_spec. apply SFat_least_abs; [apply Prim2SF_valid | exact Hn].
Qed.

Lemma deltas_decreasing closes :
  strictly_decreasing closes = true ->
  Forall (fun d => gain_of d = 0%float /\ SFat_least 1 (Prim2SF (loss_of d)))
         (deltas closes).
Proof.
  induction closes as [|prev rest IH]; [constructor|].
  destruct rest as [|cur rest]; [constructor|].
  cbn [strictly_decreasing deltas]. intros H.
  apply andb_prop in H as [Hlt Hrest].
  constructor; [apply decline_step; exact Hlt | apply IH; exact Hrest].
Qed.

Lemma gains_of_losses ds :
  Forall (fun d => gain_of d = 0%float /\ SFat_least 1 (Prim2SF (loss_of d))) ds ->
  map gain_of ds = repeat 0%float (length ds)
  /\ Forall (fun l => SFat_least 1 (Prim2SF l)) (map loss_of ds).
Proof.
  induction 1 as [|d ds [Hg Hl] _ [IHg IHl]]; [split; [reflexivity | constructor]|].
  cbn [map length repeat]. rewrite Hg, IHg. split; [reflexivity|].
  constructor; assumption.
Qed.

Lemma sum_at_least l : forall acc k,
  (0 <= k)%Z -> (k + Z.of_nat (length l) < 2 ^ 53)%Z ->
  SFat_least k (Prim2SF acc) ->
  Forall (fun x => SFat_least 1 (Prim2SF x)) l ->
  SFat_least (k + Z.of_nat (length l)) (Prim2SF (fold_left PrimFloat.add l acc)).
Proof.
  induction l as [|x l IH]; intros acc k Hk Hb Hacc Hl.
  - cbn [length fold_left Z.of_nat]. now rewrite Z.add_0_r.
  - inversion Hl as [|? ? Hx Hl']; subst.
    cbn [fold_left length] in Hb |- *. rewrite Nat2Z.inj_succ in Hb |- *.
    replace (k + Z.succ (Z.of_nat (length l)))%Z
      with ((k + 1) + Z.of_nat (length l))%Z by lia.
    apply IH; try lia; [|assumption].
    rewrite add_spec. apply SFat_least_add; try lia; assumption.
Qed.

Lemma decline_smooth_step l li :
  SFat_least 1 (Prim2SF l) -> SFat_least 1 (Prim2SF li) ->
  SFat_least 1 (Prim2SF ((l * 13 + li) / 14)%float).
Proof.
  intros Hl Hli. rewrite div_spec.
  apply SFat_least_div14; [apply Prim2SF_valid|].
  rewrite add_spec. apply (SFat_least_add 13 1); try lia; [|assumption].
  rewrite mul_spec. apply SFat_least_mul13; [|assumption].
  rewrite <- mul_spec. apply Prim2SF_valid.
Qed.

Lemma foldM_smooth_decline ls : forall k l,
  Forall (fun x => SFat_least 1 (Prim2SF x)) ls ->
  SFat_least 1 (Prim2SF l) ->
  exists l', foldM (smooth 14) (combine (repeat 0%float k) ls) (0%float, l)
             = Ok (0%float, l')
             /\ SFat_least 1 (Prim2SF l').
Proof.
  induction ls as [|li ls IH]; intros k l Hls Hl.
  - exists l. destruct k; split; (reflexivity || assumption).
  - destruct k as [|k]; [exists l; split; [reflexivity | assumption]|].
    inversion Hls as [|? ? Hli Hls']; subst.
    cbn [repeat combine foldM]. rewrite smooth_14. cbn [Py.bind].
    change ((0 * 13 + 0) / 14)%float with 0%float.
    apply IH; [assumption | now apply decline_smooth_step].
Qed.

(** Zero divided by a positive number is zero. *)
Lemma zero_div_positive l :
  SFat_least 1 (Prim2SF l) ->
  (l =? 0)%float = false /\ (0 / l)%float = 0%float.
Proof.
  intros Hl. split.
  - rewrite eqb_spec, Prim2SF_0.
    destruct (Prim2SF l) as [[]|[]| |[] m e]; cbn in Hl; try contradiction;
      try lia; reflexivity.
  - apply Prim2SF_inj. rewrite div_spec, Prim2SF_0.
    destruct (Prim2SF l) as [[]|[]| |[] m e]; cbn in Hl; try contradiction;
      try lia; reflexivity.
Qed.

(** X24. For every strictly decreasing series of at least 15 closes the
    RSI with window 14 is exactly 0.0: every gain is zero, every loss is
    at least the least positive binary64 number, and so is the smoothed
    average loss, which therefore never reaches the zero-loss branch. *)
Theorem rsi_strictly_decreasing (closes : list float) :
  15 <= length closes ->
  strictly_decreasing closes = true ->
  calculate_rsi closes 14 = Ok 0%float.
Proof.
  intros Hlen Hdec. unfold calculate_rsi.
  replace (length closes <? 14 + 1) with false
    by (symmetry; apply Nat.ltb_ge; lia).
  rewrite length_map, length_deltas.
  replace (length closes - 1 <? 14) with false
    by (symmetry; apply Nat.ltb_ge; lia).
  destruct (gains_of_losses _ (deltas_decreasing _ Hdec)) as [-> Hlosses].
  set (losses := map loss_of (deltas closes)) in *.
  rewrite firstn_repeat, skipn_repeat, sum_zeros, !truediv_14.
  cbn [Py.bind].
  change (0 / 14)%float with 0%float.
  assert (Hl14 : length (firstn 14 losses) = 14).
  { apply firstn_length_le. unfold losses. rewrite length_map, length_deltas. lia. }
  assert (Hsum : SFat_least 14 (Prim2SF (sum (firstn 14 losses)))).
  { assert (H := sum_at_least (firstn 14 losses) 0%float 0%Z ltac:(lia)).
    rewrite Hl14 in H. apply H; [cbn; lia | cbn; lia |].
    apply Forall_firstn. exact Hlosses. }
  assert (Havg : SFat_least 1 (Prim2SF (sum (firstn 14 losses) / 14)%float)).
  { rewrite div_spec. apply SFat_least_div14; [apply Prim2SF_valid | exact Hsum]. }
  destruct (foldM_smooth_decline (skipn 14 losses) (length (deltas closes) - 14)
              (sum (firstn 14 losses) / 14)%float
              (Forall_skipn _ 14 _ Hlosses) Havg) as (l' & -> & Hl').
  cbn [Py.bind fst snd].
  destruct (zero_div_positive l' Hl') as [Hz Hq].
  rewrite Hz. unfold truediv at 1. rewrite Hz. cbn [Py.bind]. rewrite Hq.
  reflexivity.
Qed.

(** X24, witness: the closes 15.0, 14.0, ..., 1.0. *)
Lemma rsi_strictly_decreasing_witness :
  calculate_rsi falling 14 = Ok 0%float.
Proof.
  apply (rsi_strictly_decreasing falling).
  - cbn. lia.
  - reflexivity.
Defined.

(** ** RsiEngine: a NaN among the closes *)

Lemma SFeqb_refl x : x <> S754_nan -> SFeqb x x = true.
Proof.
  destruct x as [s|s| |s m e]; intros H; try (now elim H).
  - reflexivity.
  - destruct s; reflexivity.
  - unfold SFeqb, SFcompare.
    destruct s; now rewrite Z.compare_refl, Pos.compare_cont_refl.
Qed.

Lemma is_nan_spec x : is_nan x = true <-> Prim2SF x = S754_nan.
Proof.
  unfold is_nan. rewrite eqb_spec. split.
  - intros H. destruct (Prim2SF x) as [s|s| |s m e] eqn:E; try reflexivity;
      rewrite SFeqb_refl in H by discriminate; discriminate H.
  - intros ->. reflexivity.
Qed.

Lemma nan_sub x y :
  Prim2SF x = S754_nan \/ Prim2SF y = S754_nan -> Prim2SF (x - y) = S754_nan.
Proof.
  rewrite sub_spec. intros [-> | ->]; [reflexivity|].
  destruct (Prim2SF x); reflexivity.
Qed.

Lemma nan_add x y :
  Prim2SF x = S754_nan \/ Prim2SF y = S754_nan -> Prim2SF (x + y) = S754_nan.
Proof.
  rewrite add_spec. intros [-> | ->]; [reflexivity|].
  destruct (Prim2SF x); reflexivity.
Qed.

Lemma nan_mul x y :
  Prim2SF x = S754_nan \/ Prim2SF y = S754_nan -> Prim2SF (x * y) = S754_nan.
Proof.
  rewrite mul_spec. intros [-> | ->]; [reflexivity|].
  destruct (Prim2SF x); reflexivity.
Qed.

Lemma nan_div x y :
  Prim2SF x = S754_nan \/ Prim2SF y = S754_nan -> Prim2SF (x / y) = S754_nan.
Proof.
  rewrite div_spec. intros [-> | ->]; [reflexivity|].
  destruct (Prim2SF x); reflexivity.
Qed.

Lemma nan_not_zero x : Prim2SF x = S754_nan -> (x =? 0)%float = false.
Proof. intros H. now rewrite eqb_spec, H. Qed.

Lemma nan_loss d : Prim2SF d = S754_nan -> Prim2SF (loss_of d) = S754_nan.
Proof.
  intros H. unfold loss_of.
  replace (0 <? d)%float with false by (now rewrite ltb_spec, H).
  now rewrite abs_spec, H.
Qed.

(** With two closes or more, every close enters a difference. *)
Lemma nan_deltas closes :
  2 <= length closes ->
  Exists (fun x => Prim2SF x = S754_nan) closes ->
  Exists (fun d => Prim2SF d = S754_nan) (deltas closes).
Proof.
  induction closes as [|prev rest IH]; [inversion 2|].
  destruct rest as [|cur rest]; [cbn; lia|].
  intros _ H. cbn [deltas].
  inversion H as [? ? Hp | ? ? Hrest]; subst.
  - left. apply nan_sub. now right.
  - destruct rest as [|next rest].
    + inversion Hrest as [? ? Hc | ? ? Hn]; subst; [|inversion Hn].
      left. apply nan_sub. now left.
    + inversion Hrest as [? ? Hc | ? ? Hn]; subst.
      * left. apply nan_sub. now left.
      * right. apply IH; [cbn; lia|]. now right.
Qed.

Lemma nan_fold_add l : forall acc,
  Prim2SF acc = S754_nan \/ Exists (fun x => Prim2SF x = S754_nan) l ->
  Prim2SF (fold_left PrimFloat.add l acc) = S754_nan.
Proof.
  induction l as [|x l IH]; intros acc [Hacc | Hl]; cbn [fold_left].
  - exact Hacc.
  - inversion Hl.
  - apply IH. left. apply nan_add. now left.
  - inversion Hl as [? ? Hx | ? ? Hl']; subst.
    + apply IH. left. apply nan_add. now right.
    + apply IH. now right.
Qed.

Lemma foldM_smooth_nan gl : forall g l,
  Prim2SF l = S754_nan \/ Exists (fun p => Prim2SF (snd p) = S754_nan) gl ->
  exists g' l', foldM (smooth 14) gl (g, l) = Ok (g', l') /\ Prim2SF l' = S754_nan.
Proof.
  induction gl as [|[gi li] gl IH]; intros g l H.
  - destruct H as [H | H]; [|inversion H]. exists g, l. split; [reflexivity | exact H].
  - cbn [foldM]. rewrite smooth_14. cbn [Py.bind]. apply IH.
    destruct H as [H | H].
    + left. apply nan_div. left. apply nan_add. left. apply nan_mul. now left.
    + inversion H as [? ? Hli | ? ? Hgl]; subst.
      * left. apply nan_div. left. apply nan_add. now right.
      * now right.
Qed.

Lemma Exists_firstn_skipn {A} (Q : A -> Prop) n l :
  Exists Q l -> Exists Q (firstn n l) \/ Exists Q (skipn n l).
Proof.
  intros H. rewrite <- (firstn_skipn n l) in H. now apply Exists_app in H.
Qed.

(** X25. When a series of at least 15 closes holds a NaN, the RSI with
    window 14 is NaN: nothing in [calculate_rsi] filters it out. *)
Theorem rsi_nan_close (closes : list float) :
  15 <= length closes ->
  Exists (fun x => is_nan x = true) closes ->
  exists r, calculate_rsi closes 14 = Ok r /\ is_nan r = true.
Proof.
  intros Hlen Hnan.
  assert (Hd : Exists (fun d => Prim2SF d = S754_nan) (deltas closes)).
  { apply nan_deltas; [lia|].
    eapply Exists_impl; [|exact Hnan]. intros x. apply is_nan_spec. }
  unfold calculate_rsi.
  replace (length closes <? 14 + 1) with false
    by (symmetry; apply Nat.ltb_ge; lia).
  rewrite length_map, length_deltas.
  replace (length closes - 1 <? 14) with false
    by (symmetry; apply Nat.ltb_ge; lia).
  rewrite !truediv_14. cbn [Py.bind].
  rewrite !skipn_map, combine_map, !firstn_map.
  destruct (foldM_smooth_nan
              (map (fun d => (gain_of d, loss_of d)) (skipn 14 (deltas closes)))
              (sum (map gain_of (firstn 14 (deltas closes))) / 14)%float
              (sum (map loss_of (firstn 14 (deltas closes))) / 14)%float)
    as (g' & l' & -> & Hl').
  { destruct (Exists_firstn_skipn _ 14 _ Hd) as [H | H].
    - left. apply nan_div. left. apply nan_fold_add. right.
      apply Exists_map. eapply Exists_impl; [|exact H]. intros d. apply nan_loss.
    - right. apply Exists_map. eapply Exists_impl; [|exact H].
      intros d. cbn [snd]. apply nan_loss. }
  cbn [Py.bind fst snd]. rewrite (nan_not_zero _ Hl').
  unfold truediv. rewrite (nan_not_zero _ Hl').
  cbn [Py.bind].
  assert (Hrs : Prim2SF (1 + g' / l')%float = S754_nan).
  { apply nan_add. right. apply nan_div. now right. }
  rewrite (nan_not_zero _ Hrs). cbn [Py.bind].
  eexists. split; [reflexivity|].
  apply is_nan_spec. unfold round2.
  replace (Prim2SF (100 - 100 / (1 + g' / l'))%float) with S754_nan.
  - reflexivity.
  - symmetry. apply nan_sub. right. apply nan_div. now right.
Qed.

(** X25, witness: a NaN as the fourth of fifteen closes. *)
Lemma rsi_nan_close_witness :
  exists r,
    calculate_rsi [1; 2; 3; nan; 5; 6; 7; 8; 9; 10; 11; 12; 13; 14; 15]%float 14 = Ok r
    /\ is_nan r = true.
Proof.
  apply (rsi_nan_close [1; 2; 3; nan; 5; 6; 7; 8; 9; 10; 11; 12; 13; 14; 15]%float).
  - cbn. lia.
  - do 3 right. left. reflexivity.
Defined.

(** ** A NaN score, and the second length test *)

(** X26. A NaN score fails both threshold comparisons and gets the
    neutral recommendation. *)
Theorem recommend_nan (score : float) :
  is_nan score = true -> recommend score = NEUTRAL.
Proof.
  intros H. apply is_nan_spec in H.
  unfold recommend. now rewrite !ltb_spec, H.
Qed.

(** X26, witness: the NaN of the format. *)
Lemma recommend_nan_witness : recommend nan = NEUTRAL.
Proof. apply (recommend_nan nan). reflexivity. Defined.

(** X27. The second length test of [calculate_rsi] never fires: once the
    series has passed the first test, with [window + 1] closes or more,
    there are at least [window] gains and as many losses. *)
Theorem rsi_second_guard_unreachable (closes : list float) (window : nat) :
  (length closes <? window + 1) = false ->
  (length (map gain_of (deltas closes)) <? window) = false
  /\ (length (map loss_of (deltas closes)) <? window) = false.
Proof.
  intros H. apply Nat.ltb_ge in H.
  rewrite !length_map, length_deltas.
  split; apply Nat.ltb_ge; lia.
Qed.

(** X27, witness: three closes and a window of 2. *)
Lemma rsi_second_guard_unreachable_witness :
  (length (map gain_of (deltas [1; 2; 3]%float)) <? 2) = false
  /\ (length (map loss_of (deltas [1; 2; 3]%float)) <? 2) = false.
Proof.
  apply (rsi_second_guard_unreachable [1; 2; 3]%float 2). reflexivity.
Defined.
